(** * streamChat: the incremental event-stream decoder

    A shallow embedding of [streamChat] (the streaming chat template of the
    ai-integration skill) and the properties of its decode loop.

    Text is a JavaScript string, that is a sequence of UTF-16 code units.
    The three callbacks are observers: each call is recorded, in order, in
    the trace of the run, and a callback returns normally.  The two platform
    services the function relies on, [TextDecoder] and [JSON.parse], are the
    fields of the class [Platform]; every general theorem holds for every
    platform, and the instance [browser] (the WHATWG UTF-8 decoder and an
    ECMA-404 parser) is the one concrete runs are evaluated on. *)

From Stdlib Require Import Ascii String.
From Stdlib Require Import Strings.Byte.
From Stdlib Require Import List ZArith Lia ZifyBool Bool.
From Equations Require Import Equations.
Import ListNotations.
Open Scope Z_scope.

Set Warnings "-register-all".

(** ** JavaScript strings *)

Definition jsstring := list Z.

Definition str (s : string) : jsstring :=
  map (fun a => Z.of_N (N_of_ascii a)) (list_ascii_of_string s).

Definition NL : Z := 10.
Definition CR : Z := 13.

Definition str_eqb (a b : jsstring) : bool :=
  if list_eq_dec Z.eq_dec a b then true else false.

Definition str_length (s : jsstring) : Z := Z.of_nat (length s).

(** [String.prototype.indexOf] for a one-unit needle: the first position of
    [c], or [-1]. *)
Fixpoint indexOf_from (c : Z) (s : jsstring) (i : Z) : Z :=
  match s with
  | [] => -1
  | x :: t => if x =? c then i else indexOf_from c t (i + 1)
  end.

Definition indexOf (c : Z) (s : jsstring) : Z := indexOf_from c s 0.

(** The index normalisation of [String.prototype.slice]: a negative index
    counts from the end, and both ends are clamped to the string. *)
Definition rel_index (len k : Z) : Z :=
  if k <? 0 then Z.max (len + k) 0 else Z.min k len.

Definition slice (s : jsstring) (start stop : Z) : jsstring :=
  let len := str_length s in
  let from := rel_index len start in
  let to := rel_index len stop in
  firstn (Z.to_nat (to - from)) (skipn (Z.to_nat from) s).

Definition slice_from (s : jsstring) (start : Z) : jsstring :=
  slice s start (str_length s).

Fixpoint startsWith (p s : jsstring) : bool :=
  match p, s with
  | [], _ => true
  | _ :: _, [] => false
  | a :: p', b :: s' => (a =? b) && startsWith p' s'
  end.

Definition endsWith (p s : jsstring) : bool :=
  startsWith (rev p) (rev s).

(** WhiteSpace and LineTerminator code units, the ones [trim] removes. *)
Definition is_ws (c : Z) : bool :=
  (c =? 9) || (c =? 10) || (c =? 11) || (c =? 12) || (c =? 13) || (c =? 32)
  || (c =? 160) || (c =? 5760) || ((8192 <=? c) && (c <=? 8202))
  || (c =? 8232) || (c =? 8233) || (c =? 8239) || (c =? 8287)
  || (c =? 12288) || (c =? 65279).

Fixpoint trimStart (s : jsstring) : jsstring :=
  match s with
  | [] => []
  | c :: t => if is_ws c then trimStart t else s
  end.

Definition trimEnd (s : jsstring) : jsstring := rev (trimStart (rev s)).

Definition trim (s : jsstring) : jsstring := trimEnd (trimStart s).

(** [String.prototype.split] for a one-unit separator. *)
Fixpoint split (sep : Z) (s : jsstring) : list jsstring :=
  match s with
  | [] => [[]]
  | c :: t =>
      if c =? sep then [] :: split sep t
      else match split sep t with
           | p :: ps => (c :: p) :: ps
           | [] => [[c]]
           end
  end.

(** ** JSON values *)

(** A number is kept as the decimal it was written as, [mantissa * 10^exp10];
    the value JavaScript holds is the binary64 nearest to it. *)
Inductive json : Type :=
| JNull
| JBool (b : bool)
| JNumber (mantissa exp10 : Z)
| JString (s : jsstring)
| JArray (items : list json)
| JObject (fields : list (jsstring * json)).

(** The decimal [m * 10^e] rounds to zero in binary64 (round to nearest,
    ties to even) exactly when its magnitude is at most [2^-1075]. *)
Definition number_is_zero (m e : Z) : bool :=
  if m =? 0 then true
  else if 0 <=? e then false
  else Z.abs m * 2 ^ 1075 <=? 10 ^ (- e).

(** ToBoolean. *)
Definition truthy (v : json) : bool :=
  match v with
  | JNull => false
  | JBool b => b
  | JNumber m e => negb (number_is_zero m e)
  | JString s => negb (str_eqb s [])
  | JArray _ => true
  | JObject _ => true
  end.

(** An own property of an object built by [JSON.parse]: when a key is
    repeated the last occurrence is the one kept. *)
Fixpoint own_property (key : jsstring) (fields : list (jsstring * json))
  : option json :=
  match fields with
  | [] => None
  | (k, v) :: rest =>
      match own_property key rest with
      | Some w => Some w
      | None => if str_eqb k key then Some v else None
      end
  end.

Inductive completion (A : Type) : Type :=
| Normal (a : A)
| Throw.
Arguments Normal {A} a.
Arguments Throw {A}.

(** [v.name] for a name that no prototype defines ([choices], [delta],
    [content], [error]): [None] is [undefined]; reading a property of
    [null] throws a TypeError. *)
Definition member (name : jsstring) (v : json) : completion (option json) :=
  match v with
  | JNull => Throw
  | JObject fields => Normal (own_property name fields)
  | _ => Normal None
  end.

(** [v[0]] for [v] neither [null] nor [undefined]. *)
Definition index0 (v : json) : option json :=
  match v with
  | JArray items => nth_error items 0
  | JString s => match s with [] => None | c :: _ => Some (JString [c]) end
  | JObject fields => own_property (str "0") fields
  | _ => None
  end.

(** [base?.name] once [base] is evaluated. *)
Definition opt_member (name : jsstring) (base : option json) : option json :=
  match base with
  | None => None
  | Some JNull => None
  | Some v => match member name v with Normal r => r | Throw => None end
  end.

Definition opt_index0 (base : option json) : option json :=
  match base with
  | None => None
  | Some JNull => None
  | Some v => index0 v
  end.

(** [parsed.choices?.[0]?.delta?.content]. *)
Definition delta_content (parsed : json) : completion (option json) :=
  match member (str "choices") parsed with
  | Throw => Throw
  | Normal choices =>
      Normal (opt_member (str "content")
                (opt_member (str "delta") (opt_index0 choices)))
  end.

(** ** The platform *)

Class Platform : Type := {
  (** the state of a [TextDecoder] between two [decode(_, {stream: true})] *)
  decoder_state : Type;
  new_TextDecoder : decoder_state;
  (** what one more byte adds to the decoded text *)
  decode_byte : decoder_state -> byte -> jsstring * decoder_state;
  (** what the end of the input adds, when a text is decoded whole *)
  decode_end : decoder_state -> jsstring;
  (** [JSON.parse]; [None] when it throws *)
  JSON_parse : jsstring -> option json
}.

(** ** The response of [fetch] *)

Inductive stream_end : Type :=
| Closed    (** [read()] resolves with [done] *)
| Errored.  (** [read()] rejects *)

(** The body as its reader delivers it: the chunks in arrival order, then
    how the source ends. *)
Record ReadableStream : Type := {
  chunks : list (list byte);
  ending : stream_end
}.

Record Response : Type := {
  status : Z;
  body : option ReadableStream
}.

Definition ok (resp : Response) : bool :=
  (200 <=? status resp) && (status resp <=? 299).

Inductive fetch_outcome : Type :=
| fetch_rejects
| fetch_resolves (resp : Response).

(** ** The body as an object *)

(** [resp.body] while the program runs: the chunks still in its queue,
    how the source ends once they are gone, and whether a reader holds
    the lock ([resp.body.locked]). *)
Record stream_state : Type := {
  queue : list (list byte);
  source_end : stream_end;
  locked : bool
}.

(** The body of a response nobody has touched. *)
Definition opened (s : ReadableStream) : stream_state :=
  {| queue := chunks s; source_end := ending s; locked := false |}.

(** The same body once a reader holds it. *)
Definition lock_of (s : ReadableStream) : stream_state :=
  {| queue := chunks s; source_end := ending s; locked := true |}.

(** [stream.getReader()]: a TypeError when the stream is locked;
    otherwise the stream, locked to the reader. *)
Definition getReader (b : stream_state) : completion stream_state :=
  if locked b then Throw
  else Normal {| queue := queue b; source_end := source_end b; locked := true |}.

(** What [reader.read()] settles with. *)
Inductive read_result : Type :=
| Chunk (value : list byte)   (** [{ done: false, value }] *)
| Done                        (** [{ done: true }] *)
| ReadRejects.                (** the promise rejects *)

(** [reader.read()]: the chunk at the head of the queue leaves it. *)
Definition read (b : stream_state) : read_result * stream_state :=
  match queue b with
  | value :: rest =>
      (Chunk value,
       {| queue := rest; source_end := source_end b; locked := locked b |})
  | [] =>
      (match source_end b with Closed => Done | Errored => ReadRejects end, b)
  end.

(** The stream after [n] calls of [read]. *)
Definition after_reads (n : nat) (b : stream_state) : stream_state :=
  Nat.iter n (fun b' => snd (read b')) b.

(** What [resp.json()] does to the body: it takes a reader and reads
    until the source is done or a read fails, and it gives nothing
    back. *)
Definition consumed (s : ReadableStream) : stream_state :=
  match getReader (opened s) with
  | Throw => opened s
  | Normal reader => after_reads (length (queue reader)) reader
  end.

(** ** The callbacks *)

Inductive event : Type :=
| onDelta (deltaText : json)
| onDone
| onError (error : json).

Definition msg (s : string) : json := JString (str s).

Definition RATE_LIMIT : json :=
  msg "Request rate too high, please try again later".
Definition QUOTA : json :=
  msg "Insufficient quota, please recharge to continue".
Definition CONNECTION_FAILED : json :=
  msg "Connection failed, please retry".
Definition NO_STREAM : json :=
  msg "Unable to get response stream".
Definition NETWORK_FAILED : json :=
  msg "Network connection failed, please check your network and retry".

(** [a || b] *)
Definition or_else (a : option json) (b : json) : json :=
  match a with
  | Some v => if truthy v then v else b
  | None => b
  end.

(** ** streamChat *)

Definition inspect {A : Type} (a : A) : {b : A | a = b} := exist _ a eq_refl.

Section StreamChat.

Context {platform : Platform}.

(** What one pass through the body of the inner [while] does with the
    line it cut off. *)
Inductive line_outcome : Type :=
| Continue (delta : option json)  (** [continue], or the end of the body *)
| BreakDone                       (** [streamDone = true; break] *)
| BreakPushback (line : jsstring). (** the [catch]: push back and [break] *)

Definition chomp (line : jsstring) : jsstring :=
  if endsWith [CR] line then slice line 0 (-1) else line.

Definition DATA : jsstring := str "data: ".
Definition DONE : jsstring := str "[DONE]".

Definition live_line (line0 : jsstring) : line_outcome :=
  let line := chomp line0 in
  if startsWith (str ":") line || str_eqb (trim line) [] then Continue None
  else if negb (startsWith DATA line) then Continue None
  else
    let jsonStr := trim (slice_from line 6) in
    if str_eqb jsonStr DONE then BreakDone
    else
      match JSON_parse jsonStr with
      | None => BreakPushback line
      | Some parsed =>
          match delta_content parsed with
          | Throw => BreakPushback line
          | Normal content =>
              Continue (match content with
                        | Some c => if truthy c then Some c else None
                        | None => None
                        end)
          end
      end.

Definition emit (delta : option json) : list json :=
  match delta with Some c => [c] | None => [] end.

(** The inner [while ((newlineIndex = textBuffer.indexOf("\n")) !== -1)]:
    the buffer it leaves, the deltas it hands to [onDelta], in order, and
    [streamDone]. *)
Equations? scan (textBuffer : jsstring) : jsstring * list json * bool
  by wf (length textBuffer) lt :=
  scan textBuffer with inspect (indexOf NL textBuffer) := {
    | exist _ newlineIndex _ with inspect (newlineIndex =? -1) := {
      | exist _ true _ => (textBuffer, [], false)
      | exist _ false _
          with live_line (slice textBuffer 0 newlineIndex) := {
        | Continue delta =>
            let '(buffer, deltas, done) :=
              scan (slice_from textBuffer (newlineIndex + 1)) in
            (buffer, emit delta ++ deltas, done)
        | BreakDone =>
            (slice_from textBuffer (newlineIndex + 1), [], true)
        | BreakPushback line =>
            (line ++ NL :: slice_from textBuffer (newlineIndex + 1),
             [], false) } } }.
Proof.
  assert (R : forall s i, indexOf_from NL s i = -1 \/
                i <= indexOf_from NL s i < i + Z.of_nat (length s)).
  { induction s as [|x t IH]; intros i; [now left|].
    cbn [indexOf_from length]. destruct (x =? NL); [right; lia|].
    destruct (IH (i + 1)) as [E|E]; [now left|right; lia]. }
  specialize (R textBuffer 0). fold (indexOf NL textBuffer) in R.
  match goal with E : (_ =? -1) = false |- _ => apply Z.eqb_neq in E end.
  unfold slice_from, slice, str_length, rel_index.
  destruct (indexOf NL textBuffer + 1 <? 0) eqn:E1; [lia|].
  destruct (Z.of_nat (length textBuffer) <? 0) eqn:E2; [lia|].
  rewrite length_firstn, length_skipn. lia.
Qed.

(** The variables of the read loop. *)
Record loop_state : Type := {
  textBuffer : jsstring;
  streamDone : bool;
  decoder : decoder_state;
  deltas : list json;   (** the arguments of the calls of [onDelta] so far *)
  reads : nat           (** the chunks [reader.read()] has delivered *)
}.

(** [decoder.decode(value, { stream: true })] *)
Fixpoint decode (d : decoder_state) (value : list byte)
  : jsstring * decoder_state :=
  match value with
  | [] => ([], d)
  | b :: rest =>
      let '(t1, d1) := decode_byte d b in
      let '(t2, d2) := decode d1 rest in
      (t1 ++ t2, d2)
  end.

(** The UTF-8 decode of a whole body. *)
Definition UTF8_decode (input : list byte) : jsstring :=
  let '(text, d) := decode new_TextDecoder input in
  text ++ decode_end d.

(** [resp.json()]: the body is read to its end and its text parsed;
    [None] when the promise rejects, because a read failed or because
    the text is not JSON.  A response without body has no bytes. *)
Definition Response_json (resp : Response) : option json :=
  match body resp with
  | None => JSON_parse (UTF8_decode [])
  | Some stream =>
      match ending stream with
      | Errored => None
      | Closed => JSON_parse (UTF8_decode (concat (chunks stream)))
      end
  end.

(** One pass through the body of the outer [while] with a chunk in hand. *)
Definition on_chunk (st : loop_state) (value : list byte) : loop_state :=
  let '(text, d) := decode (decoder st) value in
  let '(buffer, out, done) := scan (textBuffer st ++ text) in
  {| textBuffer := buffer;
     streamDone := done;
     decoder := d;
     deltas := deltas st ++ out;
     reads := S (reads st) |}.

Inductive loop_exit : Type :=
| Fallthrough  (** the loop is left, the final flush is next *)
| Rejected.    (** [await reader.read()] threw *)

(** [while (!streamDone) { const { done, value } = await reader.read();
    if (done) break; ... }] *)
Fixpoint read_loop (st : loop_state) (pending : list (list byte))
  (e : stream_end) : loop_state * loop_exit :=
  if streamDone st then (st, Fallthrough)
  else
    match pending with
    | [] => match e with
            | Closed => (st, Fallthrough)
            | Errored => (st, Rejected)
            end
    | value :: rest => read_loop (on_chunk st value) rest e
    end.

(** The same loop, step by step on the reader: [reads_to st b st' exit b']
    when the loop entered with the variables [st] on the stream [b] is
    left through [exit] with the variables [st'], the stream being
    [b']. *)
Inductive reads_to
  : loop_state -> stream_state -> loop_state -> loop_exit -> stream_state
    -> Prop :=
| loop_sentinel (st : loop_state) (b : stream_state) :
    streamDone st = true -> reads_to st b st Fallthrough b
| loop_done (st : loop_state) (b b' : stream_state) :
    streamDone st = false -> read b = (Done, b') ->
    reads_to st b st Fallthrough b'
| loop_rejected (st : loop_state) (b b' : stream_state) :
    streamDone st = false -> read b = (ReadRejects, b') ->
    reads_to st b st Rejected b'
| loop_chunk (st : loop_state) (b b' : stream_state) (value : list byte)
    (st' : loop_state) (exit : loop_exit) (b'' : stream_state) :
    streamDone st = false -> read b = (Chunk value, b') ->
    reads_to (on_chunk st value) b' st' exit b'' ->
    reads_to st b st' exit b''.

(** The body of the [for (let raw of textBuffer.split("\n"))] of the
    final flush. *)
Definition flush_line (raw0 : jsstring) : list json :=
  if str_eqb raw0 [] then []
  else
    let raw := chomp raw0 in
    if startsWith (str ":") raw || str_eqb (trim raw) [] then []
    else if negb (startsWith DATA raw) then []
    else
      let jsonStr := trim (slice_from raw 6) in
      if str_eqb jsonStr DONE then []
      else
        match JSON_parse jsonStr with
        | None => []
        | Some parsed =>
            match delta_content parsed with
            | Throw => []
            | Normal content =>
                match content with
                | Some c => if truthy c then [c] else []
                | None => []
                end
            end
        end.

Definition final_flush (buffer : jsstring) : list json :=
  if negb (str_eqb (trim buffer) []) then
    flat_map flush_line (split NL buffer)
  else [].

Definition initial_state : loop_state :=
  {| textBuffer := [];
     streamDone := false;
     decoder := new_TextDecoder;
     deltas := [];
     reads := 0 |}.

(** What a run leaves behind. *)
Record run : Type := {
  events : list event;        (** the callbacks, in the order of the calls *)
  chunks_read : nat;          (** chunks the read loop took from its reader *)
  sentinel_seen : bool;       (** [streamDone] when the function returns *)
  leftover : jsstring;        (** [textBuffer] when the read loop is left *)
  flushed : bool              (** the final flush was reached *)
}.

(** A run that never reaches the read loop. *)
Definition no_decode (evs : list event) : run :=
  {| events := evs; chunks_read := 0%nat; sentinel_seen := false;
     leftover := []; flushed := false |}.

(** [streamChat]: the run, and [resp.body] as the function leaves it,
    [None] when there is no response or no body. *)
Definition streamChat_on (f : fetch_outcome) : run * option stream_state :=
  match f with
  | fetch_rejects => (no_decode [onError NETWORK_FAILED], None)
  | fetch_resolves resp =>
      if negb (ok resp) then
        let errorData :=
          match Response_json resp with Some v => v | None => JObject [] end in
        (match member (str "error") errorData with
         | Throw => no_decode [onError NETWORK_FAILED]
         | Normal error =>
             if status resp =? 429 then
               no_decode [onError (or_else error RATE_LIMIT)]
             else if status resp =? 402 then
               no_decode [onError (or_else error QUOTA)]
             else no_decode [onError (or_else error CONNECTION_FAILED)]
         end,
         option_map consumed (body resp))
      else
        match body resp with
        | None => (no_decode [onError NO_STREAM], None)
        | Some stream =>
            match getReader (opened stream) with
            | Throw =>
                (no_decode [onError NETWORK_FAILED], Some (opened stream))
            | Normal reader =>
                let '(st, exit) :=
                  read_loop initial_state (queue reader) (source_end reader) in
                (match exit with
                 | Rejected =>
                     {| events :=
                          map onDelta (deltas st) ++ [onError NETWORK_FAILED];
                        chunks_read := reads st;
                        sentinel_seen := streamDone st;
                        leftover := textBuffer st;
                        flushed := false |}
                 | Fallthrough =>
                     {| events :=
                          map onDelta (deltas st ++ final_flush (textBuffer st))
                          ++ [onDone];
                        chunks_read := reads st;
                        sentinel_seen := streamDone st;
                        leftover := textBuffer st;
                        flushed := true |}
                 end,
                 Some (after_reads (reads st) reader))
            end
        end
  end.

Definition streamChat (f : fetch_outcome) : run := fst (streamChat_on f).

Definition body_left (f : fetch_outcome) : option stream_state :=
  snd (streamChat_on f).

End StreamChat.

(** ** A concrete platform: the WHATWG UTF-8 decoder *)

Module Utf8.

Record state : Type := {
  code_point : Z;
  bytes_seen : Z;
  bytes_needed : Z;
  lower_boundary : Z;
  upper_boundary : Z;
  bom_seen : bool
}.

Definition fresh (bom : bool) : state :=
  {| code_point := 0; bytes_seen := 0; bytes_needed := 0;
     lower_boundary := 128; upper_boundary := 191; bom_seen := bom |}.

Definition expect (bom : bool) (cp needed lower upper : Z) : state :=
  {| code_point := cp; bytes_seen := 0; bytes_needed := needed;
     lower_boundary := lower; upper_boundary := upper; bom_seen := bom |}.

(** The handler when no byte is awaited: the code points it emits and the
    state it leaves. *)
Definition lead (bom : bool) (b : Z) : list Z * state :=
  if b <=? 127 then ([b], fresh bom)
  else if (194 <=? b) && (b <=? 223) then
    ([], expect bom (Z.land b 31) 1 128 191)
  else if (224 <=? b) && (b <=? 239) then
    ([], expect bom (Z.land b 15) 2
           (if b =? 224 then 160 else 128) (if b =? 237 then 159 else 191))
  else if (240 <=? b) && (b <=? 244) then
    ([], expect bom (Z.land b 7) 3
           (if b =? 240 then 144 else 128) (if b =? 244 then 143 else 191))
  else ([65533], fresh bom).

Definition handler (st : state) (b : Z) : list Z * state :=
  if bytes_needed st =? 0 then lead (bom_seen st) b
  else if negb ((lower_boundary st <=? b) && (b <=? upper_boundary st)) then
    (** the byte is put back and read again by a fresh decoder *)
    let '(out, st') := lead (bom_seen st) b in (65533 :: out, st')
  else
    let cp := Z.lor (Z.shiftl (code_point st) 6) (Z.land b 63) in
    if bytes_seen st + 1 =? bytes_needed st then ([cp], fresh (bom_seen st))
    else
      ([], {| code_point := cp; bytes_seen := bytes_seen st + 1;
              bytes_needed := bytes_needed st;
              lower_boundary := 128; upper_boundary := 191;
              bom_seen := bom_seen st |}).

(** The first code point ever produced is dropped when it is U+FEFF. *)
Definition strip_bom (bom : bool) (cps : list Z) : list Z * bool :=
  match cps with
  | [] => ([], bom)
  | c :: rest =>
      if bom then (cps, true)
      else if c =? 65279 then (rest, true) else (cps, true)
  end.

Definition utf16 (cp : Z) : jsstring :=
  if cp <? 65536 then [cp]
  else [55296 + Z.shiftr (cp - 65536) 10; 56320 + Z.land (cp - 65536) 1023].

Definition decode_byte (st : state) (b : byte) : jsstring * state :=
  let '(cps, st1) := handler st (Z.of_N (Byte.to_N b)) in
  let '(out, bom) := strip_bom (bom_seen st1) cps in
  (flat_map utf16 out,
   {| code_point := code_point st1; bytes_seen := bytes_seen st1;
      bytes_needed := bytes_needed st1;
      lower_boundary := lower_boundary st1;
      upper_boundary := upper_boundary st1; bom_seen := bom |}).

(** The end of the input: a sequence left unfinished is replaced. *)
Definition decode_end (st : state) : jsstring :=
  if bytes_needed st =? 0 then [] else [65533].

End Utf8.

(** ** A concrete platform: JSON.parse *)

Module JSON.

Definition is_json_ws (c : Z) : bool :=
  (c =? 32) || (c =? 9) || (c =? 10) || (c =? 13).

Fixpoint skip_ws (s : jsstring) : jsstring :=
  match s with
  | [] => []
  | c :: t => if is_json_ws c then skip_ws t else s
  end.

Definition hex_value (c : Z) : option Z :=
  if (48 <=? c) && (c <=? 57) then Some (c - 48)
  else if (65 <=? c) && (c <=? 70) then Some (c - 55)
  else if (97 <=? c) && (c <=? 102) then Some (c - 87)
  else None.

Definition hex4 (a b c d : Z) : option Z :=
  match hex_value a, hex_value b, hex_value c, hex_value d with
  | Some x, Some y, Some z, Some w => Some (((x * 16 + y) * 16 + z) * 16 + w)
  | _, _, _, _ => None
  end.

Definition simple_escape (c : Z) : option Z :=
  if c =? 34 then Some 34
  else if c =? 92 then Some 92
  else if c =? 47 then Some 47
  else if c =? 98 then Some 8
  else if c =? 102 then Some 12
  else if c =? 110 then Some 10
  else if c =? 114 then Some 13
  else if c =? 116 then Some 9
  else None.

Definition cons_to (c : Z) (r : option (jsstring * jsstring))
  : option (jsstring * jsstring) :=
  match r with
  | Some (body, rest) => Some (c :: body, rest)
  | None => None
  end.

(** The characters of a string after its opening quote, up to and with the
    closing one. *)
Fixpoint string_body (s : jsstring) : option (jsstring * jsstring) :=
  match s with
  | [] => None
  | c :: t =>
      if c =? 34 then Some ([], t)
      else if c =? 92 then
        match t with
        | [] => None
        | e :: t1 =>
            if e =? 117 then
              match t1 with
              | h1 :: h2 :: h3 :: h4 :: t2 =>
                  match hex4 h1 h2 h3 h4 with
                  | Some u => cons_to u (string_body t2)
                  | None => None
                  end
              | _ => None
              end
            else
              match simple_escape e with
              | Some u => cons_to u (string_body t1)
              | None => None
              end
        end
      else if c <? 32 then None
      else cons_to c (string_body t)
  end.

Definition is_digit (c : Z) : bool := (48 <=? c) && (c <=? 57).

Fixpoint digits (s : jsstring) : list Z * jsstring :=
  match s with
  | [] => ([], [])
  | c :: t =>
      if is_digit c then let '(ds, rest) := digits t in (c - 48 :: ds, rest)
      else ([], s)
  end.

Definition decimal (ds : list Z) : Z :=
  fold_left (fun acc d => acc * 10 + d) ds 0.

(** number = [ minus ] int [ frac ] [ exp ], as [(mantissa, exp10, rest)]. *)
Definition number (s : jsstring) : option (Z * Z * jsstring) :=
  let '(negative, s1) :=
    match s with
    | c :: t => if c =? 45 then (true, t) else (false, s)
    | [] => (false, s)
    end in
  let '(int, s2) := digits s1 in
  match int with
  | [] => None
  | d :: more =>
      if (d =? 0) && negb (Nat.eqb (length more) 0) then None
      else
        let frac_part :=
          match s2 with
          | c :: t =>
              if c =? 46 then
                let '(fs, s3) := digits t in
                match fs with
                | [] => None
                | _ => Some (fs, s3)
                end
              else Some ([], s2)
          | [] => Some ([], s2)
          end in
        match frac_part with
        | None => None
        | Some (frac, s3) =>
            let exp_part :=
              match s3 with
              | c :: t =>
                  if (c =? 101) || (c =? 69) then
                    let '(sign, t1) :=
                      match t with
                      | x :: t' =>
                          if x =? 45 then (-1, t')
                          else if x =? 43 then (1, t') else (1, t)
                      | [] => (1, t)
                      end in
                    let '(es, s4) := digits t1 in
                    match es with
                    | [] => None
                    | _ => Some (sign * decimal es, s4)
                    end
                  else Some (0, s3)
              | [] => Some (0, s3)
              end in
            match exp_part with
            | None => None
            | Some (e, s4) =>
                let m := decimal (int ++ frac) in
                Some (if negative then - m else m,
                      e - Z.of_nat (length frac), s4)
            end
        end
  end.

Definition literal (word : string) (v : json) (s : jsstring)
  : option (json * jsstring) :=
  if startsWith (str word) s
  then Some (v, skipn (length (str word)) s) else None.

Fixpoint value (fuel : nat) (s : jsstring) : option (json * jsstring) :=
  match fuel with
  | O => None
  | S n =>
      match skip_ws s with
      | [] => None
      | c :: t =>
          if c =? 123 then
            match skip_ws t with
            | x :: t1 =>
                if x =? 125 then Some (JObject [], t1) else members n t []
            | [] => None
            end
          else if c =? 91 then
            match skip_ws t with
            | x :: t1 =>
                if x =? 93 then Some (JArray [], t1) else elements n t []
            | [] => None
            end
          else if c =? 34 then
            match string_body t with
            | Some (body, rest) => Some (JString body, rest)
            | None => None
            end
          else if c =? 116 then literal "true" (JBool true) (c :: t)
          else if c =? 102 then literal "false" (JBool false) (c :: t)
          else if c =? 110 then literal "null" JNull (c :: t)
          else
            match number (c :: t) with
            | Some (m, e, rest) => Some (JNumber m e, rest)
            | None => None
            end
      end
  end
with elements (fuel : nat) (s : jsstring) (acc : list json)
  : option (json * jsstring) :=
  match fuel with
  | O => None
  | S n =>
      match value n s with
      | None => None
      | Some (v, rest) =>
          match skip_ws rest with
          | c :: t =>
              if c =? 44 then elements n t (acc ++ [v])
              else if c =? 93 then Some (JArray (acc ++ [v]), t)
              else None
          | [] => None
          end
      end
  end
with members (fuel : nat) (s : jsstring) (acc : list (jsstring * json))
  : option (json * jsstring) :=
  match fuel with
  | O => None
  | S n =>
      match skip_ws s with
      | q :: t =>
          if q =? 34 then
            match string_body t with
            | None => None
            | Some (key, rest) =>
                match skip_ws rest with
                | colon :: t1 =>
                    if colon =? 58 then
                      match value n t1 with
                      | None => None
                      | Some (v, rest1) =>
                          match skip_ws rest1 with
                          | c :: t2 =>
                              if c =? 44 then members n t2 (acc ++ [(key, v)])
                              else if c =? 125
                              then Some (JObject (acc ++ [(key, v)]), t2)
                              else None
                          | [] => None
                          end
                      end
                    else None
                | [] => None
                end
            end
          else None
      | [] => None
      end
  end.

Definition parse (text : jsstring) : option json :=
  match value (2 * length text + 2) text with
  | Some (v, rest) =>
      match skip_ws rest with
      | [] => Some v
      | _ :: _ => None
      end
  | None => None
  end.

End JSON.

#[export] Instance browser : Platform := {|
  decoder_state := Utf8.state;
  new_TextDecoder := Utf8.fresh false;
  decode_byte := Utf8.decode_byte;
  decode_end := Utf8.decode_end;
  JSON_parse := JSON.parse
|}.

(** The bytes of an ASCII text. *)
Definition bytes (s : string) : list byte := list_byte_of_string s.

(** ** Notions the statements use *)

Section Notions.

Context {platform : Platform}.

(** The body of the inner loop after the carriage return is dropped. *)
Definition classify (line : jsstring) : line_outcome :=
  if startsWith (str ":") line || str_eqb (trim line) [] then Continue None
  else if negb (startsWith DATA line) then Continue None
  else
    let jsonStr := trim (slice_from line 6) in
    if str_eqb jsonStr DONE then BreakDone
    else
      match JSON_parse jsonStr with
      | None => BreakPushback line
      | Some parsed =>
          match delta_content parsed with
          | Throw => BreakPushback line
          | Normal content =>
              Continue (match content with
                        | Some c => if truthy c then Some c else None
                        | None => None
                        end)
          end
      end.

(** The deltas of a text flushed line by line. *)
Definition flush_all (text : jsstring) : list json :=
  flat_map flush_line (split NL text).

(** The text the decoder makes of a sequence of chunks. *)
Definition text_of (d : decoder_state) (cs : list (list byte)) : jsstring :=
  fst (decode d (concat cs)).

(** The decoder after a sequence of chunks. *)
Definition decoder_after (d : decoder_state) (cs : list (list byte))
  : decoder_state :=
  snd (decode d (concat cs)).

(** The buffer [buffer] and the deltas [out] account for the text [T]:
    whatever text comes next, the scan of the buffer goes on as the scan of
    all the text would, and a flush of the buffer completes the flush of
    all the text. *)
Definition tracks (T buffer : jsstring) (out : list json) : Prop :=
  forall t,
    (exists bx,
        scan (T ++ t) =
        (bx, out ++ snd (fst (scan (buffer ++ t))), snd (scan (buffer ++ t)))
        /\ (snd (scan (buffer ++ t)) = true ->
            bx = fst (fst (scan (buffer ++ t)))))
    /\ flush_all (T ++ t) = out ++ flush_all (buffer ++ t).

(** A text made of terminated lines that the inner loop takes out of the
    buffer for good: each is skipped or parsed, none is pushed back, none
    is the sentinel. *)
Inductive extracted : jsstring -> Prop :=
| extracted_nil : extracted []
| extracted_line (l r : jsstring) (delta : option json) :
    ~ In NL l -> live_line l = Continue delta -> extracted r ->
    extracted (l ++ NL :: r).

(** The buffer between two reads, against the text [T] received: what
    follows the extracted lines, either an unterminated tail kept as it
    came, or a line that was pushed back, less the carriage returns the
    scans took from its end, and all that follows it. *)
Definition pending_shape (T buffer : jsstring) : Prop :=
  exists pre suf,
    T = pre ++ suf /\ extracted pre /\
    ((suf = buffer /\ ~ In NL buffer) \/
     (exists l k r,
         suf = l ++ repeat CR k ++ NL :: r /\ buffer = l ++ NL :: r
         /\ ~ In NL l /\ exists p, live_line l = BreakPushback p)).

(** The buffer once the sentinel is met: what follows the sentinel line. *)
Definition sentinel_shape (T buffer : jsstring) : Prop :=
  exists pre sl,
    T = pre ++ sl ++ NL :: buffer /\ extracted pre
    /\ ~ In NL sl /\ live_line sl = BreakDone.

(** The state of the read loop between two reads, after the text [T]. *)
Definition between_reads (T : jsstring) (st : loop_state) : Prop :=
  streamDone st = false
  /\ tracks T (textBuffer st) (deltas st)
  /\ snd (fst (scan (textBuffer st))) = []
  /\ snd (scan (textBuffer st)) = false
  /\ pending_shape T (textBuffer st).

(** How the read loop is left when the source runs out. *)
Definition exit_of (e : stream_end) : loop_exit :=
  match e with Closed => Fallthrough | Errored => Rejected end.

(** The arguments of the calls of [onDelta] in a trace. *)
Fixpoint delta_texts (evs : list event) : list json :=
  match evs with
  | [] => []
  | onDelta c :: rest => c :: delta_texts rest
  | _ :: rest => delta_texts rest
  end.

(** The calls of [onDone] and of [onError] in a trace. *)
Fixpoint terminal_calls (evs : list event) : nat :=
  match evs with
  | [] => 0
  | onDelta _ :: rest => terminal_calls rest
  | _ :: rest => S (terminal_calls rest)
  end.

(** The message [streamChat] falls back on for a status that is not a
    success. *)
Definition status_message (s : Z) : json :=
  if s =? 429 then RATE_LIMIT
  else if s =? 402 then QUOTA
  else CONNECTION_FAILED.

(** [errorData]: what [resp.json()] gave, or the empty object of the
    [catch]. *)
Definition errorData_of (resp : Response) : json :=
  match Response_json resp with Some v => v | None => JObject [] end.

(** The text with every line terminator written carriage return, line
    feed. *)
Fixpoint crlf (s : jsstring) : jsstring :=
  match s with
  | [] => []
  | c :: t => if c =? NL then CR :: NL :: crlf t else c :: crlf t
  end.

(** A text that stops at a line boundary. *)
Definition whole_lines (a : jsstring) : Prop :=
  a = [] \/ exists p, a = p ++ [NL].

(** A text in which the live loop meets no sentinel, or meets one that
    only white space follows. *)
Definition settled (T : jsstring) : Prop :=
  snd (scan T) = false \/ trim (fst (fst (scan T))) = [].

(** The calls a session makes when all its text comes as one chunk. *)
Definition events_of_text (T : jsstring) (e : stream_end) : list event :=
  let '(buffer, out, done) := scan T in
  if done then map onDelta (out ++ final_flush buffer) ++ [onDone]
  else
    match e with
    | Closed => map onDelta (out ++ final_flush buffer) ++ [onDone]
    | Errored => map onDelta out ++ [onError NETWORK_FAILED]
    end.

(** Two outcomes that differ at most by the line pushed back. *)
Definition same_outcome (x y : line_outcome) : Prop :=
  match x, y with
  | Continue d, Continue d' => d = d'
  | BreakDone, BreakDone => True
  | BreakPushback _, BreakPushback _ => True
  | _, _ => False
  end.

End Notions.


(** The same bytes delivered as one chunk. *)
Definition single_chunk (s : ReadableStream) : ReadableStream :=
  {| chunks := [concat (chunks s)]; ending := ending s |}.

Definition with_body (resp : Response) (s : ReadableStream) : Response :=
  {| status := status resp; body := Some s |}.

(** A successful response whose body delivers [cs] and ends as [e]. *)
Definition source (cs : list (list byte)) (e : stream_end) : ReadableStream :=
  {| chunks := cs; ending := e |}.

Definition success (cs : list (list byte)) (e : stream_end) : Response :=
  {| status := 200; body := Some (source cs e) |}.

Definition respond (cs : list (list byte)) (e : stream_end) : fetch_outcome :=
  fetch_resolves (success cs e).

(** A response refused with the status [code], whose body delivers [cs]
    and ends as [e]. *)
Definition refusal (code : Z) (cs : list (list byte)) (e : stream_end)
  : Response :=
  {| status := code; body := Some (source cs e) |}.

(** ** The streams of the examples *)

Definition LF : string := String "010" EmptyString.
Definition CRLF : string := String "013" LF.
Definition QUOTE : string := String "034" EmptyString.
Definition quoted (s : string) : string := (QUOTE ++ s ++ QUOTE)%string.

(** The payload [{"choices":[{"delta":{"content": content}}]}]. *)
Definition payload (content : string) : string :=
  ("{" ++ quoted "choices" ++ ":[{" ++ quoted "delta" ++ ":{"
   ++ quoted "content" ++ ":" ++ quoted content ++ "}}]}")%string.

(** The line [data: <payload>], with its terminator. *)
Definition frame (content : string) : string :=
  ("data: " ++ payload content ++ LF)%string.

(** The body [{"error": text}]. *)
Definition error_body (text : string) : string :=
  ("{" ++ quoted "error" ++ ":" ++ quoted text ++ "}")%string.

Definition sentinel_frame : string := ("data: [DONE]" ++ LF)%string.
Definition not_json_frame : string := ("data: not-json" ++ LF)%string.

(** The run of the browser on such a response, and a delta of text. *)
Definition run_of (cs : list (list byte)) (e : stream_end) : run :=
  @streamChat browser (respond cs e).

Definition delta (s : string) : event := onDelta (JString (str s)).

(** A character that a JSON string holds as it is and UTF-8 writes as
    one byte: ASCII, not a control character, not the quote, not the
    backslash. *)
Definition plain_char (a : ascii) : bool :=
  let n := Z.of_N (N_of_ascii a) in
  (32 <=? n) && (n <=? 127) && negb (n =? 34) && negb (n =? 92).

Fixpoint plain (s : string) : bool :=
  match s with
  | EmptyString => true
  | String a t => plain_char a && plain t
  end.

(** Text of one byte a character. *)
Fixpoint ascii_only (s : string) : bool :=
  match s with
  | EmptyString => true
  | String a t => (Z.of_N (N_of_ascii a) <=? 127) && ascii_only t
  end.

(** A text worth a delta: plain and not empty. *)
Definition content_text (s : string) : bool :=
  match s with
  | EmptyString => false
  | String _ _ => plain s
  end.

(** The frames of a list of contents, one after the other. *)
Fixpoint frames (contents : list string) : string :=
  match contents with
  | [] => EmptyString
  | s :: rest => (frame s ++ frames rest)%string
  end.

(** ** ChatInterface: the caller of streamChat *)

Module Chat.

Inductive role : Type := user | assistant.

Record Message : Type := {
  id : jsstring;
  role_of : role;
  content : jsstring
}.

(** The state of the component, and what [toast.error] was given. *)
Record state : Type := {
  messages : list Message;
  isStreaming : bool;
  currentResponse : jsstring;
  toasts : list json
}.

Section Handler.

Context {platform : Platform}.

(** ToString of a value that is not a string. *)
Variable ToString : json -> jsstring.

(** The text of a value in a concatenation. *)
Definition shown (deltaText : json) : jsstring :=
  match deltaText with
  | JString s => s
  | v => ToString v
  end.

(** [prev + deltaText] *)
Definition plus (prev : jsstring) (deltaText : json) : jsstring :=
  prev ++ shown deltaText.

(** The three callbacks [handleSendMessage] gives to [streamChat].  The
    [currentResponse] that [onDone] reads is the constant of the render
    that made the handler, not the state. *)
Definition callback (rendered : state) (assistantMessageId : jsstring)
  (st : state) (ev : event) : state :=
  match ev with
  | onDelta deltaText =>
      {| messages := messages st;
         isStreaming := isStreaming st;
         currentResponse := plus (currentResponse st) deltaText;
         toasts := toasts st |}
  | onDone =>
      {| messages :=
           messages st
           ++ [{| id := assistantMessageId; role_of := assistant;
                  content := currentResponse rendered |}];
         isStreaming := false;
         currentResponse := [];
         toasts := toasts st |}
  | onError error =>
      {| messages := messages st;
         isStreaming := false;
         currentResponse := [];
         toasts := toasts st ++ [error] |}
  end.

(** The state when the request is about to be sent. *)
Definition sending (st : state) (newMessage : Message) : state :=
  {| messages := messages st ++ [newMessage];
     isStreaming := true;
     currentResponse := [];
     toasts := toasts st |}.

(** The messages given to [streamChat]: those of the render, and the new
    one. *)
Definition request (rendered : state) (newMessage : Message) : list Message :=
  messages rendered ++ [newMessage].

(** [handleSendMessage(userMessage)], run in the render [rendered] on the
    state [st]; the two identifiers are those [crypto.randomUUID()] gives,
    and [f] is what [fetch] does with the request. *)
Definition handleSendMessage (rendered st : state)
  (userMessage newId assistantMessageId : jsstring) (f : fetch_outcome)
  : state :=
  let newMessage :=
    {| id := newId; role_of := user; content := userMessage |} in
  fold_left (callback rendered assistantMessageId)
    (events (streamChat f)) (sending st newMessage).

End Handler.

End Chat.

(** ** The edge functions *)

Module Endpoint.

(** A promise of the platform: its value, or the message of the error it
    rejects with. *)
Inductive promise (A : Type) : Type :=
| Resolves (a : A)
| Rejects (message : jsstring).
Arguments Resolves {A} a.
Arguments Rejects {A} message.

(** The request the function receives. *)
Record Request : Type := {
  method : jsstring;
  json_of : promise json    (** [req.json()] *)
}.

(** The response of the gateway. *)
Record Upstream : Type := {
  up_status : Z;
  up_text : promise jsstring;   (** [response.text()] *)
  up_json : promise json        (** [response.json()] *)
}.

Definition up_ok (r : Upstream) : bool :=
  (200 <=? up_status r) && (up_status r <=? 299).

(** What the function sends to the gateway. *)
Record Call : Type := {
  authorization : jsstring;
  call_body : json            (** the argument of [JSON.stringify] *)
}.

(** What the function answers: the status, the value given to
    [JSON.stringify] for the body ([None] for a [null] body), the
    headers. *)
Record Reply : Type := {
  reply_status : Z;
  reply_body : option json;
  reply_headers : list (jsstring * jsstring)
}.

Definition corsHeaders : list (jsstring * jsstring) :=
  [(str "Access-Control-Allow-Origin", str "*");
   (str "Access-Control-Allow-Headers",
    str "authorization, x-client-info, apikey, content-type");
   (str "Access-Control-Allow-Methods", str "POST, OPTIONS");
   (str "Access-Control-Max-Age", str "86400")].

Definition json_headers : list (jsstring * jsstring) :=
  (str "Content-Type", str "application/json") :: corsHeaders.

Definition error_reply (code : Z) (message : jsstring) : Reply :=
  {| reply_status := code;
     reply_body := Some (JObject [(str "error", JString message)]);
     reply_headers := json_headers |}.

(** The [catch]: [error.message || "Unknown error"], status 500. *)
Definition caught (message : jsstring) : Reply :=
  error_reply 500
    (if str_eqb message [] then str "Unknown error" else message).

Definition preflight : Reply :=
  {| reply_status := 200; reply_body := None; reply_headers := corsHeaders |}.

Definition DEFAULT_MODEL : json := JString (str "google/gemini-2.5-flash").

(** [data.choices?.[0]?.message?.content] *)
Definition message_content (data : json) : completion (option json) :=
  match member (str "choices") data with
  | Throw => Throw
  | Normal choices =>
      Normal (opt_member (str "content")
                (opt_member (str "message") (opt_index0 choices)))
  end.

(** [!v] for a value that may be [undefined]. *)
Definition falsy (v : option json) : bool :=
  match v with
  | Some x => negb (truthy x)
  | None => true
  end.

Section Handlers.

(** [JSON.stringify] as a text, and the message of the TypeError that
    reading the property [name] of [null] throws. *)
Variable JSON_stringify : json -> jsstring.
Variable TypeError_message : forall name : jsstring, jsstring.

Definition system_message : json :=
  JObject
    [(str "role", JString (str "system"));
     (str "content",
      JString (str "You are a professional AI assistant. Provide accurate and helpful responses based on user needs."))].

(** The body of the call to the gateway. *)
Definition completion_request (requestData input : json) : json :=
  let options := opt_member (str "options") (Some requestData) in
  JObject
    [(str "model", or_else (opt_member (str "model") options) DEFAULT_MODEL);
     (str "messages",
      JArray
        [system_message;
         JObject
           [(str "role", JString (str "user"));
            (str "content",
             match input with
             | JString s => JString s
             | v => JString (JSON_stringify v)
             end)]]);
     (str "temperature",
      or_else (opt_member (str "temperature") options) (JNumber 7 (-1)));
     (str "max_tokens",
      or_else (opt_member (str "maxTokens") options) (JNumber 1000 0))].

(** [handler] of the AI endpoint: the reply, and the call made to the
    gateway if one was made. *)
Definition handler (req : Request) (AI_API_KEY : option jsstring)
  (fetch : Call -> promise Upstream) : Reply * option Call :=
  if str_eqb (method req) (str "OPTIONS") then (preflight, None)
  else
    match json_of req with
    | Rejects m => (caught m, None)
    | Resolves requestData =>
        match member (str "input") requestData with
        | Throw => (caught (TypeError_message (str "input")), None)
        | Normal input =>
            match input with
            | None =>
                (error_reply 400 (str "Missing required input parameter"),
                 None)
            | Some i =>
                if negb (truthy i) then
                  (error_reply 400 (str "Missing required input parameter"),
                   None)
                else
                  match AI_API_KEY with
                  | None => (caught (str "AI service not configured"), None)
                  | Some key =>
                      if str_eqb key [] then
                        (caught (str "AI service not configured"), None)
                      else
                        let call :=
                          {| authorization := str "Bearer " ++ key;
                             call_body := completion_request requestData i |} in
                        let model :=
                          or_else
                            (opt_member (str "model")
                               (opt_member (str "options") (Some requestData)))
                            DEFAULT_MODEL in
                        (match fetch call with
                         | Rejects m => caught m
                         | Resolves response =>
                             if negb (up_ok response) then
                               match up_text response with
                               | Rejects m => caught m
                               | Resolves errorText =>
                                   if up_status response =? 429 then
                                     error_reply 429
                                       (str "Request rate too high, please try again later")
                                   else if up_status response =? 402 then
                                     error_reply 402
                                       (str "AI service quota exhausted")
                                   else
                                     caught
                                       (str "AI processing failed: "
                                        ++ errorText)
                               end
                             else
                               match up_json response with
                               | Rejects m => caught m
                               | Resolves data =>
                                   match message_content data with
                                   | Throw =>
                                       caught (TypeError_message (str "choices"))
                                   | Normal content =>
                                       match content with
                                       | None =>
                                           caught (str "No AI response generated")
                                       | Some c =>
                                           if negb (truthy c) then
                                             caught
                                               (str "No AI response generated")
                                           else
                                             {| reply_status := 200;
                                                reply_body :=
                                                  Some
                                                    (JObject
                                                       [(str "success", JBool true);
                                                        (str "result", c);
                                                        (str "model", model)]);
                                                reply_headers := json_headers |}
                                       end
                                   end
                               end
                         end,
                         Some call)
                  end
            end
        end
    end.

(** *** The image analysis function *)

Context {platform : Platform}.

(** The two searches of [String.prototype.match]: the first fenced
    block, as the whole match and its group, and the text from the first
    brace to the last. *)
Variable match_fence : jsstring -> option (jsstring * jsstring).
Variable match_braces : jsstring -> option jsstring.

(** [{ analysis }], as [JSON.stringify] writes it: a field that is
    [undefined] is left out. *)
Definition wrapped (analysis : option json) : json :=
  JObject
    match analysis with
    | Some v => [(str "analysis", v)]
    | None => []
    end.

(** The [try] that looks for JSON in the answer: [structuredResult],
    [None] when it stays [undefined]. *)
Definition structured (analysis : option json) : option json :=
  match analysis with
  | Some (JString text) =>
      let jsonMatch :=
        match match_fence text with
        | Some (whole, group) => Some (whole, Some group)
        | None =>
            match match_braces text with
            | Some whole => Some (whole, None)
            | None => None
            end
        end in
      match jsonMatch with
      | None => None
      | Some (whole, group) =>
          let jsonStr :=
            match group with
            | Some g => if str_eqb g [] then whole else g
            | None => whole
            end in
          match JSON_parse jsonStr with
          | Some parsed => Some parsed
          | None => Some (wrapped analysis)
          end
      end
  | _ => Some (wrapped analysis)
  end.

(** [structuredResult || analysis], [None] when both are [undefined]. *)
Definition analysis_result (analysis : option json) : option json :=
  match structured analysis with
  | Some v => if truthy v then Some v else analysis
  | None => analysis
  end.

Definition vision_system_message : json :=
  JObject
    [(str "role", JString (str "system"));
     (str "content",
      JString (str "You are a professional image analysis expert. Please analyze image content in detail and provide accurate descriptions."))].

Definition vision_request (image : json) (prompt : option json) : json :=
  JObject
    [(str "model", DEFAULT_MODEL);
     (str "messages",
      JArray
        [vision_system_message;
         JObject
           [(str "role", JString (str "user"));
            (str "content",
             JArray
               [JObject
                  [(str "type", JString (str "text"));
                   (str "text",
                    or_else prompt
                      (JString (str "Please analyze the content of this image in detail")))];
                JObject
                  [(str "type", JString (str "image_url"));
                   (str "image_url", JObject [(str "url", image)])]])]])].

(** [handler] of the image analysis function. *)
Definition image_handler (req : Request) (AI_API_KEY : option jsstring)
  (fetch : Call -> promise Upstream) : Reply * option Call :=
  if str_eqb (method req) (str "OPTIONS") then (preflight, None)
  else
    match json_of req with
    | Rejects m => (caught m, None)
    | Resolves requestData =>
        match member (str "image") requestData with
        | Throw => (caught (TypeError_message (str "image")), None)
        | Normal image =>
            match image with
            | None => (error_reply 400 (str "No image provided"), None)
            | Some img =>
                if negb (truthy img) then
                  (error_reply 400 (str "No image provided"), None)
                else
                  match AI_API_KEY with
                  | None => (caught (str "AI service not configured"), None)
                  | Some key =>
                      if str_eqb key [] then
                        (caught (str "AI service not configured"), None)
                      else
                        let call :=
                          {| authorization := str "Bearer " ++ key;
                             call_body :=
                               vision_request img
                                 (opt_member (str "prompt")
                                    (Some requestData)) |} in
                        (match fetch call with
                         | Rejects m => caught m
                         | Resolves response =>
                             if negb (up_ok response) then
                               match up_text response with
                               | Rejects m => caught m
                               | Resolves errorText =>
                                   caught
                                     (str "Image analysis failed: "
                                      ++ errorText)
                               end
                             else
                               match up_json response with
                               | Rejects m => caught m
                               | Resolves data =>
                                   match message_content data with
                                   | Throw =>
                                       caught (TypeError_message (str "choices"))
                                   | Normal analysis =>
                                       {| reply_status := 200;
                                          reply_body :=
                                            Some
                                              (JObject
                                                 ((str "success", JBool true)
                                                  :: match analysis_result analysis with
                                                     | Some v => [(str "result", v)]
                                                     | None => []
                                                     end
                                                  ++ [(str "model", DEFAULT_MODEL)]));
                                          reply_headers := json_headers |}
                                   end
                               end
                         end,
                         Some call)
                  end
            end
        end
    end.

End Handlers.

End Endpoint.

(** ** handleAIError *)

Module ErrorReport.

Definition errorMap : list (Z * jsstring) :=
  [(400, str "Invalid request parameters");
   (401, str "API key invalid or expired");
   (402, str "Insufficient account balance or quota exhausted");
   (403, str "No permission to access this API");
   (404, str "API endpoint does not exist");
   (429, str "Too many requests, please try again later");
   (500, str "AI service internal error");
   (503, str "AI service temporarily unavailable")].

(** [errorMap[statusCode]] for an integer status. *)
Fixpoint lookup (table : list (Z * jsstring)) (statusCode : Z)
  : option jsstring :=
  match table with
  | [] => None
  | (k, v) :: rest => if k =? statusCode then Some v else lookup rest statusCode
  end.

Record report : Type := {
  error : jsstring;
  statusCode : Z;
  originalError : option json;
  timestamp : jsstring
}.

(** [handleAIError(error, statusCode)]; [now] is what
    [new Date().toISOString()] gives. *)
Definition handleAIError (thrown : option json) (code : Z) (now : jsstring)
  : report :=
  {| error :=
       match lookup errorMap code with
       | Some text => if str_eqb text [] then str "Unknown error" else text
       | None => str "Unknown error"
       end;
     statusCode := code;
     originalError := opt_member (str "message") thrown;
     timestamp := now |}.

End ErrorReport.

(** ** ImageAnalyzer: a caller of an edge function *)

Module Analyzer.

(** A value that was thrown: whether it is an [Error], and its
    [message]. *)
Record thrown : Type := {
  instanceof_Error : bool;
  message : json
}.

(** What [supabase.functions.invoke] resolves to, or what it rejects
    with. *)
Record invoked : Type := {
  data : option json;
  error : option thrown
}.

Inductive toast : Type :=
| toast_success (text : json)
| toast_error (text : json).

Record state : Type := {
  isAnalyzing : bool;
  analysis : option json;   (** [None] while [undefined] *)
  toasts : list toast
}.

Section Handler.

(** The message of [new Error(v)], and the TypeError of reading
    [analysis] from a [data] that is [null] or [undefined]. *)
Variable Error_message : json -> json.
Variable TypeError_message : json.

Definition failed (st : state) (text : json) : state :=
  {| isAnalyzing := false; analysis := analysis st;
     toasts := toasts st ++ [toast_error text] |}.

Definition report (t : thrown) : json :=
  if instanceof_Error t then message t
  else JString (str "Analysis failed").

(** [data?.error] when it is truthy. *)
Definition business_error (data : option json) : option json :=
  match opt_member (str "error") data with
  | Some e => if truthy e then Some e else None
  | None => None
  end.

(** [handleAnalyze(imageData)] on the outcome of the invocation: what
    [invoke] resolved to, or what it rejected with. *)
Definition handleAnalyze (st : state) (outcome : invoked + thrown) : state :=
  match outcome with
  | inr t => failed st (report t)
  | inl r =>
      match error r with
      | Some t => failed st (report t)
      | None =>
          match business_error (data r) with
          | Some e => failed st (Error_message e)
          | None =>
              match data r with
              | Some d =>
                  match member (str "analysis") d with
                  | Normal a =>
                      {| isAnalyzing := false; analysis := a;
                         toasts :=
                           toasts st
                           ++ [toast_success
                                 (JString (str "Analysis completed"))] |}
                  | Throw => failed st TypeError_message
                  end
              | None => failed st TypeError_message
              end
          end
      end
  end.

End Handler.

End Analyzer.

(** * Properties *)

(** ** Strings *)

Lemma str_eqb_spec (a b : jsstring) : reflect (a = b) (str_eqb a b).
Proof.
  unfold str_eqb. destruct (list_eq_dec Z.eq_dec a b); constructor; assumption.
Qed.

Lemma str_eqb_refl (a : jsstring) : str_eqb a a = true.
Proof. destruct (str_eqb_spec a a); congruence. Qed.

Lemma indexOf_from_absent (c : Z) (s : jsstring) (i : Z) :
  ~ In c s -> indexOf_from c s i = -1.
Proof.
  revert i; induction s as [|x t IH]; intros i H; [reflexivity|].
  cbn [indexOf_from]. destruct (Z.eqb_spec x c) as [->|N].
  - exfalso; apply H; now left.
  - apply IH. intro; apply H; now right.
Qed.

Lemma indexOf_from_first (c : Z) (l r : jsstring) (i : Z) :
  ~ In c l -> indexOf_from c (l ++ c :: r) i = i + Z.of_nat (length l).
Proof.
  revert i; induction l as [|x t IH]; intros i H.
  - cbn. rewrite Z.eqb_refl. lia.
  - cbn [app indexOf_from length]. destruct (Z.eqb_spec x c) as [->|N].
    + exfalso; apply H; now left.
    + rewrite IH; [lia|]. intro; apply H; now right.
Qed.

Lemma indexOf_absent (c : Z) (s : jsstring) : ~ In c s -> indexOf c s = -1.
Proof. apply indexOf_from_absent. Qed.

Lemma indexOf_first (c : Z) (l r : jsstring) :
  ~ In c l -> indexOf c (l ++ c :: r) = Z.of_nat (length l).
Proof. intro H. unfold indexOf. rewrite indexOf_from_first by assumption. lia. Qed.

(** A text either has no [c], or splits at its first [c]. *)
Lemma first_occurrence (c : Z) (s : jsstring) :
  ~ In c s \/ exists l r, s = l ++ c :: r /\ ~ In c l.
Proof.
  induction s as [|x t IH]; [left; intros []|].
  destruct (Z.eq_dec x c) as [->|N].
  - right. exists [], t. split; [reflexivity|intros []].
  - destruct IH as [H|(l & r & -> & H)].
    + left. intros [E|E]; [congruence|auto].
    + right. exists (x :: l), r. split; [reflexivity|].
      intros [E|E]; [congruence|auto].
Qed.

Lemma slice_prefix (l r : jsstring) :
  slice (l ++ r) 0 (Z.of_nat (length l)) = l.
Proof.
  unfold slice, str_length, rel_index. rewrite length_app.
  destruct (0 <? 0) eqn:E0; [lia|].
  destruct (Z.of_nat (length l) <? 0) eqn:E1; [lia|].
  replace (Z.to_nat (Z.min 0 _)) with 0%nat by lia. cbn [skipn].
  replace (Z.to_nat _) with (length l) by lia.
  rewrite firstn_app, firstn_all, Nat.sub_diag. cbn. apply app_nil_r.
Qed.

Lemma slice_from_suffix (l r : jsstring) (k : Z) :
  k = Z.of_nat (length l) -> slice_from (l ++ r) k = r.
Proof.
  intros ->. unfold slice_from, slice, str_length, rel_index.
  rewrite length_app.
  destruct (Z.of_nat (length l) <? 0) eqn:E1; [lia|].
  destruct (Z.of_nat (length l + length r) <? 0) eqn:E2; [lia|].
  replace (Z.to_nat (Z.min (Z.of_nat (length l)) _)) with (length l) by lia.
  rewrite skipn_app, skipn_all, Nat.sub_diag. cbn [skipn app].
  apply firstn_all2. lia.
Qed.

Lemma slice_drop_last (l : jsstring) (c : Z) :
  slice (l ++ [c]) 0 (-1) = l.
Proof.
  unfold slice, str_length, rel_index. rewrite length_app. cbn [length].
  destruct (0 <? 0) eqn:E0; [lia|].
  destruct (-1 <? 0) eqn:E1; [|lia].
  replace (Z.to_nat (Z.min 0 _)) with 0%nat by lia. cbn [skipn].
  replace (Z.to_nat _) with (length l) by lia.
  rewrite firstn_app, firstn_all, Nat.sub_diag. cbn. apply app_nil_r.
Qed.

Lemma startsWith_app (p r : jsstring) : startsWith p (p ++ r) = true.
Proof. induction p as [|a p IH]; cbn; [reflexivity|]. now rewrite Z.eqb_refl. Qed.

Lemma startsWith_inv (p s : jsstring) :
  startsWith p s = true -> exists r, s = p ++ r.
Proof.
  revert s; induction p as [|a p IH]; intros s H; [now exists s|].
  destruct s as [|b s]; [discriminate|]. cbn in H.
  apply andb_true_iff in H as [E H]. apply Z.eqb_eq in E as ->.
  destruct (IH _ H) as [r ->]. now exists r.
Qed.

Lemma endsWith_app (q : jsstring) (c : Z) : endsWith [c] (q ++ [c]) = true.
Proof. unfold endsWith. rewrite rev_app_distr. cbn. now rewrite Z.eqb_refl. Qed.

Lemma endsWith_inv (s : jsstring) (c : Z) :
  endsWith [c] s = true -> exists q, s = q ++ [c].
Proof.
  unfold endsWith. cbn [rev app]. intro H.
  destruct (rev s) as [|x t] eqn:E; [discriminate|].
  cbn in H. rewrite andb_true_r in H. apply Z.eqb_eq in H as <-.
  exists (rev t). rewrite <- (rev_involutive s), E. reflexivity.
Qed.

(** [trim] leaves nothing exactly when every unit is white space. *)
Lemma trimStart_nil (s : jsstring) :
  trimStart s = [] <-> forallb is_ws s = true.
Proof.
  induction s as [|c t IH]; cbn; [tauto|].
  destruct (is_ws c); cbn; [exact IH|]. split; discriminate.
Qed.

Lemma trimStart_suffix (s : jsstring) :
  exists w, s = w ++ trimStart s /\ forallb is_ws w = true.
Proof.
  induction s as [|c t (w & E & H)]; [now exists []|].
  cbn. destruct (is_ws c) eqn:C.
  - exists (c :: w). cbn. rewrite C, H. split; [congruence|reflexivity].
  - now exists [].
Qed.

Lemma forallb_rev (f : Z -> bool) (s : jsstring) :
  forallb f (rev s) = forallb f s.
Proof.
  induction s as [|c t IH]; [reflexivity|].
  cbn. rewrite forallb_app, IH. cbn. rewrite andb_true_r. apply andb_comm.
Qed.

Lemma trim_nil (s : jsstring) : trim s = [] <-> forallb is_ws s = true.
Proof.
  unfold trim, trimEnd. split.
  - intro H. apply (f_equal (@rev Z)) in H. rewrite rev_involutive in H.
    cbn in H. apply trimStart_nil in H. rewrite forallb_rev in H.
    destruct (trimStart_suffix s) as (w & E & W).
    rewrite E, forallb_app, W, H. reflexivity.
  - intro H. apply trimStart_nil in H. rewrite H. reflexivity.
Qed.

Lemma trimStart_app_keep (s r : jsstring) :
  forallb is_ws s = false -> trimStart (s ++ r) = trimStart s ++ r.
Proof.
  induction s as [|c t IH]; [discriminate|].
  cbn. destruct (is_ws c); cbn; [exact IH|reflexivity].
Qed.

Lemma trim_app_ws (s : jsstring) (c : Z) :
  is_ws c = true -> trim (s ++ [c]) = trim s.
Proof.
  intro C. destruct (forallb is_ws s) eqn:W.
  - assert (E : trim s = []) by now apply trim_nil.
    rewrite E. apply trim_nil. rewrite forallb_app, W. cbn. now rewrite C.
  - unfold trim, trimEnd. rewrite trimStart_app_keep by assumption.
    rewrite rev_app_distr. cbn. now rewrite C.
Qed.

Lemma split_absent (c : Z) (s : jsstring) : ~ In c s -> split c s = [s].
Proof.
  induction s as [|x t IH]; intro H; [reflexivity|].
  cbn [split]. destruct (Z.eqb_spec x c) as [->|N].
  - exfalso; apply H; now left.
  - rewrite IH; [reflexivity|]. intro; apply H; now right.
Qed.

Lemma split_first (c : Z) (l r : jsstring) :
  ~ In c l -> split c (l ++ c :: r) = l :: split c r.
Proof.
  induction l as [|x t IH]; intro H.
  - cbn. now rewrite Z.eqb_refl.
  - cbn [app split]. destruct (Z.eqb_spec x c) as [->|N].
    + exfalso; apply H; now left.
    + rewrite IH; [reflexivity|]. intro; apply H; now right.
Qed.

Lemma split_pieces (c : Z) (s p : jsstring) (x : Z) :
  In p (split c s) -> In x p -> In x s.
Proof.
  revert p; induction s as [|y t IH]; intros p Hp Hx.
  - cbn in Hp. destruct Hp as [<-|[]]. exact Hx.
  - cbn [split] in Hp. destruct (y =? c).
    + destruct Hp as [<-|Hp]; [destruct Hx|]. right. eapply IH; eassumption.
    + destruct (split c t) as [|q qs] eqn:E.
      * destruct Hp as [<-|[]]. destruct Hx as [->|[]]. now left.
      * destruct Hp as [<-|Hp].
        -- destruct Hx as [->|Hx]; [now left|]. right. apply (IH q); [now left|exact Hx].
        -- right. apply (IH p); [now right|exact Hx].
Qed.

(** ** The body as an object *)

Lemma read_queue (b : stream_state) : queue (snd (read b)) = tl (queue b).
Proof.
  unfold read. destruct (queue b) as [|value rest] eqn:E; [exact E|reflexivity].
Qed.

Lemma read_locked (b : stream_state) : locked (snd (read b)) = locked b.
Proof. unfold read. now destruct (queue b). Qed.

Lemma read_source_end (b : stream_state) :
  source_end (snd (read b)) = source_end b.
Proof. unfold read. now destruct (queue b). Qed.

Lemma skipn_tl {A : Type} (n : nat) :
  forall l : list A, skipn (S n) l = tl (skipn n l).
Proof.
  induction n as [|n IH]; intros [|x l]; try reflexivity.
  change (skipn (S n) l = tl (skipn n l)). apply IH.
Qed.

(** Reading takes chunks from the head of the queue and nothing else:
    the lock stays as it is. *)
Lemma after_reads_queue (n : nat) (b : stream_state) :
  queue (after_reads n b) = skipn n (queue b).
Proof.
  induction n as [|n IH]; [reflexivity|].
  change (queue (snd (read (after_reads n b))) = skipn (S n) (queue b)).
  now rewrite read_queue, IH, skipn_tl.
Qed.

Lemma after_reads_locked (n : nat) (b : stream_state) :
  locked (after_reads n b) = locked b.
Proof.
  induction n as [|n IH]; [reflexivity|].
  change (locked (snd (read (after_reads n b))) = locked b).
  now rewrite read_locked.
Qed.

Lemma after_reads_source_end (n : nat) (b : stream_state) :
  source_end (after_reads n b) = source_end b.
Proof.
  induction n as [|n IH]; [reflexivity|].
  change (source_end (snd (read (after_reads n b))) = source_end b).
  now rewrite read_source_end.
Qed.

(** A locked stream gives no second reader. *)
Lemma getReader_locked (b : stream_state) :
  locked b = true -> getReader b = Throw.
Proof. intro L. unfold getReader. now rewrite L. Qed.

(** What [resp.json()] leaves: an empty queue under lock. *)
Lemma consumed_state (s : ReadableStream) :
  consumed s = after_reads (length (chunks s)) (lock_of s)
  /\ queue (consumed s) = []
  /\ locked (consumed s) = true
  /\ getReader (consumed s) = Throw.
Proof.
  assert (E : consumed s = after_reads (length (chunks s)) (lock_of s))
    by reflexivity.
  rewrite E. split; [reflexivity|].
  assert (L : locked (after_reads (length (chunks s)) (lock_of s)) = true)
    by now rewrite after_reads_locked.
  split; [|split; [exact L|now apply getReader_locked]].
  rewrite after_reads_queue. apply skipn_all.
Qed.

(** ** The inner loop *)

Section Decoder.

Context {platform : Platform}.

Lemma scan_clause_eq (buffer : jsstring) (newlineIndex : Z)
  (test : {b : bool | (newlineIndex =? -1) = b})
  (e : indexOf NL buffer = newlineIndex) :
  scan_unfold_clause_1_clause_1 buffer newlineIndex test e =
  if proj1_sig test then (buffer, [], false)
  else
    match live_line (slice buffer 0 newlineIndex) with
    | Continue delta =>
        let '(rest, out, done) := scan (slice_from buffer (newlineIndex + 1)) in
        (rest, emit delta ++ out, done)
    | BreakDone => (slice_from buffer (newlineIndex + 1), [], true)
    | BreakPushback line =>
        (line ++ NL :: slice_from buffer (newlineIndex + 1), [], false)
    end.
Proof.
  destruct test as [[] t]; cbn; [reflexivity|].
  unfold scan_unfold_clause_1_clause_1_clause_2.
  destruct (live_line _); reflexivity.
Qed.

(** The loop, unrolled once. *)
Lemma scan_eq (buffer : jsstring) :
  scan buffer =
  let newlineIndex := indexOf NL buffer in
  if newlineIndex =? -1 then (buffer, [], false)
  else
    match live_line (slice buffer 0 newlineIndex) with
    | Continue delta =>
        let '(rest, out, done) := scan (slice_from buffer (newlineIndex + 1)) in
        (rest, emit delta ++ out, done)
    | BreakDone => (slice_from buffer (newlineIndex + 1), [], true)
    | BreakPushback line =>
        (line ++ NL :: slice_from buffer (newlineIndex + 1), [], false)
    end.
Proof.
  rewrite scan_equation_1. unfold scan_unfold_clause_1, inspect.
  rewrite scan_clause_eq. reflexivity.
Qed.

Lemma scan_absent (buffer : jsstring) :
  ~ In NL buffer -> scan buffer = (buffer, [], false).
Proof.
  intro H. rewrite scan_eq. cbv zeta. now rewrite indexOf_absent.
Qed.

Lemma scan_line (l r : jsstring) :
  ~ In NL l ->
  scan (l ++ NL :: r) =
  match live_line l with
  | Continue delta =>
      let '(rest, out, done) := scan r in (rest, emit delta ++ out, done)
  | BreakDone => (r, [], true)
  | BreakPushback line => (line ++ NL :: r, [], false)
  end.
Proof.
  intro H. rewrite scan_eq. cbv zeta. rewrite indexOf_first by assumption.
  destruct (Z.of_nat (length l) =? -1) eqn:E; [lia|].
  rewrite slice_prefix.
  replace (l ++ NL :: r) with ((l ++ [NL]) ++ r) by now rewrite <- app_assoc.
  rewrite slice_from_suffix by (rewrite length_app; cbn; lia).
  reflexivity.
Qed.

(** Induction on a text line by line. *)
Lemma lines_ind (P : jsstring -> Prop) :
  (forall s, ~ In NL s -> P s) ->
  (forall l r, ~ In NL l -> P r -> P (l ++ NL :: r)) ->
  forall s, P s.
Proof.
  intros Hlast Hline s.
  remember (length s) as n eqn:Hn. revert s Hn.
  induction n as [n IH] using lt_wf_ind. intros s ->.
  destruct (first_occurrence NL s) as [H|(l & r & -> & H)]; [now apply Hlast|].
  apply Hline; [assumption|]. apply (IH (length r)); [|reflexivity].
  rewrite length_app. cbn. lia.
Qed.

(** ** One line *)

Lemma live_line_classify (l : jsstring) : live_line l = classify (chomp l).
Proof. reflexivity. Qed.

Lemma chomp_cr (q : jsstring) : chomp (q ++ [CR]) = q.
Proof.
  unfold chomp.
  rewrite endsWith_app. apply slice_drop_last.
Qed.

Lemma chomp_cases (l : jsstring) :
  (exists q, l = q ++ [CR] /\ chomp l = q) \/
  (endsWith [CR] l = false /\ chomp l = l).
Proof.
  unfold chomp.
  destruct (endsWith [CR] l) eqn:E; [left|right; split; reflexivity].
  destruct (endsWith_inv _ _ E) as [q ->]. exists q.
  split; [reflexivity|apply slice_drop_last].
Qed.

Lemma chomp_no_nl (l : jsstring) : ~ In NL l -> ~ In NL (chomp l).
Proof.
  intros H. destruct (chomp_cases l) as [(q & -> & ->)|[_ ->]]; [|exact H].
  intro I. apply H. apply in_or_app. now left.
Qed.

(** The flush treats a line as the live loop does, except that nothing
    stops it and nothing is pushed back. *)
Lemma flush_line_live (l : jsstring) :
  flush_line l =
  match live_line l with
  | Continue delta => emit delta
  | BreakDone => []
  | BreakPushback _ => []
  end.
Proof.
  unfold flush_line. destruct (str_eqb_spec l []) as [->|N]; [reflexivity|].
  rewrite live_line_classify. unfold classify. cbv zeta.
  destruct (startsWith (str ":") (chomp l) || str_eqb (trim (chomp l)) []);
    [reflexivity|].
  destruct (negb (startsWith DATA (chomp l))); [reflexivity|].
  destruct (str_eqb (trim (slice_from (chomp l) 6)) DONE); [reflexivity|].
  destruct (JSON_parse _) as [parsed|]; [|reflexivity].
  destruct (delta_content parsed) as [[c|]|]; try reflexivity.
  cbn. destruct (truthy c); reflexivity.
Qed.

(** A line is pushed back as it was cut, less one carriage return. *)
Lemma classify_pushback (line p : jsstring) :
  classify line = BreakPushback p -> p = line.
Proof.
  unfold classify. cbv zeta.
  destruct (_ || _); [discriminate|].
  destruct (negb _); [discriminate|].
  destruct (str_eqb _ DONE); [discriminate|].
  destruct (JSON_parse _) as [parsed|]; [|congruence].
  destruct (delta_content parsed); [discriminate|congruence].
Qed.

Lemma data_prefix_chomp (r q : jsstring) :
  DATA ++ r = q ++ [CR] -> exists r', r = r' ++ [CR] /\ q = DATA ++ r'.
Proof.
  intro E. destruct (exists_last (l := r)) as (r' & c & ->).
  - intros ->. rewrite app_nil_r in E.
    change DATA with ([100; 97; 116; 97; 58] ++ [32]) in E.
    apply app_inj_tail in E as [_ E]. discriminate.
  - rewrite app_assoc in E. apply app_inj_tail in E as [E ->].
    exists r'. split; [reflexivity|now symmetry].
Qed.

Lemma classify_data (r : jsstring) :
  classify (DATA ++ r) =
  let jsonStr := trim r in
  if str_eqb jsonStr DONE then BreakDone
  else
    match JSON_parse jsonStr with
    | None => BreakPushback (DATA ++ r)
    | Some parsed =>
        match delta_content parsed with
        | Throw => BreakPushback (DATA ++ r)
        | Normal content =>
            Continue (match content with
                      | Some c => if truthy c then Some c else None
                      | None => None
                      end)
        end
    end.
Proof.
  unfold classify. cbv zeta.
  assert (T : str_eqb (trim (DATA ++ r)) [] = false).
  { destruct (str_eqb_spec (trim (DATA ++ r)) []) as [E|]; [|reflexivity].
    apply trim_nil in E. discriminate. }
  rewrite T. change (startsWith (str ":") (DATA ++ r)) with false.
  rewrite startsWith_app. cbn [orb negb].
  rewrite slice_from_suffix by reflexivity. reflexivity.
Qed.

(** Scanned again, a line that was pushed back is pushed back again. *)
Lemma pushback_again (l p : jsstring) :
  live_line l = BreakPushback p ->
  p = chomp l /\ live_line p = BreakPushback (chomp p).
Proof.
  rewrite live_line_classify. intro H.
  pose proof (classify_pushback _ _ H) as ->. split; [reflexivity|].
  rewrite live_line_classify.
  destruct (chomp_cases (chomp l)) as [(q & E & ->)|[_ ->]]; [|exact H].
  rewrite E in H.
  assert (S : startsWith DATA (q ++ [CR]) = true).
  { destruct (startsWith DATA (q ++ [CR])) eqn:S; [reflexivity|].
    unfold classify in H. cbv zeta in H. rewrite S in H.
    destruct (_ || _); discriminate. }
  destruct (startsWith_inv _ _ S) as [r Er].
  symmetry in Er. destruct (data_prefix_chomp _ _ Er) as (r' & -> & ->).
  revert H. rewrite <- Er. rewrite !classify_data. cbv zeta.
  rewrite trim_app_ws by reflexivity.
  destruct (str_eqb (trim r') DONE); [discriminate|].
  destruct (JSON_parse (trim r')) as [parsed|]; [|reflexivity].
  destruct (delta_content parsed); [discriminate|reflexivity].
Qed.

(** ** The flush *)

Lemma flush_all_absent (s : jsstring) :
  ~ In NL s -> flush_all s = flush_line s.
Proof.
  intro H. unfold flush_all. rewrite split_absent by assumption.
  cbn. apply app_nil_r.
Qed.

Lemma flush_all_line (l r : jsstring) :
  ~ In NL l -> flush_all (l ++ NL :: r) = flush_line l ++ flush_all r.
Proof.
  intro H. unfold flush_all. now rewrite split_first.
Qed.

Lemma flush_line_blank (l : jsstring) :
  forallb is_ws l = true -> flush_line l = [].
Proof.
  intro W. unfold flush_line. destruct (str_eqb l []); [reflexivity|].
  assert (T : trim (chomp l) = []).
  { apply trim_nil. destruct (chomp_cases l) as [(q & E & ->)|[_ ->]].
    - rewrite E, forallb_app in W. now apply andb_true_iff in W as [W _].
    - exact W. }
  rewrite T, str_eqb_refl, orb_true_r. reflexivity.
Qed.

(** The test that guards the flush changes nothing: a buffer of white
    space has only blank lines. *)
Lemma final_flush_all (buffer : jsstring) :
  final_flush buffer = flush_all buffer.
Proof.
  unfold final_flush, flush_all.
  destruct (str_eqb_spec (trim buffer) []) as [E|N]; [|reflexivity].
  cbn [negb]. symmetry. apply trim_nil in E.
  rewrite forallb_forall in E.
  assert (A : forall q, In q (split NL buffer) -> flush_line q = []).
  { intros q Hq. apply flush_line_blank. apply forallb_forall.
    intros x Hx. apply E. eapply split_pieces; eassumption. }
  revert A. generalize (split NL buffer) as qs.
  induction qs as [|q qs IH]; intros A; [reflexivity|].
  cbn. rewrite (A q) by now left. cbn. apply IH.
  intros q' Hq'. apply A. now right.
Qed.

(** ** Scanning a buffer that grows *)

(** Once the sentinel is met the rest of the buffer is left alone. *)
Lemma scan_done_app (x b t : jsstring) (out : list json) :
  scan x = (b, out, true) -> scan (x ++ t) = (b ++ t, out, true).
Proof.
  revert b out. induction x as [s H|l r H IH] using lines_ind; intros b out.
  - rewrite scan_absent by assumption. discriminate.
  - rewrite <- app_assoc. cbn [app]. rewrite !scan_line by assumption.
    destruct (live_line l) as [delta| |p].
    + destruct (scan r) as [[b1 o1] d1] eqn:E. intros [= <- <- ->].
      rewrite (IH _ _ eq_refl). reflexivity.
    + intros [= <- <-]. reflexivity.
    + discriminate.
Qed.

(** While the sentinel is not met, scanning what a scan left, with more
    text behind it, goes on as the scan of the whole would: the same
    deltas, the same verdict, the same buffer when the sentinel is met, and
    the same deltas at a flush. *)
Lemma scan_resume (x b t : jsstring) (out : list json) :
  scan x = (b, out, false) ->
  (exists bx, scan (x ++ t) =
              (bx, out ++ snd (fst (scan (b ++ t))), snd (scan (b ++ t))) /\
              (snd (scan (b ++ t)) = true -> bx = fst (fst (scan (b ++ t))))) /\
  flush_all (x ++ t) = out ++ flush_all (b ++ t).
Proof.
  revert b out. induction x as [s H|l r H IH] using lines_ind; intros b out.
  - rewrite scan_absent by assumption. intros [= <- <-]. split; [|reflexivity].
    exists (fst (fst (scan (s ++ t)))). cbn [app].
    destruct (scan (s ++ t)) as [[b1 o1] d1]. split; reflexivity.
  - rewrite <- app_assoc. cbn [app]. rewrite !scan_line by assumption.
    rewrite flush_all_line, flush_line_live by assumption.
    destruct (live_line l) as [delta| |p] eqn:L.
    + destruct (scan r) as [[b1 o1] d1] eqn:E. intros [= <- <- ->].
      destruct (IH _ _ eq_refl) as [(bx & Ex & Eb) Ef].
      rewrite Ex, Ef, <- !app_assoc. split; [|reflexivity].
      exists bx. split; [reflexivity|exact Eb].
    + discriminate.
    + intros [= <- <-]. rewrite <- app_assoc. cbn [app].
      destruct (pushback_again _ _ L) as [-> L'].
      rewrite scan_line by now apply chomp_no_nl.
      rewrite flush_all_line by now apply chomp_no_nl.
      rewrite flush_line_live, L'. cbn. split; [|reflexivity].
      eexists. split; [reflexivity|discriminate].
Qed.

(** What a scan leaves has nothing more to give until text arrives. *)
Lemma scan_settled (x b : jsstring) (out : list json) :
  scan x = (b, out, false) ->
  snd (fst (scan b)) = [] /\ snd (scan b) = false.
Proof.
  intro E. destruct (scan_resume _ _ [] _ E) as [(bx & Ex & _) _].
  rewrite !app_nil_r, E in Ex. injection Ex as _ Eo Ed.
  split; [|now symmetry].
  rewrite <- (app_nil_r out) in Eo at 1. now apply app_inv_head in Eo.
Qed.

(** ** The text decoder *)

Lemma decode_app (d : decoder_state) (a b : list byte) :
  decode d (a ++ b) =
  (fst (decode d a) ++ fst (decode (snd (decode d a)) b),
   snd (decode (snd (decode d a)) b)).
Proof.
  revert d; induction a as [|x a IH]; intros d.
  - cbn. now destruct (decode d b).
  - cbn [app decode]. destruct (decode_byte d x) as [t1 d1].
    rewrite IH. destruct (decode d1 a) as [t2 d2]. cbn.
    destruct (decode d2 b) as [t3 d3]. cbn. now rewrite app_assoc.
Qed.

Lemma text_of_cons (d : decoder_state) (c : list byte) (cs : list (list byte)) :
  text_of d (c :: cs) = fst (decode d c) ++ text_of (snd (decode d c)) cs.
Proof. unfold text_of. cbn [concat]. now rewrite decode_app. Qed.

Lemma text_of_nil (d : decoder_state) : text_of d [] = [].
Proof. reflexivity. Qed.

Lemma text_of_app (d : decoder_state) (a b : list (list byte)) :
  text_of d (a ++ b) = text_of d a ++ text_of (decoder_after d a) b.
Proof.
  unfold text_of, decoder_after. rewrite concat_app, decode_app. reflexivity.
Qed.

Lemma text_of_single (d : decoder_state) (c : list byte) :
  text_of d [c] = fst (decode d c).
Proof. unfold text_of. cbn. now rewrite app_nil_r. Qed.

Lemma text_of_concat (d : decoder_state) (cs : list (list byte)) :
  text_of d [concat cs] = text_of d cs.
Proof. unfold text_of. cbn. now rewrite app_nil_r. Qed.

(** ** The shape of the buffer *)

Lemma extracted_app (a b : jsstring) :
  extracted a -> extracted b -> extracted (a ++ b).
Proof.
  induction 1 as [|l r delta H L _ IH]; intro B; [exact B|].
  rewrite <- app_assoc. cbn [app]. econstructor; eauto.
Qed.

Lemma scan_shape (x : jsstring) :
  forall b out dn,
    scan x = (b, out, dn) ->
    if dn then sentinel_shape x b else pending_shape x b.
Proof.
  induction x as [s H|l r H IH] using lines_ind; intros b out dn.
  - rewrite scan_absent by assumption. intros [= <- <- <-].
    exists [], s. split; [reflexivity|split; [constructor|now left]].
  - rewrite scan_line by assumption.
    destruct (live_line l) as [delta| |p] eqn:L.
    + destruct (scan r) as [[b1 o1] d1] eqn:E. intros [= <- <- <-].
      specialize (IH _ _ _ eq_refl). destruct d1.
      * destruct IH as (pre & sl & -> & X & N & S).
        exists (l ++ NL :: pre), sl. rewrite <- app_assoc. cbn [app].
        split; [reflexivity|split; [|split; assumption]].
        econstructor; eassumption.
      * destruct IH as (pre & suf & -> & X & C).
        exists (l ++ NL :: pre), suf. rewrite <- app_assoc. cbn [app].
        split; [reflexivity|split; [|exact C]].
        econstructor; eassumption.
    + intros [= <- <- <-]. exists [], l.
      split; [reflexivity|split; [constructor|split; assumption]].
    + intros [= <- <- <-]. exists [], (l ++ NL :: r).
      split; [reflexivity|split; [constructor|right]].
      destruct (pushback_again _ _ L) as [-> L'].
      destruct (chomp_cases l) as [(q & -> & Eq)|[_ Eq]]; rewrite Eq in *.
      * exists q, 1%nat, r. cbn [repeat]. rewrite <- app_assoc.
        split; [reflexivity|split; [reflexivity|]].
        split; [|eexists; exact L'].
        intro I. apply H. apply in_or_app. now left.
      * exists l, 0%nat, r. cbn [repeat app].
        split; [reflexivity|split; [reflexivity|]].
        split; [assumption|eexists; exact L'].
Qed.

Lemma pending_shape_step (T b t : jsstring) :
  pending_shape T b ->
  forall b' out dn,
    scan (b ++ t) = (b', out, dn) ->
    if dn then sentinel_shape (T ++ t) b' else pending_shape (T ++ t) b'.
Proof.
  intros (pre & suf & -> & X & [[-> N]|(l & k & r & -> & -> & N & p & L)]).
  - intros b' out dn E. pose proof (scan_shape _ _ _ _ E) as S.
    rewrite <- app_assoc. destruct dn.
    + destruct S as (pre2 & sl & -> & X2 & S).
      exists (pre ++ pre2), sl. rewrite <- app_assoc.
      split; [reflexivity|split; [now apply extracted_app|exact S]].
    + destruct S as (pre2 & suf2 & -> & X2 & S).
      exists (pre ++ pre2), suf2. rewrite <- app_assoc.
      split; [reflexivity|split; [now apply extracted_app|exact S]].
  - intros b' out dn. rewrite <- app_assoc. cbn [app].
    rewrite scan_line, L by assumption. intros [= <- <- <-].
    exists pre, ((l ++ repeat CR k ++ NL :: r) ++ t).
    split; [now rewrite <- !app_assoc|split; [exact X|right]].
    destruct (pushback_again _ _ L) as [-> L'].
    destruct (chomp_cases l) as [(q & -> & Eq)|[_ Eq]]; rewrite Eq in *.
    + exists q, (S k), (r ++ t). rewrite <- !app_assoc. cbn [repeat app].
      split; [reflexivity|split; [reflexivity|]].
      split; [|eexists; exact L'].
      intro I. apply N. apply in_or_app. now left.
    + exists l, k, (r ++ t). rewrite <- !app_assoc. cbn [app].
      split; [reflexivity|split; [reflexivity|]].
      split; [assumption|eexists; exact L'].
Qed.

(** ** The read loop *)

Lemma tracks_scan (x b : jsstring) (out : list json) :
  scan x = (b, out, false) -> tracks x b out.
Proof. intros E t. now apply scan_resume. Qed.

Lemma tracks_start : tracks [] [] [].
Proof. apply tracks_scan. now apply scan_absent. Qed.

Lemma tracks_step (T buffer t1 b2 : jsstring) (out o2 : list json) :
  tracks T buffer out ->
  scan (buffer ++ t1) = (b2, o2, false) ->
  tracks (T ++ t1) b2 (out ++ o2).
Proof.
  intros Tr E t.
  destruct (Tr (t1 ++ t)) as [(bx & Ex & Eb) Ef].
  destruct (scan_resume _ _ t _ E) as [(by' & Ey & Ec) Eg].
  rewrite <- !app_assoc in *. rewrite Ey in Ex, Eb. cbn [fst snd] in Ex, Eb.
  rewrite Ex, Ef, Eg. split; [|reflexivity].
  exists bx. split; [reflexivity|].
  intro D. rewrite (Eb D). now apply Ec.
Qed.

Lemma tracks_done (T buffer t1 b2 : jsstring) (out o2 : list json) :
  tracks T buffer out ->
  scan (buffer ++ t1) = (b2, o2, true) ->
  scan (T ++ t1) = (b2, out ++ o2, true).
Proof.
  intros Tr E. destruct (Tr t1) as [(bx & Ex & Eb) _].
  rewrite E in Ex, Eb. cbn [fst snd] in Ex, Eb. now rewrite Ex, Eb.
Qed.

Lemma between_reads_start : between_reads [] initial_state.
Proof.
  unfold between_reads. cbn. rewrite scan_absent by (intros []).
  split; [reflexivity|split; [apply tracks_start|]].
  split; [reflexivity|split; [reflexivity|]].
  exists [], []. split; [reflexivity|split; [constructor|left]].
  split; [reflexivity|intros []].
Qed.

(** Between two reads the scan of all the text received has given the
    deltas handed out, and has not met the sentinel. *)
Lemma between_reads_scan (T : jsstring) (st : loop_state) :
  between_reads T st ->
  snd (fst (scan T)) = deltas st /\ snd (scan T) = false
  /\ flush_all T = deltas st ++ flush_all (textBuffer st).
Proof.
  intros (_ & Tr & So & Sd & _). destruct (Tr []) as [(bx & Ex & _) Ef].
  rewrite !app_nil_r in *. rewrite So, Sd, app_nil_r in Ex. rewrite Ex.
  repeat split. exact Ef.
Qed.

Lemma read_loop_done (st : loop_state) (cs : list (list byte)) (e : stream_end) :
  streamDone st = true -> read_loop st cs e = (st, Fallthrough).
Proof. intro D. destruct cs; cbn; now rewrite D. Qed.

(** The read loop either takes every chunk without meeting the sentinel,
    or stops at the first chunk whose text completes a sentinel line. *)
Lemma read_loop_spec (cs : list (list byte)) (e : stream_end) :
  forall (T : jsstring) (st : loop_state),
    between_reads T st ->
    let st' := fst (read_loop st cs e) in
    let exit := snd (read_loop st cs e) in
    (between_reads (T ++ text_of (decoder st) cs) st'
     /\ exit = exit_of e
     /\ reads st' = (reads st + length cs)%nat)
    \/
    (streamDone st' = true /\ exit = Fallthrough
     /\ exists cs1 c cs2,
         cs = cs1 ++ c :: cs2
         /\ scan (T ++ text_of (decoder st) (cs1 ++ [c]))
            = (textBuffer st', deltas st', true)
         /\ sentinel_shape (T ++ text_of (decoder st) (cs1 ++ [c]))
              (textBuffer st')
         /\ reads st' = (reads st + length cs1 + 1)%nat).
Proof.
  induction cs as [|c cs IH]; intros T st B;
    pose proof B as (D & Tr & So & Sd & Sh).
  - left. cbn [read_loop]. rewrite D. rewrite text_of_nil, app_nil_r.
    destruct e; cbn [fst snd exit_of length];
      (split; [exact B|split; [reflexivity|lia]]).
  - cbn zeta. cbn [read_loop]. rewrite D.
    destruct (decode (decoder st) c) as [text d1] eqn:Ed.
    destruct (scan (textBuffer st ++ text)) as [[b2 o2] dn] eqn:Es.
    set (st1 := {| textBuffer := b2; streamDone := dn; decoder := d1;
                   deltas := deltas st ++ o2; reads := S (reads st) |}).
    assert (Eoc : on_chunk st c = st1).
    { unfold on_chunk. now rewrite Ed, Es. }
    rewrite Eoc.
    assert (Et : text_of (decoder st) (c :: cs) = text ++ text_of d1 cs).
    { rewrite text_of_cons, Ed. reflexivity. }
    pose proof (pending_shape_step _ _ text Sh _ _ _ Es) as Sh1.
    destruct dn.
    + right. rewrite read_loop_done by reflexivity. cbn [fst snd].
      split; [reflexivity|split; [reflexivity|]].
      exists [], c, cs. cbn [app length].
      rewrite text_of_single, Ed. cbn [fst].
      split; [reflexivity|].
      split; [eapply tracks_done; eassumption|].
      split; [exact Sh1|subst st1; cbn; lia].
    + assert (B1 : between_reads (T ++ text) st1).
      { destruct (scan_settled _ _ _ Es) as [S1 S2].
        split; [reflexivity|split; [|split; [|split]]]; try assumption.
        eapply tracks_step; eassumption. }
      destruct (IH _ _ B1)
        as [(B' & X & R)|(D' & X & cs1 & c' & cs2 & E & Sc & Ss & R)].
      * left. rewrite Et, app_assoc.
        split; [exact B'|split; [exact X|]].
        rewrite R. subst st1. cbn. lia.
      * right. split; [exact D'|split; [exact X|]].
        exists (c :: cs1), c', cs2. subst cs.
        split; [reflexivity|]. cbn [app]. rewrite text_of_cons, Ed.
        cbn [fst snd]. rewrite app_assoc.
        split; [exact Sc|split; [exact Ss|]].
        rewrite R. subst st1. cbn. lia.
Qed.

(** ** A session *)

(** A successful response with a body: the run is the read loop, then the
    flush and [onDone], or [onError] when a read threw. *)
Lemma streamChat_ok (resp : Response) (s : ReadableStream) :
  ok resp = true -> body resp = Some s ->
  streamChat (fetch_resolves resp) =
  let st := fst (read_loop initial_state (chunks s) (ending s)) in
  match snd (read_loop initial_state (chunks s) (ending s)) with
  | Rejected =>
      {| events := map onDelta (deltas st) ++ [onError NETWORK_FAILED];
         chunks_read := reads st;
         sentinel_seen := streamDone st;
         leftover := textBuffer st;
         flushed := false |}
  | Fallthrough =>
      {| events :=
           map onDelta (deltas st ++ final_flush (textBuffer st)) ++ [onDone];
         chunks_read := reads st;
         sentinel_seen := streamDone st;
         leftover := textBuffer st;
         flushed := true |}
  end.
Proof.
  intros O B. unfold streamChat, streamChat_on. rewrite O, B. cbn [negb].
  unfold getReader, opened. cbn [locked queue source_end].
  now destruct (read_loop initial_state (chunks s) (ending s)) as [st []].
Qed.

(** What such a run leaves of the body: the stream under lock, less the
    chunks the loop took. *)
Lemma body_left_ok (resp : Response) (s : ReadableStream) :
  ok resp = true -> body resp = Some s ->
  body_left (fetch_resolves resp)
  = Some (after_reads (chunks_read (streamChat (fetch_resolves resp)))
            (lock_of s)).
Proof.
  intros O B. unfold body_left, streamChat, streamChat_on.
  rewrite O, B. cbn [negb].
  unfold getReader, opened. cbn [locked queue source_end].
  fold (lock_of s).
  now destruct (read_loop initial_state (chunks s) (ending s)) as [st []].
Qed.

(** The two ways a session goes, from the text of all its chunks. *)
Lemma session (cs : list (list byte)) (e : stream_end) :
  let st := fst (read_loop initial_state cs e) in
  let exit := snd (read_loop initial_state cs e) in
  let T := text_of new_TextDecoder cs in
  (streamDone st = false /\ exit = exit_of e /\ reads st = length cs
   /\ snd (fst (scan T)) = deltas st /\ snd (scan T) = false
   /\ flush_all T = deltas st ++ flush_all (textBuffer st)
   /\ pending_shape T (textBuffer st))
  \/
  (streamDone st = true /\ exit = Fallthrough
   /\ exists cs1 c cs2,
       cs = cs1 ++ c :: cs2
       /\ scan (text_of new_TextDecoder (cs1 ++ [c]))
          = (textBuffer st, deltas st, true)
       /\ sentinel_shape (text_of new_TextDecoder (cs1 ++ [c])) (textBuffer st)
       /\ reads st = (length cs1 + 1)%nat).
Proof.
  destruct (read_loop_spec cs e [] initial_state between_reads_start)
    as [(B & X & R)|(D & X & cs1 & c & cs2 & E & Sc & Ss & R)].
  - left. cbn [app] in B. change (decoder initial_state) with new_TextDecoder in B.
    destruct (between_reads_scan _ _ B) as (S1 & S2 & S3).
    destruct B as (D & _ & _ & _ & Sh). auto 10.
  - right. split; [exact D|split; [exact X|]].
    exists cs1, c, cs2. auto.
Qed.

(** A trace of deltas closed by one terminal call. *)
Lemma terminal_calls_deltas (ds : list json) (last : event) :
  terminal_calls (map onDelta ds ++ [last]) = terminal_calls [last].
Proof. induction ds as [|d ds IH]; [reflexivity|exact IH]. Qed.

Lemma delta_texts_deltas (ds : list json) (last : event) :
  delta_texts (map onDelta ds ++ [last]) = ds ++ delta_texts [last].
Proof. induction ds as [|d ds IH]; [reflexivity|cbn; now rewrite IH]. Qed.

(** ** The terminal callbacks *)

Lemma streamChat_trace (f : fetch_outcome) :
  exists ds last,
    events (streamChat f) = map onDelta ds ++ [last]
    /\ (last = onDone \/ exists m, last = onError m).
Proof.
  destruct f as [|resp].
  - exists [], (onError NETWORK_FAILED). split; [reflexivity|right; eauto].
  - destruct (ok resp) eqn:O.
    + destruct (body resp) as [s|] eqn:B.
      * rewrite (streamChat_ok resp s O B). cbv zeta.
        destruct (snd (read_loop _ _ _)); cbn [events].
        -- eexists _, _. split; [reflexivity|now left].
        -- eexists _, _. split; [reflexivity|right; eauto].
      * unfold streamChat, streamChat_on. rewrite O, B. cbn.
        exists [], (onError NO_STREAM). split; [reflexivity|right; eauto].
    + unfold streamChat, streamChat_on. rewrite O. cbn [negb fst].
      destruct (member _ _) as [error|].
      * destruct (status resp =? 429); [|destruct (status resp =? 402)];
          cbn; eexists [], _; (split; [reflexivity|right; eauto]).
      * exists [], (onError NETWORK_FAILED). split; [reflexivity|right; eauto].
Qed.

(** C2. Every run makes exactly one terminal call, [onDone] or [onError]
    and never both, and it is the last call of the run; when the source
    closes without the sentinel having been met, that call is [onDone],
    made after the deltas of the final flush. *)
Theorem C2_one_terminal_call (f : fetch_outcome) :
  terminal_calls (events (streamChat f)) = 1%nat
  /\ (exists ds last,
        events (streamChat f) = map onDelta ds ++ [last]
        /\ (last = onDone \/ exists m, last = onError m))
  /\ (forall resp s,
        f = fetch_resolves resp -> ok resp = true -> body resp = Some s ->
        ending s = Closed -> sentinel_seen (streamChat f) = false ->
        flushed (streamChat f) = true
        /\ exists live,
            events (streamChat f) =
            map onDelta (live ++ final_flush (leftover (streamChat f)))
            ++ [onDone]).
Proof.
  split; [|split; [apply streamChat_trace|]].
  - destruct (streamChat_trace f) as (ds & last & -> & [->|[m ->]]);
      now rewrite terminal_calls_deltas.
  - intros resp s -> O B C _. rewrite (streamChat_ok resp s O B). cbv zeta.
    destruct (session (chunks s) (ending s)) as [(_ & X & _)|(_ & X & _)];
      rewrite X; [rewrite C|]; cbn; (split; [reflexivity|eauto]).
Qed.

(** ** A line that does not parse *)

Lemma scan_extracted (pre : jsstring) :
  extracted pre ->
  forall y,
    scan (pre ++ y) =
    (fst (fst (scan y)), snd (fst (scan pre)) ++ snd (fst (scan y)),
     snd (scan y)).
Proof.
  induction 1 as [|l r delta H L X IH]; intro y.
  - cbn [app]. rewrite (scan_absent []) by (intros []). cbn.
    now destruct (scan y) as [[b o] d].
  - rewrite <- app_assoc. cbn [app]. rewrite !scan_line, L by assumption.
    rewrite IH. specialize (IH []). rewrite app_nil_r in IH.
    destruct (scan r) as [[b1 o1] d1]. cbn [fst snd].
    now rewrite app_assoc.
Qed.

Lemma live_line_unparsed (l : jsstring) :
  startsWith DATA (chomp l) = true ->
  trim (slice_from (chomp l) 6) <> DONE ->
  JSON_parse (trim (slice_from (chomp l) 6)) = None ->
  live_line l = BreakPushback (chomp l).
Proof.
  intros S N P. rewrite live_line_classify.
  destruct (startsWith_inv _ _ S) as [r E]. rewrite E in *.
  rewrite classify_data. cbv zeta.
  rewrite slice_from_suffix in N, P by reflexivity.
  destruct (str_eqb_spec (trim r) DONE); [contradiction|].
  now rewrite P.
Qed.

(** C4. In the live loop, a terminated data line whose payload does not
    parse is put back at the front of the buffer, without its carriage
    return and with a terminator, before what followed it; the scan
    stops there, [streamDone] stays false, the line gives no delta, and
    the read loop goes on to the next read: nothing is reported. *)
Theorem C4_split_frame_pushed_back
  (st : loop_state) (value : list byte) (pre l r : jsstring) :
  textBuffer st ++ fst (decode (decoder st) value) = pre ++ l ++ NL :: r ->
  extracted pre ->
  ~ In NL l ->
  startsWith DATA (chomp l) = true ->
  trim (slice_from (chomp l) 6) <> DONE ->
  JSON_parse (trim (slice_from (chomp l) 6)) = None ->
  scan (l ++ NL :: r) = (chomp l ++ NL :: r, [], false)
  /\ textBuffer (on_chunk st value) = chomp l ++ NL :: r
  /\ streamDone (on_chunk st value) = false
  /\ deltas (on_chunk st value) = deltas st ++ snd (fst (scan pre))
  /\ forall rest e,
      streamDone st = false ->
      read_loop st (value :: rest) e = read_loop (on_chunk st value) rest e.
Proof.
  intros E X N Hs D P.
  assert (L : scan (l ++ NL :: r) = (chomp l ++ NL :: r, [], false)).
  { rewrite scan_line by assumption. now rewrite live_line_unparsed. }
  split; [exact L|].
  assert (C : on_chunk st value =
              {| textBuffer := chomp l ++ NL :: r; streamDone := false;
                 decoder := snd (decode (decoder st) value);
                 deltas := deltas st ++ snd (fst (scan pre));
                 reads := S (reads st) |}).
  { unfold on_chunk. destruct (decode (decoder st) value) as [text d].
    cbn [fst snd] in *. rewrite E, scan_extracted, L by assumption.
    cbn [fst snd]. now rewrite app_nil_r. }
  rewrite C. cbn [textBuffer streamDone deltas].
  repeat split. intros rest e D0. cbn [read_loop]. now rewrite D0, C.
Qed.

(** ** A source that fails *)

(** C6. When a read throws before the sentinel was met, the run is the
    deltas the live loop had handed out, then one [onError]: no
    [onDone], no flush of what the buffer holds, every chunk was read. *)
Theorem C6_transport_failure (resp : Response) (s : ReadableStream) :
  ok resp = true -> body resp = Some s -> ending s = Errored ->
  sentinel_seen (streamChat (fetch_resolves resp)) = false ->
  let r := streamChat (fetch_resolves resp) in
  let T := text_of new_TextDecoder (chunks s) in
  events r = map onDelta (snd (fst (scan T))) ++ [onError NETWORK_FAILED]
  /\ delta_texts (events r) = snd (fst (scan T))
  /\ terminal_calls (events r) = 1%nat
  /\ ~ In onDone (events r)
  /\ flushed r = false
  /\ chunks_read r = length (chunks s).
Proof.
  intros O B E. rewrite (streamChat_ok resp s O B). cbv zeta. rewrite E.
  destruct (session (chunks s) Errored)
    as [(D & X & R & Sd & _)|(D & X & _)]; rewrite X.
  - cbn [exit_of events flushed chunks_read sentinel_seen].
    intros _. rewrite Sd, delta_texts_deltas, terminal_calls_deltas.
    cbn [delta_texts terminal_calls]. rewrite app_nil_r.
    repeat split; auto.
    intro I. apply in_app_or in I as [I|[I|[]]]; [|discriminate].
    apply in_map_iff in I as (d & I & _). discriminate.
  - cbn [sentinel_seen]. congruence.
Qed.

(** ** The reader *)

Lemma reads_on_chunk (st : loop_state) (value : list byte) :
  reads (on_chunk st value) = S (reads st).
Proof.
  unfold on_chunk. destruct (decode (decoder st) value) as [text d].
  now destruct (scan (textBuffer st ++ text)) as [[buffer out] done].
Qed.

Lemma after_reads_next (n : nat) (b : stream_state) :
  after_reads (S n) b = after_reads n (snd (read b)).
Proof.
  induction n as [|n IH]; [reflexivity|].
  change (snd (read (after_reads (S n) b))
          = snd (read (after_reads n (snd (read b))))).
  now rewrite IH.
Qed.

(** The stream that [streamChat] leaves is the one the loop reaches,
    read by read: as many chunks have left the queue as the loop
    counts. *)
Lemma read_loop_on_reader (e : stream_end) (held : bool) :
  forall (pending : list (list byte)) (st : loop_state),
    let b := {| queue := pending; source_end := e; locked := held |} in
    let st' := fst (read_loop st pending e) in
    exists n,
      reads st' = (reads st + n)%nat
      /\ reads_to st b st' (snd (read_loop st pending e)) (after_reads n b).
Proof.
  induction pending as [|value rest IH]; intro st; cbn zeta;
    cbn [read_loop]; destruct (streamDone st) eqn:D;
    try (exists 0%nat; split; [cbn [fst]; lia|now apply loop_sentinel]).
  - exists 0%nat. split; [destruct e; cbn [fst]; lia|].
    destruct e; cbn [fst snd];
      [now apply loop_done|now apply loop_rejected].
  - destruct (IH (on_chunk st value)) as (n & R & Rt). cbn zeta in R, Rt.
    exists (S n). split; [rewrite R, reads_on_chunk; lia|].
    rewrite after_reads_next.
    eapply loop_chunk; [exact D|reflexivity|exact Rt].
Qed.

Lemma body_left_reached (resp : Response) (s : ReadableStream) :
  ok resp = true -> body resp = Some s ->
  exists b,
    body_left (fetch_resolves resp) = Some b
    /\ reads_to initial_state (lock_of s)
         (fst (read_loop initial_state (chunks s) (ending s)))
         (snd (read_loop initial_state (chunks s) (ending s))) b.
Proof.
  intros O B. rewrite (body_left_ok resp s O B), (streamChat_ok resp s O B).
  cbv zeta.
  destruct (read_loop_on_reader (ending s) true (chunks s) initial_state)
    as (n & R & Rt).
  cbn zeta in R, Rt. cbn [reads initial_state Nat.add] in R.
  fold (lock_of s) in Rt. eexists. split; [reflexivity|].
  destruct (snd (read_loop initial_state (chunks s) (ending s)));
    cbn [chunks_read]; now rewrite R.
Qed.

(** C9 (as the code has it). [streamChat] has no cancellation: once it
    has taken the reader of the body, a session runs until the sentinel
    is met, the source is done or a read rejects, and on each of these
    three ways out the reader is not given back.  The body the function
    leaves is the one its loop of reads reaches from the body under
    lock: it is still locked, so that [getReader()] on it throws, and
    the chunks that were not read are still in its queue. *)
Theorem C9_reader_never_released (resp : Response) (s : ReadableStream) :
  ok resp = true -> body resp = Some s ->
  let r := streamChat (fetch_resolves resp) in
  exists b,
    body_left (fetch_resolves resp) = Some b
    /\ locked b = true
    /\ getReader b = Throw
    /\ queue b = skipn (chunks_read r) (chunks s)
    /\ ((sentinel_seen r = true
         /\ exists ds, events r = map onDelta ds ++ [onDone])
        \/ (sentinel_seen r = false /\ ending s = Closed /\ queue b = []
            /\ exists ds, events r = map onDelta ds ++ [onDone])
        \/ (sentinel_seen r = false /\ ending s = Errored /\ queue b = []
            /\ exists ds,
                events r = map onDelta ds ++ [onError NETWORK_FAILED]))
    /\ getReader (opened s) = Normal (lock_of s)
    /\ exists st exit, reads_to initial_state (lock_of s) st exit b.
Proof.
  intros O B.
  destruct (body_left_reached resp s O B) as (b0 & E0 & Rt).
  cbv zeta. rewrite (body_left_ok resp s O B) in *.
  injection E0 as <-. revert Rt.
  rewrite (streamChat_ok resp s O B). cbv zeta.
  set (st := fst (read_loop initial_state (chunks s) (ending s))).
  set (x := snd (read_loop initial_state (chunks s) (ending s))).
  assert (R : chunks_read
                match x with
                | Rejected =>
                    {| events := map onDelta (deltas st) ++ [onError NETWORK_FAILED];
                       chunks_read := reads st;
                       sentinel_seen := streamDone st;
                       leftover := textBuffer st;
                       flushed := false |}
                | Fallthrough =>
                    {| events :=
                         map onDelta (deltas st ++ final_flush (textBuffer st))
                         ++ [onDone];
                       chunks_read := reads st;
                       sentinel_seen := streamDone st;
                       leftover := textBuffer st;
                       flushed := true |}
                end = reads st) by now destruct x.
  rewrite R.
  assert (L : locked (after_reads (reads st) (lock_of s)) = true)
    by now rewrite after_reads_locked.
  assert (Q : queue (after_reads (reads st) (lock_of s))
              = skipn (reads st) (chunks s))
    by now rewrite after_reads_queue.
  intro Rt. exists (after_reads (reads st) (lock_of s)).
  split; [reflexivity|]. split; [exact L|].
  split; [now apply getReader_locked|]. split; [exact Q|].
  split; [|split; [reflexivity|eauto]].
  destruct (session (chunks s) (ending s))
    as [(D & X & Rd & _)|(D & X & _)]; fold st in D; fold x in X; rewrite X.
  - fold st in Rd.
    assert (Q0 : queue (after_reads (reads st) (lock_of s)) = [])
      by (rewrite Q, Rd; apply skipn_all).
    destruct (ending s); cbn [exit_of sentinel_seen events].
    + right. left. eauto.
    + right. right. eauto.
  - cbn [sentinel_seen events]. left. eauto.
Qed.

(** ** The sentinel in the final flush *)

Lemma flat_map_in_delta (ps : list jsstring) (l : jsstring) (c : json) :
  In l ps -> live_line l = Continue (Some c) ->
  In c (flat_map flush_line ps).
Proof.
  intros I L. apply in_flat_map. exists l. split; [exact I|].
  rewrite flush_line_live, L. now left.
Qed.

(** C10. In the final flush a sentinel line is skipped and the lines
    after it are still processed: their deltas are handed out, in
    order, before [onDone]. *)
Theorem C10_flush_skips_sentinel
  (resp : Response) (s : ReadableStream) (ps1 ps2 : list jsstring)
  (sl : jsstring) :
  ok resp = true -> body resp = Some s ->
  flushed (streamChat (fetch_resolves resp)) = true ->
  split NL (leftover (streamChat (fetch_resolves resp))) = ps1 ++ sl :: ps2 ->
  live_line sl = BreakDone ->
  let r := streamChat (fetch_resolves resp) in
  final_flush (leftover r) = flat_map flush_line ps1 ++ flat_map flush_line ps2
  /\ (exists live,
        events r =
        map onDelta (live ++ flat_map flush_line ps1 ++ flat_map flush_line ps2)
        ++ [onDone])
  /\ forall l c,
      In l ps2 -> live_line l = Continue (Some c) -> In (onDelta c) (events r).
Proof.
  intros O B. rewrite (streamChat_ok resp s O B). cbv zeta.
  destruct (snd (read_loop _ _ _)); cbn [flushed leftover events];
    [|discriminate].
  intros _ Sp L.
  assert (F : final_flush (textBuffer (fst (read_loop initial_state (chunks s) (ending s))))
              = flat_map flush_line ps1 ++ flat_map flush_line ps2).
  { rewrite final_flush_all. unfold flush_all. rewrite Sp.
    rewrite flat_map_app. cbn [flat_map].
    now rewrite (flush_line_live sl), L. }
  rewrite F. split; [reflexivity|split; [eauto|]].
  intros l c I Lc. apply in_or_app. left. apply in_map.
  apply in_or_app. right. apply in_or_app. right.
  eapply flat_map_in_delta; eassumption.
Qed.

(** ** A status that is not a success *)

(** C7 (as the code has it). When the status is not a success the run
    is a single [onError] and nothing else: the read loop is never
    entered, there is no delta and no [onDone], whatever the body
    carries.  The body is read all the same, by [resp.json()], which
    leaves it empty and locked.  The message is the [error] field of the
    body when the body is JSON with such a field and the field is
    truthy; it is the message of a network failure when the body is the
    JSON value [null], and only then; otherwise it is the message of
    the status. *)
Theorem C7_rejected_status (resp : Response) :
  ok resp = false ->
  let r := streamChat (fetch_resolves resp) in
  events r =
    [onError
       match member (str "error") (errorData_of resp) with
       | Normal error => or_else error (status_message (status resp))
       | Throw => NETWORK_FAILED
       end]
  /\ (member (str "error") (errorData_of resp) = Throw
      <-> Response_json resp = Some JNull)
  /\ (Response_json resp = None ->
      events r = [onError (status_message (status resp))])
  /\ delta_texts (events r) = []
  /\ ~ In onDone (events r)
  /\ forall s,
      body resp = Some s ->
      exists b,
        body_left (fetch_resolves resp) = Some b
        /\ queue b = [] /\ locked b = true /\ getReader b = Throw.
Proof.
  intros O.
  assert (C : forall s,
             body resp = Some s ->
             exists b,
               body_left (fetch_resolves resp) = Some b
               /\ queue b = [] /\ locked b = true /\ getReader b = Throw).
  { intros s B. exists (consumed s).
    destruct (consumed_state s) as (_ & Q & L & G).
    split; [|auto]. unfold body_left, streamChat_on.
    now rewrite O, B. }
  revert C.
  unfold body_left, streamChat, streamChat_on, status_message.
  rewrite O. cbn [negb fst snd]. intro C.
  fold (errorData_of resp).
  assert (N : member (str "error") (errorData_of resp) = Throw
              <-> Response_json resp = Some JNull).
  { unfold errorData_of.
    destruct (Response_json resp) as [[]|]; cbn; split; congruence. }
  assert (J : Response_json resp = None ->
              member (str "error") (errorData_of resp) = Normal None).
  { unfold errorData_of. now intros ->. }
  destruct (member (str "error") (errorData_of resp)) as [error|].
  - destruct (status resp =? 429); [|destruct (status resp =? 402)];
      cbn [no_decode events delta_texts];
      (split; [reflexivity|split; [exact N|split;
         [intros E; apply J in E; injection E as ->; reflexivity|
          split; [reflexivity|split;
            [intros [E|[]]; discriminate|exact C]]]]]).
  - cbn [no_decode events delta_texts].
    split; [reflexivity|split; [exact N|split;
      [intros E; apply J in E; discriminate|
       split; [reflexivity|split;
         [intros [E|[]]; discriminate|exact C]]]]].
Qed.

(** ** The sentinel in the live loop *)

(** Once a chunk has completed a sentinel line, what the source would
    deliver next, and how it would end, are never looked at. *)
Lemma read_loop_stops (cs1 : list (list byte)) (c : list byte) (e : stream_end) :
  forall st,
    streamDone (fst (read_loop st (cs1 ++ [c]) e)) = true ->
    forall cs2 e',
      read_loop st (cs1 ++ c :: cs2) e' = read_loop st (cs1 ++ [c]) e.
Proof.
  induction cs1 as [|a cs1 IH]; intros st D cs2 e'.
  - cbn [app read_loop] in *. destruct (streamDone st) eqn:D0; [reflexivity|].
    destruct (streamDone (on_chunk st c)) eqn:D1.
    + now rewrite !read_loop_done.
    + exfalso. destruct e; cbn in D; congruence.
  - cbn [app read_loop] in *. destruct (streamDone st); [reflexivity|].
    now apply IH.
Qed.

Lemma with_body_run (resp : Response) (s : ReadableStream) :
  ok resp = true ->
  ok (with_body resp s) = true /\ body (with_body resp s) = Some s.
Proof. intro O. split; [exact O|reflexivity]. Qed.

(** C3 (as the code has it). When the live loop meets the sentinel, the
    session is marked done and no further chunk is read: the chunks
    after the one that completed the sentinel line, and the way the
    source ends, change nothing.  The buffer then holds what followed
    the sentinel line in the text received; the final flush still
    processes it, and [onDone] closes the run. *)
Theorem C3_sentinel_stops_reading (resp : Response) (s : ReadableStream) :
  ok resp = true -> body resp = Some s ->
  sentinel_seen (streamChat (fetch_resolves resp)) = true ->
  let r := streamChat (fetch_resolves resp) in
  flushed r = true
  /\ exists cs1 c cs2 live,
      chunks s = cs1 ++ c :: cs2
      /\ chunks_read r = (length cs1 + 1)%nat
      /\ scan (text_of new_TextDecoder (cs1 ++ [c])) = (leftover r, live, true)
      /\ sentinel_shape (text_of new_TextDecoder (cs1 ++ [c])) (leftover r)
      /\ events r = map onDelta (live ++ final_flush (leftover r)) ++ [onDone]
      /\ forall cs2' e',
          streamChat
            (fetch_resolves
               (with_body resp {| chunks := cs1 ++ c :: cs2'; ending := e' |}))
          = r.
Proof.
  intros O B. pose proof (streamChat_ok resp s O B) as E. cbv zeta in E.
  rewrite E. clear E.
  destruct (session (chunks s) (ending s))
    as [(D & X & _)|(D & X & cs1 & c & cs2 & Ec & Sc & Ss & R)]; rewrite X.
  - destruct (exit_of (ending s)); cbn [sentinel_seen]; congruence.
  - cbn [sentinel_seen flushed chunks_read leftover events]. intros _.
    split; [reflexivity|].
    exists cs1, c, cs2, (deltas (fst (read_loop initial_state (chunks s) (ending s)))).
    repeat split; try assumption.
    intros cs2' e'.
    destruct (with_body_run resp {| chunks := cs1 ++ c :: cs2'; ending := e' |} O)
      as [O' B'].
    rewrite (streamChat_ok _ _ O' B'). cbv zeta. cbn [chunks ending].
    assert (Dk : streamDone (fst (read_loop initial_state (cs1 ++ [c]) (ending s)))
                 = true).
    { destruct (session (cs1 ++ [c]) (ending s))
        as [(_ & _ & _ & _ & Sd & _)|(Dk & _)]; [|exact Dk].
      rewrite Sc in Sd. discriminate. }
    rewrite (read_loop_stops cs1 c (ending s) _ Dk cs2' e').
    rewrite Ec, (read_loop_stops cs1 c (ending s) _ Dk cs2 (ending s)) in *.
    now rewrite X.
Qed.

(** ** The shape of the pending buffer *)

(** C8 (as the code has it). Between two reads the pending buffer is
    what follows, in the text received, the lines extracted so far and
    not pushed back: an unterminated tail, kept as received; or, from a
    line that did not parse on, the text received less the carriage
    returns that the scans have taken from the end of that line, one a
    scan.  Once the sentinel is met the buffer is what followed the
    sentinel line. *)
Theorem C8_pending_buffer (cs : list (list byte)) (e : stream_end) :
  let st := fst (read_loop initial_state cs e) in
  let T := text_of new_TextDecoder (firstn (reads st) cs) in
  if streamDone st
  then sentinel_shape T (textBuffer st)
  else pending_shape T (textBuffer st).
Proof.
  cbv zeta.
  destruct (session cs e)
    as [(D & _ & R & _ & _ & _ & Sh)|(D & _ & cs1 & c & cs2 & Ec & _ & Ss & R)];
    rewrite D, R.
  - now rewrite firstn_all.
  - assert (F : firstn (length cs1 + 1) cs = cs1 ++ [c]).
    { rewrite Ec.
      replace (cs1 ++ c :: cs2) with ((cs1 ++ [c]) ++ cs2)
        by now rewrite <- app_assoc.
      rewrite firstn_app.
      replace (length cs1 + 1 - length (cs1 ++ [c]))%nat with 0%nat
        by (rewrite length_app; cbn; lia).
      rewrite firstn_all2 by (rewrite length_app; cbn; lia).
      cbn [firstn]. now rewrite app_nil_r. }
    now rewrite F.
Qed.

(** ** Chunk boundaries *)

Lemma final_flush_blank (b : jsstring) : trim b = [] -> final_flush b = [].
Proof. intro E. unfold final_flush. now rewrite E. Qed.

Lemma trim_app_blank (a b : jsstring) : trim (a ++ b) = [] -> trim a = [].
Proof.
  rewrite !trim_nil, forallb_app. intro H.
  now apply andb_true_iff in H as [H _].
Qed.

(** The same bytes as one chunk: one scan of all the text. *)
Lemma whole_session (cs : list (list byte)) (e : stream_end) :
  let st := fst (read_loop initial_state [concat cs] e) in
  scan (text_of new_TextDecoder cs)
  = (textBuffer st, deltas st, streamDone st)
  /\ snd (read_loop initial_state [concat cs] e)
     = if streamDone st then Fallthrough else exit_of e.
Proof.
  cbv zeta. unfold text_of.
  destruct (decode new_TextDecoder (concat cs)) as [text d] eqn:Ed.
  destruct (scan text) as [[b o] dn] eqn:Es. cbn [fst].
  assert (C : on_chunk initial_state (concat cs) =
              {| textBuffer := b; streamDone := dn; decoder := d;
                 deltas := o; reads := 1 |}).
  { unfold on_chunk. cbn [initial_state decoder textBuffer deltas reads app].
    now rewrite Ed, Es. }
  change (read_loop initial_state [concat cs] e)
    with (read_loop (on_chunk initial_state (concat cs)) [] e).
  rewrite C. cbn [read_loop streamDone].
  destruct dn; [now split|]. destruct e; now split.
Qed.

(** C1 (as the code has it). Take the bytes of a body as one chunk.  If
    the live loop does not meet the sentinel on them, or if it does and
    only white space follows the sentinel line, then however the same
    bytes are cut into chunks the run makes the same calls in the same
    order: the same deltas, then the same terminal call. *)
Theorem C1_chunking (resp : Response) (s : ReadableStream) :
  ok resp = true -> body resp = Some s ->
  let whole := streamChat (fetch_resolves (with_body resp (single_chunk s))) in
  sentinel_seen whole = false \/ trim (leftover whole) = [] ->
  events (streamChat (fetch_resolves resp)) = events whole
  /\ delta_texts (events (streamChat (fetch_resolves resp)))
     = delta_texts (events whole).
Proof.
  intros O B. cbv zeta.
  destruct (with_body_run resp (single_chunk s) O) as [O1 B1].
  rewrite (streamChat_ok _ _ O1 B1), (streamChat_ok resp s O B). cbv zeta.
  change (chunks (single_chunk s)) with [concat (chunks s)].
  change (ending (single_chunk s)) with (ending s).
  assert (G : forall a b : list event,
             a = b -> a = b /\ delta_texts a = delta_texts b)
    by (intros a b ->; now split).
  destruct (whole_session (chunks s) (ending s)) as [W Xw].
  pose proof (session (chunks s) (ending s)) as C. cbv zeta in C.
  destruct (read_loop initial_state [concat (chunks s)] (ending s))
    as [stw xw].
  destruct (read_loop initial_state (chunks s) (ending s)) as [stc xc].
  cbn [fst snd] in *. subst xw.
  destruct C as [(D & -> & _ & Sd & N & F & _)
                |(D & -> & cs1 & c & cs2 & Ec & Sc & _)].
  - (* the text does not meet the sentinel *)
    rewrite W in Sd, N. cbn [fst snd] in Sd, N. rewrite N in *.
    intros _. apply G.
    destruct (ending s); cbn [exit_of events].
    + destruct (scan_resume _ _ [] _ W) as [_ Fw].
      rewrite !app_nil_r in Fw.
      now rewrite !final_flush_all, <- F, Fw, Sd.
    + now rewrite Sd.
  - (* it does *)
    rewrite Ec in W.
    replace (cs1 ++ c :: cs2) with ((cs1 ++ [c]) ++ cs2) in W
      by now rewrite <- app_assoc.
    rewrite text_of_app, (scan_done_app _ _ _ _ Sc) in W.
    injection W as Eb Ed Es. rewrite <- Es.
    cbn [sentinel_seen leftover events]. intros [H|H]; [congruence|].
    apply G. rewrite (final_flush_blank _ H).
    rewrite <- Eb in H. apply trim_app_blank in H.
    now rewrite (final_flush_blank _ H), Ed.
Qed.

(** ** The final flush *)


(** * Further properties of the decoder *)

(** ** What a delta can be *)

Lemma live_line_truthy (l : jsstring) (c : json) :
  live_line l = Continue (Some c) -> truthy c = true.
Proof.
  rewrite live_line_classify. unfold classify. cbv zeta.
  destruct (_ || _); [discriminate|].
  destruct (negb _); [discriminate|].
  destruct (str_eqb _ DONE); [discriminate|].
  destruct (JSON_parse _) as [parsed|]; [|discriminate].
  destruct (delta_content parsed) as [[d|]|]; try discriminate.
  destruct (truthy d) eqn:E; [|discriminate]. now intros [= <-].
Qed.

Lemma scan_truthy (x : jsstring) :
  Forall (fun c => truthy c = true) (snd (fst (scan x))).
Proof.
  induction x as [s H|l r H IH] using lines_ind.
  - rewrite scan_absent by assumption. constructor.
  - rewrite scan_line by assumption.
    destruct (live_line l) as [[c|]| |p] eqn:L; try (cbn; constructor).
    + destruct (scan r) as [[b o] d]. cbn in *.
      constructor; [eapply live_line_truthy; eassumption|exact IH].
    + destruct (scan r) as [[b o] d]. exact IH.
Qed.

Lemma flush_line_truthy (l : jsstring) :
  Forall (fun c => truthy c = true) (flush_line l).
Proof.
  rewrite flush_line_live.
  destruct (live_line l) as [[c|]| |p] eqn:L; cbn; constructor;
    [eapply live_line_truthy; eassumption|constructor].
Qed.

Lemma final_flush_truthy (b : jsstring) :
  Forall (fun c => truthy c = true) (final_flush b).
Proof.
  rewrite final_flush_all. unfold flush_all.
  induction (split NL b) as [|p ps IH]; [constructor|].
  cbn. apply Forall_app. split; [apply flush_line_truthy|exact IH].
Qed.

Lemma read_loop_truthy (cs : list (list byte)) (e : stream_end) :
  forall st,
    Forall (fun c => truthy c = true) (deltas st) ->
    Forall (fun c => truthy c = true) (deltas (fst (read_loop st cs e))).
Proof.
  induction cs as [|c cs IH]; intros st F; cbn [read_loop].
  - destruct (streamDone st); [exact F|]. now destruct e.
  - destruct (streamDone st); [exact F|]. apply IH.
    unfold on_chunk. destruct (decode (decoder st) c) as [text d].
    pose proof (scan_truthy (textBuffer st ++ text)) as T.
    destruct (scan (textBuffer st ++ text)) as [[b o] dn]. cbn in *.
    apply Forall_app. now split.
Qed.

(** X1. Whatever the response, every value handed to [onDelta] is
    truthy: a frame whose content is absent, [null], [false], zero or
    the empty string gives no call at all. *)
Theorem deltas_are_truthy (f : fetch_outcome) :
  Forall (fun c => truthy c = true) (delta_texts (events (streamChat f))).
Proof.
  destruct f as [|resp]; [constructor|].
  destruct (ok resp) eqn:O.
  - destruct (body resp) as [s|] eqn:B.
    + rewrite (streamChat_ok resp s O B). cbv zeta.
      pose proof (read_loop_truthy (chunks s) (ending s) initial_state
                    (Forall_nil _)) as T.
      destruct (snd (read_loop _ _ _)); cbn [events];
        rewrite delta_texts_deltas; cbn [delta_texts]; rewrite app_nil_r.
      * apply Forall_app. split; [exact T|apply final_flush_truthy].
      * exact T.
    + unfold streamChat, streamChat_on. rewrite O, B. cbn. constructor.
  - unfold streamChat, streamChat_on. rewrite O. cbn [negb fst].
    destruct (member _ _) as [error|]; [|constructor].
    destruct (status resp =? 429); [|destruct (status resp =? 402)];
      constructor.
Qed.

(** ** A line that never parses *)

Lemma extracted_scan (pre : jsstring) :
  extracted pre -> scan pre = ([], snd (fst (scan pre)), false).
Proof.
  intro X. pose proof (scan_extracted pre X []) as E.
  rewrite app_nil_r, (scan_absent []) in E by (intros []).
  cbn [fst snd] in E. rewrite app_nil_r in E. exact E.
Qed.

Lemma extracted_flush (pre y : jsstring) :
  extracted pre ->
  flush_all (pre ++ y) = snd (fst (scan pre)) ++ flush_all y.
Proof.
  intro X. now destruct (scan_resume _ _ y _ (extracted_scan pre X)) as [_ F].
Qed.

(** X2. A terminated data line that does not parse blocks the live
    loop for the rest of the session: however the text is cut into
    chunks and whatever follows the line, frames or the sentinel, the
    loop hands out the deltas of the lines before it and nothing more,
    never sets [streamDone], and reads the source to its end.  What
    follows the line comes out only at the final flush, when the source
    closes; it is lost when a read throws. *)
Theorem unparsed_line_blocks_live_loop
  (resp : Response) (s : ReadableStream) (pre l r p : jsstring) :
  ok resp = true -> body resp = Some s ->
  text_of new_TextDecoder (chunks s) = pre ++ l ++ NL :: r ->
  extracted pre -> ~ In NL l -> live_line l = BreakPushback p ->
  let run := streamChat (fetch_resolves resp) in
  sentinel_seen run = false
  /\ chunks_read run = length (chunks s)
  /\ events run =
     match ending s with
     | Closed =>
         map onDelta (snd (fst (scan pre)) ++ flush_all r) ++ [onDone]
     | Errored =>
         map onDelta (snd (fst (scan pre))) ++ [onError NETWORK_FAILED]
     end.
Proof.
  intros O B E X N L. rewrite (streamChat_ok resp s O B). cbv zeta.
  assert (Sc : scan (pre ++ l ++ NL :: r)
               = (p ++ NL :: r, snd (fst (scan pre)), false)).
  { rewrite scan_extracted, scan_line, L by assumption.
    cbn [fst snd]. now rewrite app_nil_r. }
  destruct (session (chunks s) (ending s))
    as [(D & Xe & R & Sd & _ & F & _)|(_ & _ & cs1 & c & cs2 & Ec & Sk & _)].
  - rewrite Xe, E, Sc in *. cbn [fst snd] in Sd.
    destruct (ending s); cbn [exit_of sentinel_seen chunks_read events];
      (split; [exact D|split; [exact R|]]); rewrite <- Sd; [|reflexivity].
    rewrite final_flush_all.
    rewrite extracted_flush, flush_all_line, flush_line_live, L in F
      by assumption.
    cbn [app] in F. rewrite <- Sd in F. apply app_inv_head in F.
    now rewrite F.
  - exfalso. rewrite Ec in E.
    replace (cs1 ++ c :: cs2) with ((cs1 ++ [c]) ++ cs2) in E
      by now rewrite <- app_assoc.
    rewrite text_of_app in E.
    pose proof (scan_done_app _ _ (text_of (decoder_after new_TextDecoder (cs1 ++ [c])) cs2) _ Sk) as Sd.
    rewrite E, Sc in Sd. discriminate.
Qed.

(** ** Sessions whose text is settled *)

(** When the sentinel, if the text has one, is followed by white space
    only, the calls of a session depend on its text alone, not on the
    chunks the text came in. *)
Lemma settled_session (resp : Response) (s : ReadableStream) :
  ok resp = true -> body resp = Some s ->
  settled (text_of new_TextDecoder (chunks s)) ->
  events (streamChat (fetch_resolves resp))
  = events_of_text (text_of new_TextDecoder (chunks s)) (ending s).
Proof.
  intros O B St. rewrite (streamChat_ok resp s O B). cbv zeta.
  unfold events_of_text, settled in *.
  destruct (session (chunks s) (ending s))
    as [(D & Xe & _ & Sd & N & F & _)|(D & Xe & cs1 & c & cs2 & Ec & Sk & _)];
    rewrite Xe.
  - destruct (scan (text_of new_TextDecoder (chunks s))) as [[b o] dn] eqn:E.
    cbn [fst snd] in *. subst dn o.
    destruct (scan_resume _ _ [] _ E) as [_ Fw]. rewrite !app_nil_r in Fw.
    rewrite Fw in F. apply app_inv_head in F.
    destruct (ending s); cbn [exit_of events]; [|reflexivity].
    now rewrite !final_flush_all, F.
  - generalize dependent (fst (read_loop initial_state (chunks s) (ending s))).
    intros st D Sk. rewrite Ec in St |- *.
    replace (cs1 ++ c :: cs2) with ((cs1 ++ [c]) ++ cs2) in St |- *
      by now rewrite <- app_assoc.
    rewrite text_of_app in St |- *.
    rewrite (scan_done_app _ _ _ _ Sk) in St |- *. cbn [fst snd] in St.
    destruct St as [St|St]; [discriminate|]. cbn [events].
    rewrite (final_flush_blank _ St).
    apply trim_app_blank in St. now rewrite (final_flush_blank _ St).
Qed.

(** Two settled texts with the same deltas, the same verdict and the
    same flush make the same calls. *)
Lemma events_of_text_ext (T1 T2 : jsstring) (e : stream_end) :
  settled T1 -> settled T2 ->
  snd (fst (scan T1)) = snd (fst (scan T2)) ->
  snd (scan T1) = snd (scan T2) ->
  flush_all T1 = flush_all T2 ->
  events_of_text T1 e = events_of_text T2 e.
Proof.
  unfold settled, events_of_text. intros S1 S2 Eo Ed Ef.
  destruct (scan T1) as [[b1 o1] d1] eqn:E1.
  destruct (scan T2) as [[b2 o2] d2] eqn:E2.
  cbn [fst snd] in *. subst o2 d2. destruct d1.
  - destruct S1 as [S1|S1]; [discriminate|].
    destruct S2 as [S2|S2]; [discriminate|].
    now rewrite (final_flush_blank _ S1), (final_flush_blank _ S2).
  - destruct e; [|reflexivity].
    destruct (scan_resume _ _ [] _ E1) as [_ F1].
    destruct (scan_resume _ _ [] _ E2) as [_ F2].
    rewrite !app_nil_r in F1, F2. rewrite F1, F2 in Ef.
    apply app_inv_head in Ef. now rewrite !final_flush_all, Ef.
Qed.

(** ** Lines without the prefix *)

Lemma live_line_unprefixed (l : jsstring) :
  startsWith DATA (chomp l) = false -> live_line l = Continue None.
Proof.
  intro U. rewrite live_line_classify. unfold classify. cbv zeta.
  rewrite U. now destruct (_ || _).
Qed.

Lemma whole_lines_tail (l a : jsstring) :
  whole_lines (l ++ NL :: a) -> whole_lines a.
Proof.
  intros [E|[p E]]; [now destruct l|].
  destruct a as [|x a' _] using rev_ind; [now left|].
  right. exists a'. f_equal.
  change (l ++ NL :: a' ++ [x]) with (l ++ (NL :: a') ++ [x]) in E.
  rewrite app_assoc in E. now apply app_inj_tail in E as [_ ->].
Qed.

Lemma unprefixed_line_scan (a l b : jsstring) :
  whole_lines a -> ~ In NL l -> startsWith DATA (chomp l) = false ->
  snd (fst (scan (a ++ l ++ NL :: b))) = snd (fst (scan (a ++ b)))
  /\ snd (scan (a ++ l ++ NL :: b)) = snd (scan (a ++ b))
  /\ flush_all (a ++ l ++ NL :: b) = flush_all (a ++ b).
Proof.
  intros W N U. induction a as [s H|l0 r H IH] using lines_ind.
  - assert (s = []) as ->.
    { destruct W as [W|[p ->]]; [exact W|].
      exfalso. apply H. apply in_or_app. right. now left. }
    cbn [app]. rewrite scan_line, flush_all_line by assumption.
    rewrite flush_line_live, live_line_unprefixed by assumption.
    now destruct (scan b) as [[b1 o1] d1].
  - specialize (IH (whole_lines_tail _ _ W)). destruct IH as (Io & Id & If).
    rewrite <- !app_assoc. cbn [app].
    rewrite !scan_line, !flush_all_line by assumption.
    rewrite If. destruct (live_line l0) as [delta| |p]; cbn; auto.
    destruct (scan (r ++ l ++ NL :: b)) as [[b1 o1] d1].
    destruct (scan (r ++ b)) as [[b2 o2] d2]. cbn in *. subst. auto.
Qed.

(** X3. A line that does not start with [data: ] (a comment, a blank
    line, another field, [data:] without its space) counts for
    nothing: two bodies whose texts differ by one such line make the
    same calls, however each is cut into chunks.  The texts are taken
    settled: without sentinel, or with white space only after it. *)
Theorem unprefixed_line_is_transparent
  (resp1 resp2 : Response) (s1 s2 : ReadableStream) (a l b : jsstring) :
  ok resp1 = true -> body resp1 = Some s1 ->
  ok resp2 = true -> body resp2 = Some s2 ->
  ending s1 = ending s2 ->
  text_of new_TextDecoder (chunks s1) = a ++ l ++ NL :: b ->
  text_of new_TextDecoder (chunks s2) = a ++ b ->
  whole_lines a -> ~ In NL l -> startsWith DATA (chomp l) = false ->
  settled (a ++ l ++ NL :: b) -> settled (a ++ b) ->
  events (streamChat (fetch_resolves resp1))
  = events (streamChat (fetch_resolves resp2)).
Proof.
  intros O1 B1 O2 B2 Ee E1 E2 W N U S1 S2.
  rewrite (settled_session resp1 s1 O1 B1), (settled_session resp2 s2 O2 B2)
    by (rewrite ?E1, ?E2; assumption).
  rewrite E1, E2, Ee.
  destruct (unprefixed_line_scan a l b W N U) as (Eo & Ed & Ef).
  now apply events_of_text_ext.
Qed.

(** ** Carriage returns *)

Lemma same_outcome_refl (x : line_outcome) : same_outcome x x.
Proof. now destruct x. Qed.

Lemma startsWith_data_cr (q : jsstring) :
  startsWith DATA (q ++ [CR]) = startsWith DATA q.
Proof.
  destruct (startsWith DATA q) eqn:E.
  - destruct (startsWith_inv _ _ E) as [r ->].
    rewrite <- app_assoc. apply startsWith_app.
  - destruct (startsWith DATA (q ++ [CR])) eqn:E'; [|reflexivity].
    destruct (startsWith_inv _ _ E') as [r Er]. symmetry in Er.
    destruct (data_prefix_chomp _ _ Er) as (r' & _ & ->).
    now rewrite startsWith_app in E.
Qed.

Lemma classify_cr (q : jsstring) :
  same_outcome (classify q) (classify (q ++ [CR])).
Proof.
  destruct (startsWith DATA q) eqn:E.
  - destruct (startsWith_inv _ _ E) as [r ->].
    rewrite <- app_assoc, !classify_data. cbv zeta.
    rewrite trim_app_ws by reflexivity.
    destruct (str_eqb (trim r) DONE); [exact I|].
    destruct (JSON_parse (trim r)) as [parsed|]; [|exact I].
    destruct (delta_content parsed); [reflexivity|exact I].
  - unfold classify. cbv zeta. rewrite startsWith_data_cr, E.
    cbn [negb]. now destruct (_ || _), (_ || _).
Qed.

Lemma live_line_cr (l : jsstring) :
  same_outcome (live_line l) (live_line (l ++ [CR])).
Proof.
  rewrite !live_line_classify, chomp_cr.
  destruct (chomp_cases l) as [(q & -> & ->)|[_ ->]].
  - apply classify_cr.
  - apply same_outcome_refl.
Qed.

Lemma crlf_absent (s : jsstring) : ~ In NL s -> crlf s = s.
Proof.
  induction s as [|c t IH]; intro H; [reflexivity|].
  cbn [crlf]. destruct (Z.eqb_spec c NL) as [->|N].
  - exfalso. apply H. now left.
  - rewrite IH; [reflexivity|]. intro I. apply H. now right.
Qed.

Lemma crlf_line (l r : jsstring) :
  ~ In NL l -> crlf (l ++ NL :: r) = (l ++ [CR]) ++ NL :: crlf r.
Proof.
  induction l as [|c t IH]; intro H.
  - reflexivity.
  - cbn [app crlf]. destruct (Z.eqb_spec c NL) as [->|N].
    + exfalso. apply H. now left.
    + rewrite IH; [reflexivity|]. intro I. apply H. now right.
Qed.

Lemma crlf_blank (s : jsstring) :
  forallb is_ws s = true -> forallb is_ws (crlf s) = true.
Proof.
  induction s as [|c t IH]; [reflexivity|].
  cbn [forallb crlf]. intro H. apply andb_true_iff in H as [C H].
  destruct (c =? NL); cbn [forallb]; rewrite ?C, IH by assumption; reflexivity.
Qed.

Lemma cr_no_nl (l : jsstring) : ~ In NL l -> ~ In NL (l ++ [CR]).
Proof.
  intros H I. apply in_app_or in I as [I|[I|[]]]; [auto|discriminate].
Qed.

Lemma crlf_scan (T : jsstring) :
  snd (fst (scan (crlf T))) = snd (fst (scan T))
  /\ snd (scan (crlf T)) = snd (scan T)
  /\ (snd (scan T) = true -> fst (fst (scan (crlf T))) = crlf (fst (fst (scan T))))
  /\ flush_all (crlf T) = flush_all T.
Proof.
  induction T as [s H|l r H (Io & Id & Ib & If)] using lines_ind.
  - rewrite crlf_absent by assumption.
    rewrite scan_absent by assumption. cbn. repeat split. discriminate.
  - rewrite crlf_line by assumption.
    rewrite !scan_line, !flush_all_line by (try apply cr_no_nl; assumption).
    rewrite !flush_line_live, If.
    pose proof (live_line_cr l) as C.
    destruct (live_line l) as [d| |p], (live_line (l ++ [CR])) as [d'| |p'];
      cbn in C; try contradiction; subst; cbn; auto.
    + destruct (scan (crlf r)) as [[b1 o1] d1].
      destruct (scan r) as [[b2 o2] d2]. cbn in *. subst.
      repeat split; auto.
    + repeat split; auto. discriminate.
Qed.

Lemma crlf_settled (T : jsstring) : settled T -> settled (crlf T).
Proof.
  unfold settled. destruct (crlf_scan T) as (_ & Ed & Eb & _).
  intros [N|B]; [left; congruence|].
  destruct (snd (scan T)) eqn:D; [|left; congruence].
  right. rewrite (Eb eq_refl). apply trim_nil, crlf_blank. now apply trim_nil.
Qed.

(** X4. Lines terminated by carriage return and line feed count as
    lines terminated by line feed: a body whose text is that of
    another with every line feed preceded by a carriage return makes
    the same calls, however each is cut into chunks.  The text is taken
    settled: without sentinel, or with white space only after it. *)
Theorem crlf_is_transparent
  (resp1 resp2 : Response) (s1 s2 : ReadableStream) :
  ok resp1 = true -> body resp1 = Some s1 ->
  ok resp2 = true -> body resp2 = Some s2 ->
  ending s1 = ending s2 ->
  text_of new_TextDecoder (chunks s2)
  = crlf (text_of new_TextDecoder (chunks s1)) ->
  settled (text_of new_TextDecoder (chunks s1)) ->
  events (streamChat (fetch_resolves resp2))
  = events (streamChat (fetch_resolves resp1)).
Proof.
  intros O1 B1 O2 B2 Ee E St.
  rewrite (settled_session resp1 s1 O1 B1 St).
  rewrite (settled_session resp2 s2 O2 B2)
    by (rewrite E; now apply crlf_settled).
  rewrite E, Ee.
  destruct (crlf_scan (text_of new_TextDecoder (chunks s1))) as (Eo & Ed & _ & Ef).
  apply events_of_text_ext; auto using crlf_settled.
Qed.

(** ** Chunks one after the other *)

(** Reading [cs] and then [cs'] is reading [cs ++ cs']. *)
Lemma read_loop_app (cs cs' : list (list byte)) (e e' : stream_end) :
  forall st,
    read_loop st (cs ++ cs') e' = read_loop (fst (read_loop st cs e)) cs' e'.
Proof.
  induction cs as [|c cs IH]; intro st; cbn [app read_loop].
  - destruct (streamDone st) eqn:D.
    + cbn [fst]. now rewrite read_loop_done.
    + now destruct e.
  - destruct (streamDone st) eqn:D; [|apply IH].
    cbn [fst]. now rewrite read_loop_done.
Qed.

Lemma read_loop_extends (cs : list (list byte)) (e : stream_end) :
  forall st, exists more, deltas (fst (read_loop st cs e)) = deltas st ++ more.
Proof.
  induction cs as [|c cs IH]; intro st; cbn [read_loop].
  - exists []. rewrite app_nil_r. destruct (streamDone st); [reflexivity|].
    now destruct e.
  - destruct (streamDone st); [exists []; now rewrite app_nil_r|].
    destruct (IH (on_chunk st c)) as [more E]. rewrite E.
    unfold on_chunk. destruct (decode (decoder st) c) as [text d].
    destruct (scan (textBuffer st ++ text)) as [[b o] dn]. cbn [deltas].
    exists (o ++ more). now rewrite app_assoc.
Qed.

(** X5. A delta handed out is never taken back: the deltas of a
    session cut short by a failed read after the chunks [cs] open the
    deltas of every session whose source delivers [cs] and then more,
    however it ends. *)
Theorem deltas_only_grow (cs cs' : list (list byte)) (e : stream_end) :
  exists more,
    delta_texts (events (streamChat (respond (cs ++ cs') e)))
    = delta_texts (events (streamChat (respond cs Errored))) ++ more.
Proof.
  unfold respond.
  rewrite (streamChat_ok (success (cs ++ cs') e) (source (cs ++ cs') e)
             eq_refl eq_refl).
  rewrite (streamChat_ok (success cs Errored) (source cs Errored)
             eq_refl eq_refl).
  cbv zeta. cbn [chunks ending source].
  rewrite (read_loop_app cs cs' Errored e).
  destruct (session cs Errored) as [(D & X & _)|(D & X & _)]; rewrite X.
  - cbn [exit_of events]. rewrite delta_texts_deltas. cbn [delta_texts].
    rewrite app_nil_r.
    destruct (read_loop_extends cs' e (fst (read_loop initial_state cs Errored)))
      as [more E].
    destruct (snd (read_loop _ cs' e)); cbn [events];
      rewrite delta_texts_deltas, E; cbn [delta_texts]; rewrite app_nil_r.
    + eexists. rewrite <- app_assoc. reflexivity.
    + eexists. reflexivity.
  - rewrite read_loop_done by exact D. cbn [fst snd events].
    exists []. now rewrite app_nil_r.
Qed.

End Decoder.

(** * Runs on the browser platform *)

Lemma absent_by_test (c : Z) (s : jsstring) :
  forallb (fun x => negb (x =? c)) s = true -> ~ In c s.
Proof.
  intros H I. rewrite forallb_forall in H. specialize (H c I).
  now rewrite Z.eqb_refl in H.
Qed.

(** The three frames of the protocol, one chunk each. *)
Example hello_then_done :
  events (run_of [bytes (frame "Hel"); bytes (frame "lo"); bytes sentinel_frame]
            Closed)
  = [delta "Hel"; delta "lo"; onDone].
Proof. vm_compute. reflexivity. Qed.

(** A chunk boundary inside the second payload. *)
Example split_inside_payload :
  events
    (run_of
       [bytes (frame "Hel" ++ "data: {" ++ quoted "choices" ++ ":[{"
               ++ quoted "delta");
        bytes (":{" ++ quoted "content" ++ ":" ++ quoted "lo" ++ "}}]}" ++ LF
               ++ sentinel_frame)]
       Closed)
  = [delta "Hel"; delta "lo"; onDone].
Proof. vm_compute. reflexivity. Qed.

(** Comment lines and blank lines give nothing. *)
Example keep_alive :
  events
    (run_of [bytes (": keep-alive" ++ LF ++ LF ++ frame "Hel" ++ CRLF)] Closed)
  = [delta "Hel"; onDone].
Proof. vm_compute. reflexivity. Qed.

(** A character of three bytes cut after its first byte. *)
Example split_inside_character :
  let euro := [xe2; x82; xac] in
  let before := bytes ("data: {" ++ quoted "choices" ++ ":[{" ++ quoted "delta"
                       ++ ":{" ++ quoted "content" ++ ":" ++ QUOTE) in
  let after := bytes (QUOTE ++ "}}]}" ++ LF) in
  events (run_of [before ++ [xe2]; [x82; xac] ++ after] Closed)
  = [onDelta (JString [8364]); onDone]
  /\ events (run_of [before ++ euro ++ after] Closed)
     = [onDelta (JString [8364]); onDone].
Proof. vm_compute. split; reflexivity. Qed.

(** The decoder drops a leading byte order mark, writes a code point
    above U+FFFF as a surrogate pair, and replaces a byte that cannot
    continue a character, which is then read again. *)
Example decoder_runs :
  fst (decode (platform := browser) new_TextDecoder
         [xef; xbb; xbf; xf0; x9f; x98; x80; xc3; x28])
  = [55357; 56832; 65533; 40].
Proof. vm_compute. reflexivity. Qed.

(** ** The final flush *)




(** ** The claims on concrete streams *)

Lemma C2_one_terminal_call_witness :
  let r := run_of [bytes not_json_frame] Closed in
  flushed r = true
  /\ exists live,
      events r = map onDelta (live ++ final_flush (leftover r)) ++ [onDone].
Proof.
  refine (proj2 (proj2 (@C2_one_terminal_call browser
                          (respond [bytes not_json_frame] Closed)))
            (success [bytes not_json_frame] Closed)
            (source [bytes not_json_frame] Closed)
            eq_refl eq_refl eq_refl eq_refl _).
  vm_compute. reflexivity.
Defined.

(** The bytes after a sentinel line are flushed when they came in the
    chunk of the sentinel, and never read when they came later. *)
Lemma C1_counterexample :
  concat [bytes sentinel_frame; bytes (frame "lo")]
  = bytes (sentinel_frame ++ frame "lo")
  /\ delta_texts
       (events (run_of [bytes sentinel_frame; bytes (frame "lo")] Closed))
     = []
  /\ delta_texts
       (events (run_of [bytes (sentinel_frame ++ frame "lo")] Closed))
     = [JString (str "lo")].
Proof. vm_compute. repeat split. Qed.

Lemma C1_chunking_witness :
  let cut :=
    [bytes (frame "Hel" ++ "data: {" ++ quoted "choices" ++ ":[{"
            ++ quoted "delta");
     bytes (":{" ++ quoted "content" ++ ":" ++ quoted "lo" ++ "}}]}" ++ LF
            ++ sentinel_frame ++ LF)] in
  events (run_of cut Closed) = events (run_of [concat cut] Closed)
  /\ delta_texts (events (run_of cut Closed))
     = delta_texts (events (run_of [concat cut] Closed)).
Proof.
  cbv zeta.
  refine (@C1_chunking browser (success _ Closed) (source _ Closed)
            eq_refl eq_refl _).
  right. vm_compute. reflexivity.
Defined.

(** One chunk holds the sentinel line and a frame after it: the
    sentinel is met, and the frame still gives its delta. *)
Lemma C3_counterexample :
  let r := run_of [bytes (sentinel_frame ++ frame "lo")] Closed in
  sentinel_seen r = true
  /\ events r = [delta "lo"; onDone]
  /\ events (run_of [bytes sentinel_frame] Closed) = [onDone].
Proof. vm_compute. repeat split. Qed.

Lemma C3_sentinel_stops_reading_witness :
  let r := run_of [bytes (frame "Hel" ++ sentinel_frame); bytes (frame "lo")]
             Errored in
  flushed r = true
  /\ exists cs1 c cs2 live,
      [bytes (frame "Hel" ++ sentinel_frame); bytes (frame "lo")]
      = cs1 ++ c :: cs2
      /\ chunks_read r = (length cs1 + 1)%nat
      /\ scan (text_of (platform := browser) new_TextDecoder (cs1 ++ [c]))
         = (leftover r, live, true)
      /\ sentinel_shape
           (text_of (platform := browser) new_TextDecoder (cs1 ++ [c]))
           (leftover r)
      /\ events r = map onDelta (live ++ final_flush (leftover r)) ++ [onDone]
      /\ forall cs2' e',
          @streamChat browser
            (fetch_resolves
               (with_body
                  (success
                     [bytes (frame "Hel" ++ sentinel_frame); bytes (frame "lo")]
                     Errored)
                  {| chunks := cs1 ++ c :: cs2'; ending := e' |}))
          = r.
Proof.
  refine (@C3_sentinel_stops_reading browser (success _ Errored)
            (source _ Errored) eq_refl eq_refl _).
  vm_compute. reflexivity.
Defined.

Lemma C4_split_frame_pushed_back_witness :
  let value := bytes (not_json_frame ++ frame "lo") in
  let st := on_chunk (platform := browser) initial_state value in
  scan (platform := browser) (str "data: not-json" ++ NL :: str (frame "lo"))
  = (str "data: not-json" ++ NL :: str (frame "lo"), [], false)
  /\ textBuffer st = str (not_json_frame ++ frame "lo")
  /\ streamDone st = false
  /\ deltas st = []
  /\ forall rest e,
      read_loop (platform := browser) initial_state (value :: rest) e
      = read_loop st rest e.
Proof.
  cbv zeta.
  destruct (@C4_split_frame_pushed_back browser initial_state
              (bytes (not_json_frame ++ frame "lo"))
              [] (str "data: not-json") (str (frame "lo")))
    as (A & B & C & D & E).
  - vm_compute. reflexivity.
  - constructor.
  - apply absent_by_test. vm_compute. reflexivity.
  - vm_compute. reflexivity.
  - vm_compute. discriminate.
  - vm_compute. reflexivity.
  - split; [exact A|]. split; [exact B|]. split; [exact C|].
    split; [exact D|]. intros rest e. now apply E.
Defined.

Lemma C6_transport_failure_witness :
  let cs := [bytes (frame "Hel"); bytes ("data: " ++ payload "lo")] in
  let r := run_of cs Errored in
  let T := text_of (platform := browser) new_TextDecoder cs in
  events r = map onDelta (snd (fst (scan T))) ++ [onError NETWORK_FAILED]
  /\ delta_texts (events r) = snd (fst (scan T))
  /\ terminal_calls (events r) = 1%nat
  /\ ~ In onDone (events r)
  /\ flushed r = false
  /\ chunks_read r = 2%nat.
Proof.
  refine (@C6_transport_failure browser (success _ Errored)
            (source _ Errored) eq_refl eq_refl eq_refl _).
  vm_compute. reflexivity.
Defined.

(** What a read that throws leaves unflushed; the same bytes from a
    source that closes give one more delta. *)
Example no_flush_after_failure :
  let cs := [bytes (frame "Hel"); bytes ("data: " ++ payload "lo")] in
  events (run_of cs Errored) = [delta "Hel"; onError NETWORK_FAILED]
  /\ events (run_of cs Closed) = [delta "Hel"; delta "lo"; onDone].
Proof. vm_compute. split; reflexivity. Qed.

(** Status 429 with a body that carries its own [error]: the message
    is the one of the body, and the body has been read. *)
Lemma C7_counterexample :
  let f := fetch_resolves (refusal 429 [bytes (error_body "boom")] Closed) in
  events (@streamChat browser f) = [onError (JString (str "boom"))]
  /\ JString (str "boom") <> RATE_LIMIT
  /\ @body_left browser f
     = Some {| queue := []; source_end := Closed; locked := true |}.
Proof. vm_compute. split; [reflexivity|split; [discriminate|reflexivity]]. Qed.

Lemma C7_rejected_status_witness :
  let resp :=
    refusal 429
      [bytes "{"; bytes (quoted "error" ++ ":" ++ quoted "boom" ++ "}")]
      Closed in
  let r := @streamChat browser (fetch_resolves resp) in
  events r =
    [onError
       match member (str "error") (errorData_of resp) with
       | Normal error => or_else error (status_message 429)
       | Throw => NETWORK_FAILED
       end]
  /\ (member (str "error") (errorData_of resp) = Throw
      <-> Response_json resp = Some JNull)
  /\ (Response_json resp = None ->
      events r = [onError (status_message 429)])
  /\ delta_texts (events r) = []
  /\ ~ In onDone (events r)
  /\ forall s,
      body resp = Some s ->
      exists b,
        @body_left browser (fetch_resolves resp) = Some b
        /\ queue b = [] /\ locked b = true /\ getReader b = Throw.
Proof.
  exact (@C7_rejected_status browser
           (refusal 429
              [bytes "{"; bytes (quoted "error" ++ ":" ++ quoted "boom" ++ "}")]
              Closed)
           eq_refl).
Defined.

(** The messages of a refusal: the one of the body, the one of the
    status when the body is not JSON or names no error, the one of a
    network failure when the body is [null]. *)
Example refusal_messages :
  let said (code : Z) (text : string) (e : stream_end) :=
    events (@streamChat browser (fetch_resolves (refusal code [bytes text] e))) in
  said 429 (error_body "boom") Closed = [onError (JString (str "boom"))]
  /\ said 429 (error_body "boom") Errored = [onError RATE_LIMIT]
  /\ said 429 (error_body EmptyString) Closed = [onError RATE_LIMIT]
  /\ said 402 "Payment Required"%string Closed = [onError QUOTA]
  /\ said 500 "{}"%string Closed = [onError CONNECTION_FAILED]
  /\ said 429 "null"%string Closed = [onError NETWORK_FAILED]
  /\ events (@streamChat browser
               (fetch_resolves {| status := 429; body := None |}))
     = [onError RATE_LIMIT].
Proof. vm_compute. repeat split. Qed.

(** A refused response whose body carries frames: none of them is
    decoded, where the same body under status 200 gives its delta. *)
Example refusal_with_frames :
  let cs := [bytes (frame "Hel" ++ sentinel_frame)] in
  events (@streamChat browser (fetch_resolves (refusal 500 cs Closed)))
  = [onError CONNECTION_FAILED]
  /\ events (run_of cs Closed) = [delta "Hel"; onDone].
Proof. vm_compute. split; reflexivity. Qed.

(** A body that ends inside a character is not JSON, though the text
    before the end is. *)
Example refusal_cut_short :
  let cut := bytes (error_body "boom") ++ [xe2] in
  Response_json (platform := browser) (refusal 429 [cut] Closed) = None
  /\ @JSON_parse browser
       (fst (decode (platform := browser) new_TextDecoder cut))
     = Some (JObject [(str "error", JString (str "boom"))]).
Proof. vm_compute. split; reflexivity. Qed.

(** A line with a carriage return that does not parse: the buffer is
    not a suffix of the text received. *)
Lemma C8_counterexample :
  let value := bytes ("data: {" ++ CRLF) in
  let st := on_chunk (platform := browser) initial_state value in
  fst (decode (platform := browser) new_TextDecoder value)
  = str ("data: {" ++ CRLF)
  /\ textBuffer st = str ("data: {" ++ LF)
  /\ ~ exists pre, str ("data: {" ++ CRLF) = pre ++ textBuffer st.
Proof.
  cbv zeta. split; [vm_compute; reflexivity|].
  split; [vm_compute; reflexivity|].
  replace (textBuffer _) with (str ("data: {" ++ LF))
    by (vm_compute; reflexivity).
  intros [pre E]. vm_compute in E.
  destruct pre as [|a [|b pre]]; [discriminate|discriminate|].
  apply (f_equal (@length Z)) in E. cbn in E. rewrite length_app in E.
  cbn in E. lia.
Qed.

(** The sentinel, the end of the source and a read that throws: after
    each the body is locked, no reader can be taken, and what was not
    read is still queued. *)
Lemma C9_counterexample :
  let left cs e := @body_left browser (respond cs e) in
  let held rest e :=
    Some {| queue := rest; source_end := e; locked := true |} in
  left [bytes (frame "Hel" ++ sentinel_frame); bytes (frame "lo")] Closed
  = held [bytes (frame "lo")] Closed
  /\ left [bytes (frame "Hel")] Closed = held [] Closed
  /\ left [bytes (frame "Hel")] Errored = held [] Errored
  /\ forall rest e, option_map getReader (held rest e) = Some Throw.
Proof. vm_compute. repeat split. Qed.

Lemma C9_reader_never_released_witness :
  let cs := [bytes (frame "Hel" ++ sentinel_frame); bytes (frame "lo")] in
  let r := run_of cs Closed in
  exists b,
    @body_left browser (respond cs Closed) = Some b
    /\ locked b = true
    /\ getReader b = Throw
    /\ queue b = skipn (chunks_read r) cs
    /\ ((sentinel_seen r = true
         /\ exists ds, events r = map onDelta ds ++ [onDone])
        \/ (sentinel_seen r = false /\ Closed = Closed /\ queue b = []
            /\ exists ds, events r = map onDelta ds ++ [onDone])
        \/ (sentinel_seen r = false /\ Closed = Errored /\ queue b = []
            /\ exists ds,
                events r = map onDelta ds ++ [onError NETWORK_FAILED]))
    /\ getReader (opened (source cs Closed)) = Normal (lock_of (source cs Closed))
    /\ exists st exit,
        reads_to (platform := browser) initial_state
          (lock_of (source cs Closed)) st exit b.
Proof.
  exact (@C9_reader_never_released browser
           (success [bytes (frame "Hel" ++ sentinel_frame); bytes (frame "lo")]
              Closed)
           (source [bytes (frame "Hel" ++ sentinel_frame); bytes (frame "lo")]
              Closed)
           eq_refl eq_refl).
Defined.

Lemma C10_flush_skips_sentinel_witness :
  let r := run_of [bytes (not_json_frame ++ sentinel_frame ++ frame "lo")]
             Closed in
  final_flush (platform := browser) (leftover r)
  = flat_map flush_line [str "data: not-json"]
    ++ flat_map flush_line [str ("data: " ++ payload "lo"); []]
  /\ (exists live,
        events r =
        map onDelta
          (live ++ flat_map flush_line [str "data: not-json"]
           ++ flat_map flush_line [str ("data: " ++ payload "lo"); []])
        ++ [onDone])
  /\ forall l c,
      In l [str ("data: " ++ payload "lo"); []] ->
      live_line (platform := browser) l = Continue (Some c) ->
      In (onDelta c) (events r).
Proof.
  refine (@C10_flush_skips_sentinel browser (success _ Closed)
            (source _ Closed)
            [str "data: not-json"] [str ("data: " ++ payload "lo"); []]
            (str "data: [DONE]") eq_refl eq_refl _ _ _);
    vm_compute; reflexivity.
Defined.

(** A sentinel line in the buffer at the flush, and the frame after it. *)
Example sentinel_in_flush :
  events (run_of [bytes (not_json_frame ++ sentinel_frame ++ frame "lo")] Closed)
  = [delta "lo"; onDone].
Proof. vm_compute. reflexivity. Qed.

(** * Well-formed streams in the browser *)

Lemma str_app (a b : string) : str (a ++ b) = str a ++ str b.
Proof.
  unfold str. induction a as [|c a IH]; [reflexivity|].
  cbn. f_equal. exact IH.
Qed.

Lemma bytes_app (a b : string) : bytes (a ++ b) = bytes a ++ bytes b.
Proof.
  unfold bytes. induction a as [|c a IH]; [reflexivity|].
  cbn. f_equal. exact IH.
Qed.

Lemma str_cons (a : ascii) (s : string) :
  str (String a s) = Z.of_N (N_of_ascii a) :: str s.
Proof. reflexivity. Qed.

Lemma byte_code (a : ascii) :
  Z.of_N (Byte.to_N (byte_of_ascii a)) = Z.of_N (N_of_ascii a).
Proof. destruct a as [[] [] [] [] [] [] [] []]; reflexivity. Qed.

Lemma ascii_only_app (a b : string) :
  ascii_only (a ++ b) = ascii_only a && ascii_only b.
Proof.
  induction a as [|c a IH]; [reflexivity|].
  cbn. now rewrite IH, andb_assoc.
Qed.

Lemma plain_ascii_only (s : string) : plain s = true -> ascii_only s = true.
Proof.
  induction s as [|a s IH]; [reflexivity|]. cbn [plain ascii_only].
  unfold plain_char. cbv zeta. intro H.
  repeat (apply andb_true_iff in H as [H ?]).
  rewrite IH by assumption. lia.
Qed.

(** The decoder writes ASCII bytes as they are. *)
Lemma decode_ascii (s : string) :
  ascii_only s = true ->
  forall bom,
    decode (platform := browser) (Utf8.fresh bom) (bytes s)
    = (str s, match s with
              | EmptyString => Utf8.fresh bom
              | String _ _ => Utf8.fresh true
              end).
Proof.
  induction s as [|a s IH]; intros A bom; [reflexivity|].
  cbn [ascii_only] in A. apply andb_true_iff in A as [A1 A2].
  change (bytes (String a s)) with (byte_of_ascii a :: bytes s).
  cbn [decode]. rewrite str_cons.
  assert (E : decode_byte (Platform := browser) (Utf8.fresh bom) (byte_of_ascii a)
              = ([Z.of_N (N_of_ascii a)], Utf8.fresh true)).
  { cbn [decode_byte browser]. unfold Utf8.decode_byte, Utf8.handler.
    rewrite byte_code. cbn [Utf8.fresh Utf8.bytes_needed Utf8.bom_seen].
    cbn [Z.eqb]. unfold Utf8.lead. rewrite A1.
    cbn [Utf8.fresh Utf8.bom_seen Utf8.strip_bom].
    assert (F : (Z.of_N (N_of_ascii a) =? 65279) = false) by lia.
    destruct bom; rewrite ?F; cbn [flat_map app]; unfold Utf8.utf16;
      (replace (Z.of_N (N_of_ascii a) <? 65536) with true by lia);
      reflexivity. }
  rewrite E, (IH A2 true). cbn [app]. f_equal. now destruct s.
Qed.

Lemma string_body_plain (s : string) (rest : jsstring) :
  plain s = true -> JSON.string_body (str s ++ 34 :: rest) = Some (str s, rest).
Proof.
  induction s as [|a s IH]; intro P.
  - cbn. reflexivity.
  - cbn [plain] in P. apply andb_true_iff in P as [Pa Ps].
    unfold plain_char in Pa. cbv zeta in Pa.
    rewrite str_cons. cbn [app JSON.string_body].
    replace (Z.of_N (N_of_ascii a) =? 34) with false by lia.
    replace (Z.of_N (N_of_ascii a) =? 92) with false by lia.
    replace (Z.of_N (N_of_ascii a) <? 32) with false by lia.
    rewrite (IH Ps). reflexivity.
Qed.

Lemma payload_text (s : string) :
  str (payload s)
  = str ("{" ++ quoted "choices" ++ ":[{" ++ quoted "delta" ++ ":{"
         ++ quoted "content" ++ ":" ++ QUOTE)
    ++ str s ++ str (QUOTE ++ "}}]}").
Proof.
  unfold payload, quoted. rewrite !str_app, <- !app_assoc. reflexivity.
Qed.

Lemma value_string (n : nat) (t body rest : jsstring) :
  JSON.string_body t = Some (body, rest) ->
  JSON.value (S n) (34 :: t) = Some (JString body, rest).
Proof. intro H. cbn. now rewrite H. Qed.

Lemma value_object1 (n : nat) (t key t1 rest : jsstring) (v : json) :
  JSON.string_body t = Some (key, 58 :: t1) ->
  JSON.value n t1 = Some (v, 125 :: rest) ->
  JSON.value (S (S n)) (123 :: 34 :: t) = Some (JObject [(key, v)], rest).
Proof. intros Hk Hv. cbn. rewrite Hk. cbn. now rewrite Hv. Qed.

Lemma value_array1 (n : nat) (t rest : jsstring) (v : json) :
  JSON.value n (123 :: t) = Some (v, 93 :: rest) ->
  JSON.value (S (S n)) (91 :: 123 :: t) = Some (JArray [v], rest).
Proof. intros Hv. cbn. now rewrite Hv. Qed.

Lemma payload_shape (s : string) :
  str (payload s)
  = 123 :: 34 ::
      (str "choices" ++ 34 :: 58 :: 91 :: 123 :: 34 ::
         (str "delta" ++ 34 :: 58 :: 123 :: 34 ::
            (str "content" ++ 34 :: 58 :: 34 ::
               (str s ++ [34; 125; 125; 93; 125])))).
Proof.
  unfold payload, quoted. rewrite !str_app, <- !app_assoc. reflexivity.
Qed.

(** What [JSON.parse] makes of a payload. *)
Lemma parse_payload (s : string) :
  plain s = true ->
  JSON.parse (str (payload s))
  = Some (JObject
            [(str "choices",
              JArray
                [JObject
                   [(str "delta",
                     JObject [(str "content", JString (str s))])]])]).
Proof.
  intro P. unfold JSON.parse.
  assert (F : exists n, (2 * length (str (payload s)) + 2 = 9 + n)%nat).
  { exists (2 * length (str (payload s)) + 2 - 9)%nat.
    rewrite payload_shape. cbn [length]. rewrite !length_app. cbn [length].
    lia. }
  destruct F as [n ->]. rewrite payload_shape.
  change (9 + n)%nat with (S (S (S (S (S (S (S (S (S n))))))))).
  match goal with
  | |- match JSON.value ?k ?text with _ => _ end = Some ?obj =>
      assert (V : JSON.value k text = Some (obj, []))
  end.
  { eapply value_object1; [now apply string_body_plain|].
    apply value_array1.
    eapply value_object1; [now apply string_body_plain|].
    eapply value_object1; [now apply string_body_plain|].
    apply value_string. now apply (string_body_plain s [125; 125; 93; 125]). }
  now rewrite V.
Qed.

Lemma trim_solid (x y z : jsstring) (c d : Z) :
  x = c :: y -> x = z ++ [d] -> is_ws c = false -> is_ws d = false ->
  trim x = x.
Proof.
  intros Ec Ed Wc Wd. unfold trim, trimEnd.
  assert (S1 : trimStart x = x) by (rewrite Ec; cbn; now rewrite Wc).
  rewrite S1. rewrite Ed at 1. rewrite rev_app_distr. cbn [rev app trimStart].
  rewrite Wd. change (d :: rev z) with ([d] ++ rev z).
  rewrite rev_app_distr, rev_involutive. cbn [rev app]. now symmetry.
Qed.

Lemma payload_ends (s : string) :
  exists z, str (payload s) = z ++ [125].
Proof.
  rewrite payload_text.
  change (str (QUOTE ++ "}}]}")) with ([34; 125; 125; 93] ++ [125]).
  eexists. rewrite !app_assoc. reflexivity.
Qed.

Lemma plain_no_nl (s : string) : plain s = true -> ~ In NL (str s).
Proof.
  induction s as [|a s IH]; intro P; [intros []|].
  cbn [plain] in P. apply andb_true_iff in P as [Pa Ps].
  unfold plain_char in Pa. cbv zeta in Pa. rewrite str_cons.
  intros [E|I]; [unfold NL in E; lia|now apply IH].
Qed.

Lemma payload_no_nl (s : string) : plain s = true -> ~ In NL (str (payload s)).
Proof.
  intros P I. rewrite payload_text in I.
  apply in_app_or in I as [I|I].
  - revert I. apply absent_by_test. reflexivity.
  - apply in_app_or in I as [I|I]; [now apply (plain_no_nl s)|].
    revert I. apply absent_by_test. reflexivity.
Qed.

Lemma content_text_plain (s : string) :
  content_text s = true -> plain s = true /\ str s <> [].
Proof. destruct s; [discriminate|]. intro P. split; [exact P|discriminate]. Qed.

(** The line of a frame gives its content. *)
Lemma frame_line (s : string) :
  content_text s = true ->
  live_line (platform := browser) (DATA ++ str (payload s))
  = Continue (Some (JString (str s))).
Proof.
  intro C. destruct (content_text_plain s C) as [P N].
  destruct (payload_ends s) as [z Ez].
  rewrite live_line_classify.
  assert (Ch : chomp (DATA ++ str (payload s)) = DATA ++ str (payload s)).
  { destruct (chomp_cases (DATA ++ str (payload s)))
      as [(q & E & _)|[_ E]]; [|exact E].
    exfalso. rewrite Ez, app_assoc in E.
    apply app_inj_tail in E as [_ E]. discriminate. }
  rewrite Ch, classify_data. cbv zeta.
  rewrite (trim_solid (str (payload s)) _ z 123 125 (payload_shape s) Ez)
    by reflexivity.
  destruct (str_eqb_spec (str (payload s)) DONE) as [E|_].
  { rewrite payload_shape in E. discriminate. }
  change (JSON_parse (str (payload s))) with (JSON.parse (str (payload s))).
  rewrite (parse_payload s P).
  change (delta_content _) with (Normal (Some (JString (str s)))).
  cbn [truthy]. destruct (str_eqb_spec (str s) []); [contradiction|reflexivity].
Qed.

Lemma frame_text (s : string) (rest : string) :
  str (frame s ++ rest) = (DATA ++ str (payload s)) ++ NL :: str rest.
Proof.
  unfold frame. rewrite !str_app, <- !app_assoc. reflexivity.
Qed.

Lemma scan_frames (contents : list string) (rest : jsstring) :
  Forall (fun s => content_text s = true) contents ->
  scan (platform := browser) (str (frames contents) ++ rest)
  = (fst (fst (scan rest)),
     map (fun s => JString (str s)) contents ++ snd (fst (scan rest)),
     snd (scan rest)).
Proof.
  induction 1 as [|s contents C _ IH]; cbn [frames map app].
  - change (str EmptyString ++ rest) with rest.
    now destruct (scan rest) as [[b o] d].
  - rewrite frame_text, <- app_assoc. cbn [app].
    rewrite scan_line.
    + rewrite (frame_line s C), IH. reflexivity.
    + intro I. apply in_app_or in I as [I|I].
      * revert I. apply absent_by_test. reflexivity.
      * revert I. apply payload_no_nl. now apply content_text_plain.
Qed.

Lemma frames_ascii (contents : list string) :
  Forall (fun s => content_text s = true) contents ->
  ascii_only (frames contents) = true.
Proof.
  induction 1 as [|s contents C _ IH]; [reflexivity|].
  cbn [frames]. unfold frame, payload, quoted.
  rewrite !ascii_only_app, IH.
  rewrite (plain_ascii_only s) by now apply content_text_plain.
  reflexivity.
Qed.

(** X6. In the browser, a body that carries frames and then the
    sentinel gives the contents of the frames, in order, and then
    [onDone], wherever the chunk boundaries fall and however the source
    ends after the sentinel.  The contents are texts of ASCII
    characters that JSON writes as they are, none of them empty. *)
Theorem frames_then_sentinel
  (contents : list string) (cs : list (list byte)) (e : stream_end) :
  Forall (fun s => content_text s = true) contents ->
  concat cs = bytes (frames contents ++ sentinel_frame) ->
  events (run_of cs e) = map delta contents ++ [onDone].
Proof.
  intros C E. unfold run_of, respond.
  assert (T : text_of (platform := browser) new_TextDecoder cs
              = str (frames contents) ++ str sentinel_frame).
  { unfold text_of. rewrite E.
    change (new_TextDecoder (Platform := browser)) with (Utf8.fresh false).
    rewrite decode_ascii.
    - cbn [fst]. apply str_app.
    - rewrite ascii_only_app, frames_ascii by assumption. reflexivity. }
  assert (Sc : scan (platform := browser)
                 (str (frames contents) ++ str sentinel_frame)
               = ([], map (fun s => JString (str s)) contents, true)).
  { rewrite scan_frames by assumption.
    replace (scan (str sentinel_frame)) with (@nil Z, @nil json, true)
      by (vm_compute; reflexivity).
    cbn [fst snd]. now rewrite app_nil_r. }
  rewrite (settled_session (success cs e) (source cs e) eq_refl eq_refl).
  - cbn [chunks ending source]. unfold events_of_text. rewrite T, Sc.
    change (final_flush []) with (@nil json).
    rewrite app_nil_r, map_map. reflexivity.
  - cbn [chunks source]. right. now rewrite T, Sc.
Qed.

Lemma frames_then_sentinel_witness :
  events
    (run_of
       [bytes (frame "Hel" ++ "data: {" ++ quoted "choices" ++ ":[{"
               ++ quoted "delta");
        bytes (":{" ++ quoted "content" ++ ":" ++ quoted "lo" ++ "}}]}" ++ LF
               ++ sentinel_frame)]
       Errored)
  = map delta ["Hel"; "lo"]%string ++ [onDone].
Proof.
  apply (frames_then_sentinel ["Hel"; "lo"]%string).
  - repeat constructor.
  - vm_compute. reflexivity.
Defined.

(** * ChatInterface *)

Section ChatInterface.

Context {platform : Platform}.
Variable ToString : json -> jsstring.

Lemma callback_deltas (rendered : Chat.state) (aid : jsstring)
  (ds : list json) :
  forall st,
    fold_left (Chat.callback ToString rendered aid) (map onDelta ds) st
    = {| Chat.messages := Chat.messages st;
         Chat.isStreaming := Chat.isStreaming st;
         Chat.currentResponse :=
           Chat.currentResponse st ++ flat_map (Chat.shown ToString) ds;
         Chat.toasts := Chat.toasts st |}.
Proof.
  induction ds as [|d ds IH]; intro st.
  - cbn. rewrite app_nil_r. now destruct st.
  - cbn [map fold_left]. rewrite IH. cbn [Chat.callback Chat.messages
      Chat.isStreaming Chat.currentResponse Chat.toasts flat_map].
    unfold Chat.plus. now rewrite <- app_assoc.
Qed.

(** A run of deltas closed by one call. *)
Lemma send_trace
  (rendered st : Chat.state) (userMessage newId aid : jsstring)
  (f : fetch_outcome) (ds : list json) (last : event) :
  events (streamChat f) = map onDelta ds ++ [last] ->
  Chat.handleSendMessage ToString rendered st userMessage newId aid f
  = Chat.callback ToString rendered aid
      {| Chat.messages :=
           Chat.messages st
           ++ [{| Chat.id := newId; Chat.role_of := Chat.user;
                  Chat.content := userMessage |}];
         Chat.isStreaming := true;
         Chat.currentResponse := flat_map (Chat.shown ToString) ds;
         Chat.toasts := Chat.toasts st |}
      last.
Proof.
  intro E. unfold Chat.handleSendMessage. rewrite E, fold_left_app.
  rewrite callback_deltas. reflexivity.
Qed.

(** X7. When the stream completes, the assistant message that [onDone]
    appends holds the [currentResponse] of the render in which the
    message was sent, not the text that was streamed: whatever the
    deltas were, they are dropped with the reset of [currentResponse]. *)
Theorem completed_message_ignores_the_stream
  (rendered st : Chat.state) (userMessage newId aid : jsstring)
  (f : fetch_outcome) (ds : list json) :
  events (streamChat f) = map onDelta ds ++ [onDone] ->
  Chat.handleSendMessage ToString rendered st userMessage newId aid f
  = {| Chat.messages :=
         Chat.messages st
         ++ [{| Chat.id := newId; Chat.role_of := Chat.user;
                Chat.content := userMessage |};
             {| Chat.id := aid; Chat.role_of := Chat.assistant;
                Chat.content := Chat.currentResponse rendered |}];
       Chat.isStreaming := false;
       Chat.currentResponse := [];
       Chat.toasts := Chat.toasts st |}.
Proof.
  intro E. rewrite (send_trace _ _ _ _ _ _ ds onDone E).
  cbn. now rewrite <- app_assoc.
Qed.

(** X8. When the stream fails, the error is given to [toast.error],
    the user's message stays in the list without an answer, and the
    partial response is dropped. *)
Theorem failed_stream_is_reported
  (rendered st : Chat.state) (userMessage newId aid : jsstring)
  (f : fetch_outcome) (ds : list json) (error : json) :
  events (streamChat f) = map onDelta ds ++ [onError error] ->
  Chat.handleSendMessage ToString rendered st userMessage newId aid f
  = {| Chat.messages :=
         Chat.messages st
         ++ [{| Chat.id := newId; Chat.role_of := Chat.user;
                Chat.content := userMessage |}];
       Chat.isStreaming := false;
       Chat.currentResponse := [];
       Chat.toasts := Chat.toasts st ++ [error] |}.
Proof.
  intro E. now rewrite (send_trace _ _ _ _ _ _ ds (onError error) E).
Qed.

(** X9. In every session that comes to an end, that is, whenever
    [fetch] settles and the source closes or fails after finitely many
    chunks, [handleSendMessage] ends with the component idle
    ([isStreaming] false, [currentResponse] empty), with every earlier
    message kept and the user's message after them, and with either one
    assistant message more or one toast more, never both and never
    neither.  A [fetch] that never settles and a source that stalls are
    outside this statement: nothing in [streamChat] times out, and the
    component then stays as the last delta left it. *)
Theorem send_always_settles
  (rendered st : Chat.state) (userMessage newId aid : jsstring)
  (f : fetch_outcome) :
  let final :=
    Chat.handleSendMessage ToString rendered st userMessage newId aid f in
  let sent :=
    {| Chat.id := newId; Chat.role_of := Chat.user;
       Chat.content := userMessage |} in
  Chat.isStreaming final = false
  /\ Chat.currentResponse final = []
  /\ ((exists answer,
         Chat.messages final = Chat.messages st ++ [sent; answer]
         /\ Chat.role_of answer = Chat.assistant
         /\ Chat.toasts final = Chat.toasts st)
      \/
      (exists error,
         Chat.messages final = Chat.messages st ++ [sent]
         /\ Chat.toasts final = Chat.toasts st ++ [error])).
Proof.
  cbv zeta.
  destruct (streamChat_trace f) as (ds & last & E & [->|[m ->]]);
    rewrite (send_trace _ _ _ _ _ _ ds _ E); cbn.
  - split; [reflexivity|split; [reflexivity|left]].
    eexists. rewrite <- app_assoc. cbn. repeat split.
  - split; [reflexivity|split; [reflexivity|right]]. eauto.
Qed.

(** X10. While the stream runs, the response on display is the
    concatenation of the deltas received so far, the list of messages
    is the one the send left, and the component is streaming. *)
Theorem display_follows_the_deltas
  (rendered st : Chat.state) (userMessage newId aid : jsstring)
  (f : fetch_outcome) (ds : list json) (last : event) (k : nat) :
  events (streamChat f) = map onDelta ds ++ [last] ->
  (k <= length ds)%nat ->
  fold_left (Chat.callback ToString rendered aid)
    (firstn k (events (streamChat f)))
    (Chat.sending st
       {| Chat.id := newId; Chat.role_of := Chat.user;
          Chat.content := userMessage |})
  = {| Chat.messages :=
         Chat.messages st
         ++ [{| Chat.id := newId; Chat.role_of := Chat.user;
                Chat.content := userMessage |}];
       Chat.isStreaming := true;
       Chat.currentResponse := flat_map (Chat.shown ToString) (firstn k ds);
       Chat.toasts := Chat.toasts st |}.
Proof.
  intros E K. rewrite E, firstn_app, length_map.
  replace (k - length ds)%nat with 0%nat by lia.
  cbn [firstn]. rewrite app_nil_r, firstn_map, callback_deltas.
  reflexivity.
Qed.

End ChatInterface.

(** * The edge functions *)

Section EdgeFunctions.

Context {platform : Platform}.
Variable JSON_stringify : json -> jsstring.
Variable TypeError_message : jsstring -> jsstring.
Variable match_fence : jsstring -> option (jsstring * jsstring).
Variable match_braces : jsstring -> option jsstring.

Local Abbreviation handler := (Endpoint.handler JSON_stringify TypeError_message).
Local Abbreviation image_handler :=
  (Endpoint.image_handler TypeError_message match_fence match_braces).

Ltac branches :=
  repeat match goal with
         | |- context [match ?x with _ => _ end] => destruct x eqn:?
         | |- context [if ?x then _ else _] => destruct x eqn:?
         end.

Lemma or_else_truthy (a : option json) (b : json) :
  truthy b = true -> truthy (or_else a b) = true.
Proof.
  intro B. unfold or_else. destruct a as [v|]; [|exact B].
  now destruct (truthy v) eqn:E.
Qed.

(** X11. The AI endpoint answers every request, with status 200, 400,
    402, 429 or 500 and nothing else, and every answer carries the four
    CORS headers. *)
Theorem handler_statuses
  (req : Endpoint.Request) (key : option jsstring)
  (fetch : Endpoint.Call -> Endpoint.promise Endpoint.Upstream) :
  In (Endpoint.reply_status (fst (handler req key fetch)))
     [200; 400; 402; 429; 500]
  /\ incl Endpoint.corsHeaders
       (Endpoint.reply_headers (fst (handler req key fetch))).
Proof.
  unfold Endpoint.handler, Endpoint.caught, Endpoint.error_reply,
    Endpoint.preflight, Endpoint.json_headers.
  branches; cbn [fst Endpoint.reply_status Endpoint.reply_headers];
    (split; [cbn; tauto|]);
    try apply incl_refl; apply incl_tl, incl_refl.
Qed.

(** X12. The AI endpoint calls the gateway exactly when the request
    is not a preflight, its body is JSON with a truthy [input], and the
    API key is configured and not empty; the call then carries the key
    as bearer token.  A request without input is answered 400 before
    the key is looked at. *)
Theorem handler_calls_gateway_when_valid
  (req : Endpoint.Request) (key : option jsstring)
  (fetch : Endpoint.Call -> Endpoint.promise Endpoint.Upstream)
  (call : Endpoint.Call) :
  snd (handler req key fetch) = Some call
  <->
  (Endpoint.method req <> str "OPTIONS"
   /\ exists requestData input k,
       Endpoint.json_of req = Endpoint.Resolves requestData
       /\ member (str "input") requestData = Normal (Some input)
       /\ truthy input = true
       /\ key = Some k /\ k <> []
       /\ call = {| Endpoint.authorization := str "Bearer " ++ k;
                    Endpoint.call_body :=
                      Endpoint.completion_request JSON_stringify
                        requestData input |}).
Proof.
  unfold Endpoint.handler. split.
  - destruct (str_eqb_spec (Endpoint.method req) (str "OPTIONS")) as [|N];
      [discriminate|].
    destruct (Endpoint.json_of req) as [requestData|m] eqn:J;
      [|discriminate].
    destruct (member (str "input") requestData) as [[i|]|] eqn:M;
      try discriminate.
    destruct (truthy i) eqn:T; [|discriminate]. cbn [negb].
    destruct key as [k|]; [|discriminate].
    destruct (str_eqb_spec k []) as [|Nk]; [discriminate|].
    cbn [snd]. intros [= <-]. split; [exact N|].
    exists requestData, i, k. repeat split; auto.
  - intros (N & requestData & i & k & -> & -> & T & -> & Nk & ->).
    destruct (str_eqb_spec (Endpoint.method req) (str "OPTIONS"));
      [contradiction|].
    rewrite T. cbn [negb].
    destruct (str_eqb_spec k []); [contradiction|]. reflexivity.
Qed.

(** X13. The call to the gateway never carries a falsy option: the
    model, the temperature and [max_tokens] it names are the ones of
    the request when these are truthy, and the defaults otherwise, so a
    temperature of zero or a limit of zero tokens is replaced by 0.7
    and 1000. *)
Theorem request_options_default_when_falsy (requestData input : json) :
  let options := opt_member (str "options") (Some requestData) in
  let asked name := opt_member (str name) options in
  exists messages,
    Endpoint.completion_request JSON_stringify requestData input
    = JObject
        [(str "model", or_else (asked "model"%string) Endpoint.DEFAULT_MODEL);
         (str "messages", messages);
         (str "temperature", or_else (asked "temperature"%string) (JNumber 7 (-1)));
         (str "max_tokens", or_else (asked "maxTokens"%string) (JNumber 1000 0))]
    /\ truthy (or_else (asked "model"%string) Endpoint.DEFAULT_MODEL) = true
    /\ truthy (or_else (asked "temperature"%string) (JNumber 7 (-1))) = true
    /\ truthy (or_else (asked "maxTokens"%string) (JNumber 1000 0)) = true
    /\ (forall e, asked "temperature"%string = Some (JNumber 0 e) ->
        or_else (asked "temperature"%string) (JNumber 7 (-1)) = JNumber 7 (-1))
    /\ (forall e, asked "maxTokens"%string = Some (JNumber 0 e) ->
        or_else (asked "maxTokens"%string) (JNumber 1000 0) = JNumber 1000 0).
Proof.
  cbv zeta. eexists. split; [reflexivity|].
  repeat split; try (apply or_else_truthy; reflexivity);
    intros e ->; reflexivity.
Qed.

(** X14. The AI endpoint answers 200 with a body only for a completed
    call: the gateway answered with a success status and JSON whose
    first choice has a truthy message content, and the body is that
    content under [result], with [success] and the model. *)
Theorem handler_success
  (req : Endpoint.Request) (key : option jsstring)
  (fetch : Endpoint.Call -> Endpoint.promise Endpoint.Upstream) :
  Endpoint.reply_status (fst (handler req key fetch)) = 200 ->
  (Endpoint.method req = str "OPTIONS"
   /\ handler req key fetch = (Endpoint.preflight, None))
  \/
  (exists call response data content requestData,
      snd (handler req key fetch) = Some call
      /\ Endpoint.json_of req = Endpoint.Resolves requestData
      /\ fetch call = Endpoint.Resolves response
      /\ Endpoint.up_ok response = true
      /\ Endpoint.up_json response = Endpoint.Resolves data
      /\ Endpoint.message_content data = Normal (Some content)
      /\ truthy content = true
      /\ Endpoint.reply_body (fst (handler req key fetch))
         = Some
             (JObject
                [(str "success", JBool true);
                 (str "result", content);
                 (str "model",
                  or_else
                    (opt_member (str "model")
                       (opt_member (str "options") (Some requestData)))
                    Endpoint.DEFAULT_MODEL)])).
Proof.
  unfold Endpoint.handler, Endpoint.caught, Endpoint.error_reply.
  destruct (str_eqb_spec (Endpoint.method req) (str "OPTIONS")) as [E|N];
    [intros _; left; now split|].
  destruct (Endpoint.json_of req) as [requestData|m]; [|discriminate].
  destruct (member (str "input") requestData) as [[i|]|]; try discriminate.
  destruct (truthy i) eqn:T; [|discriminate]. cbn [negb].
  destruct key as [k|]; [|discriminate].
  destruct (str_eqb_spec k []) as [|Nk]; [discriminate|].
  cbn [fst snd].
  destruct (fetch _) as [response|m] eqn:F; [|discriminate].
  destruct (Endpoint.up_ok response) eqn:O; cbn [negb].
  - destruct (Endpoint.up_json response) as [data|m] eqn:J; [|discriminate].
    destruct (Endpoint.message_content data) as [[c|]|] eqn:C;
      try discriminate.
    destruct (truthy c) eqn:Tc; [|discriminate]. cbn [negb].
    intros _. right. eexists _, response, data, c, requestData.
    repeat split; try eassumption; reflexivity.
  - destruct (Endpoint.up_text response) as [t|m]; [|discriminate].
    destruct (Endpoint.up_status response =? 429); [discriminate|].
    destruct (Endpoint.up_status response =? 402); discriminate.
Qed.

(** X15. The AI endpoint answers 429 or 402 only to pass on the
    status of the gateway: its status is 429 (402) exactly when a call
    was made, the gateway answered 429 (402) and the text of its answer
    could be read. *)
Theorem handler_passes_on_limits
  (req : Endpoint.Request) (key : option jsstring)
  (fetch : Endpoint.Call -> Endpoint.promise Endpoint.Upstream) (code : Z) :
  code = 429 \/ code = 402 ->
  (Endpoint.reply_status (fst (handler req key fetch)) = code
   <->
   exists call response errorText,
     snd (handler req key fetch) = Some call
     /\ fetch call = Endpoint.Resolves response
     /\ Endpoint.up_status response = code
     /\ Endpoint.up_text response = Endpoint.Resolves errorText).
Proof.
  intro Hc. unfold Endpoint.handler, Endpoint.caught, Endpoint.error_reply,
    Endpoint.preflight.
  destruct (str_eqb_spec (Endpoint.method req) (str "OPTIONS")) as [E|N].
  { cbn. split; [destruct Hc; subst; discriminate|].
    intros (c & _ & _ & Q & _). discriminate. }
  destruct (Endpoint.json_of req) as [requestData|m];
    [|cbn; split; [destruct Hc; subst; discriminate
                  |intros (c & _ & _ & Q & _); discriminate]].
  destruct (member (str "input") requestData) as [[i|]|];
    try (cbn; split; [destruct Hc; subst; discriminate
                     |intros (c & _ & _ & Q & _); discriminate]).
  destruct (truthy i) eqn:T; cbn [negb];
    [|cbn; split; [destruct Hc; subst; discriminate
                  |intros (c & _ & _ & Q & _); discriminate]].
  destruct key as [k|];
    [|cbn; split; [destruct Hc; subst; discriminate
                  |intros (c & _ & _ & Q & _); discriminate]].
  destruct (str_eqb_spec k []) as [|Nk];
    [cbn; split; [destruct Hc; subst; discriminate
                 |intros (c & _ & _ & Q & _); discriminate]|].
  cbn [fst snd].
  set (call := {| Endpoint.authorization := _; Endpoint.call_body := _ |}).
  destruct (fetch call) as [response|m] eqn:F.
  - unfold Endpoint.up_ok.
    destruct ((200 <=? Endpoint.up_status response)
              && (Endpoint.up_status response <=? 299)) eqn:O; cbn [negb].
    + split.
      * destruct (Endpoint.up_json response) as [data|m];
          [|cbn; destruct Hc; subst; discriminate].
        destruct (Endpoint.message_content data) as [[c|]|];
          try (cbn; destruct Hc; subst; discriminate).
        destruct (truthy c); cbn; destruct Hc; subst; discriminate.
      * intros (c & r & t & [= <-] & Fr & St & _).
        rewrite F in Fr. injection Fr as <-. destruct Hc; lia.
    + destruct (Endpoint.up_text response) as [t|m] eqn:Tx.
      * destruct (Z.eqb_spec (Endpoint.up_status response) 429) as [E9|N9].
        { cbn. split.
          - intros <-. exists call, response, t. auto.
          - intros (c & r & t' & [= <-] & Fr & St & _).
            rewrite F in Fr. injection Fr as <-. congruence. }
        destruct (Z.eqb_spec (Endpoint.up_status response) 402) as [E2|N2].
        { cbn. split.
          - intros <-. exists call, response, t. auto.
          - intros (c & r & t' & [= <-] & Fr & St & _).
            rewrite F in Fr. injection Fr as <-. congruence. }
        cbn. split; [destruct Hc; subst; discriminate|].
        intros (c & r & t' & [= <-] & Fr & St & _).
        rewrite F in Fr. injection Fr as <-. destruct Hc; congruence.
      * cbn. split; [destruct Hc; subst; discriminate|].
        intros (c & r & t' & [= <-] & Fr & _ & Q).
        rewrite F in Fr. injection Fr as <-. congruence.
  - cbn. split; [destruct Hc; subst; discriminate|].
    intros (c & r & t' & [= <-] & Fr & _). congruence.
Qed.
(** ** The image analysis function *)

Lemma structured_result (analysis : option json) :
  match Endpoint.structured match_fence match_braces analysis with
  | Some v =>
      v = Endpoint.wrapped analysis
      \/ exists text candidate,
          analysis = Some (JString text)
          /\ JSON_parse candidate = Some v
  | None => exists text, analysis = Some (JString text)
  end.
Proof.
  unfold Endpoint.structured.
  destruct analysis as [[| | |text| |]|]; try (now left).
  destruct (match_fence text) as [[whole group]|].
  - destruct (JSON_parse _) as [v|] eqn:P; [right; eauto|now left].
  - destruct (match_braces text) as [whole|]; [|eauto].
    destruct (JSON_parse _) as [v|] eqn:P; [right; eauto|now left].
Qed.

(** X16. What the image function returns under [result] is never
    absent.  For an answer that is not a text (no content at all,
    [null], a number, a list of parts) it is the answer wrapped as
    [{ analysis }]; for a text it is the JSON found in it when that
    parses to a truthy value, the text wrapped when what was found does
    not parse, and the text itself otherwise. *)
Theorem image_result_is_present (analysis : option json) :
  exists v,
    Endpoint.analysis_result match_fence match_braces analysis = Some v
    /\ ((forall text, analysis <> Some (JString text)) ->
        v = Endpoint.wrapped analysis)
    /\ (forall text,
          analysis = Some (JString text) ->
          v = JString text
          \/ v = Endpoint.wrapped analysis
          \/ (truthy v = true /\ exists candidate, JSON_parse candidate = Some v)).
Proof.
  unfold Endpoint.analysis_result.
  pose proof (structured_result analysis) as S.
  destruct (Endpoint.structured match_fence match_braces analysis) as [v|].
  - destruct S as [->|(text & candidate & -> & P)].
    + exists (Endpoint.wrapped analysis). cbn [truthy Endpoint.wrapped].
      split; [reflexivity|split; [reflexivity|auto]].
    + destruct (truthy v) eqn:T.
      * exists v. split; [reflexivity|split].
        -- intro N. now destruct (N text).
        -- intros t _. right. right. eauto.
      * exists (JString text). split; [reflexivity|split].
        -- intro N. now destruct (N text).
        -- intros t [= ->]. now left.
  - destruct S as [text ->]. exists (JString text).
    split; [reflexivity|split].
    + intro N. now destruct (N text).
    + intros t [= ->]. now left.
Qed.

(** X17. The image function answers 200, 400 or 500 and nothing else,
    with the CORS headers; unlike the AI endpoint it passes no status
    on: whatever status the gateway refuses with, 429 and 402
    included, the answer is 500. *)
Theorem image_handler_statuses
  (req : Endpoint.Request) (key : option jsstring)
  (fetch : Endpoint.Call -> Endpoint.promise Endpoint.Upstream) :
  In (Endpoint.reply_status (fst (image_handler req key fetch)))
     [200; 400; 500]
  /\ incl Endpoint.corsHeaders
       (Endpoint.reply_headers (fst (image_handler req key fetch)))
  /\ forall call response,
      snd (image_handler req key fetch) = Some call ->
      fetch call = Endpoint.Resolves response ->
      Endpoint.up_ok response = false ->
      Endpoint.reply_status (fst (image_handler req key fetch)) = 500.
Proof.
  clear JSON_stringify.
  unfold Endpoint.image_handler, Endpoint.caught, Endpoint.error_reply,
    Endpoint.preflight, Endpoint.json_headers.
  destruct (str_eqb (Endpoint.method req) (str "OPTIONS")).
  { cbn. split; [tauto|split; [apply incl_refl|discriminate]]. }
  destruct (Endpoint.json_of req) as [requestData|m];
    [|cbn; split; [tauto|split; [apply incl_tl, incl_refl|discriminate]]].
  destruct (member (str "image") requestData) as [[img|]|];
    try (cbn; split; [tauto|split; [apply incl_tl, incl_refl|discriminate]]).
  destruct (truthy img); cbn [negb];
    [|cbn; split; [tauto|split; [apply incl_tl, incl_refl|discriminate]]].
  destruct key as [k|];
    [|cbn; split; [tauto|split; [apply incl_tl, incl_refl|discriminate]]].
  destruct (str_eqb k []);
    [cbn; split; [tauto|split; [apply incl_tl, incl_refl|discriminate]]|].
  cbn [fst snd].
  set (call := {| Endpoint.authorization := _; Endpoint.call_body := _ |}).
  destruct (fetch call) as [response|m] eqn:F.
  - destruct (Endpoint.up_ok response) eqn:O; cbn [negb].
    + destruct (Endpoint.up_json response) as [data|m];
        [destruct (Endpoint.message_content data) as [analysis|]|];
        cbn; (split; [tauto|split; [apply incl_tl, incl_refl|]]);
        intros c r [= <-] Fr; rewrite F in Fr; injection Fr as <-; congruence.
    + destruct (Endpoint.up_text response) as [t|m];
        cbn; (split; [tauto|split; [apply incl_tl, incl_refl|reflexivity]]).
  - cbn. split; [tauto|split; [apply incl_tl, incl_refl|]].
    intros c r [= <-] Fr. congruence.
Qed.

Lemma analysis_result_some (analysis : option json) :
  exists v,
    Endpoint.analysis_result match_fence match_braces analysis = Some v
    /\ (analysis = None -> v = JObject []).
Proof.
  unfold Endpoint.analysis_result.
  pose proof (structured_result analysis) as S.
  destruct (Endpoint.structured match_fence match_braces analysis) as [v|].
  - destruct S as [->|(text & candidate & -> & P)].
    + exists (Endpoint.wrapped analysis). cbn [truthy Endpoint.wrapped].
      split; [reflexivity|now intros ->].
    + destruct (truthy v); eexists; (split; [reflexivity|discriminate]).
  - destruct S as [text ->]. eexists. split; [reflexivity|discriminate].
Qed.

(** X18. The image function answers 200 to every call the gateway
    completes with JSON that is not [null], whether or not that JSON
    holds an answer: where the AI endpoint reports that no response was
    generated, the image function succeeds, with the missing answer
    wrapped as an empty object. *)
Theorem image_handler_succeeds_without_answer
  (req : Endpoint.Request) (key : option jsstring)
  (fetch : Endpoint.Call -> Endpoint.promise Endpoint.Upstream)
  (call : Endpoint.Call) (response : Endpoint.Upstream)
  (data : json) (analysis : option json) :
  snd (image_handler req key fetch) = Some call ->
  fetch call = Endpoint.Resolves response ->
  Endpoint.up_ok response = true ->
  Endpoint.up_json response = Endpoint.Resolves data ->
  Endpoint.message_content data = Normal analysis ->
  exists result,
    Endpoint.analysis_result match_fence match_braces analysis = Some result
    /\ fst (image_handler req key fetch)
       = {| Endpoint.reply_status := 200;
            Endpoint.reply_body :=
              Some (JObject [(str "success", JBool true);
                             (str "result", result);
                             (str "model", Endpoint.DEFAULT_MODEL)]);
            Endpoint.reply_headers := Endpoint.json_headers |}
    /\ (analysis = None -> result = JObject []).
Proof.
  destruct (analysis_result_some analysis) as (v & Ev & W).
  unfold Endpoint.image_handler.
  destruct (str_eqb (Endpoint.method req) (str "OPTIONS")); [discriminate|].
  destruct (Endpoint.json_of req) as [requestData|m]; [|discriminate].
  destruct (member (str "image") requestData) as [[img|]|]; try discriminate.
  destruct (truthy img); cbn [negb]; [|discriminate].
  destruct key as [k|]; [|discriminate].
  destruct (str_eqb k []); [discriminate|].
  cbn [fst snd].
  set (c := {| Endpoint.authorization := _; Endpoint.call_body := _ |}).
  intros [= <-] F O J M. rewrite F, O, J, M, Ev. cbn [negb].
  exists v. repeat split. exact W.
Qed.

End EdgeFunctions.

(** * The error report and the analyzer *)

(** X19. [handleAIError] echoes the status it is given and always
    names an error: the text of the table for the eight statuses the
    table has, and [Unknown error] for every other status, and only for
    those. *)
Theorem error_report_lookup (thrown : option json) (code : Z) (now : jsstring) :
  let r := ErrorReport.handleAIError thrown code now in
  ErrorReport.statusCode r = code
  /\ ErrorReport.error r <> []
  /\ (In code [400; 401; 402; 403; 404; 429; 500; 503] ->
      ErrorReport.lookup ErrorReport.errorMap code = Some (ErrorReport.error r))
  /\ (ErrorReport.error r = str "Unknown error"
      <-> ~ In code [400; 401; 402; 403; 404; 429; 500; 503]).
Proof.
  cbv zeta. unfold ErrorReport.handleAIError, ErrorReport.errorMap.
  cbn [ErrorReport.statusCode ErrorReport.error ErrorReport.lookup].
  split; [reflexivity|].
  repeat match goal with
         | |- context [?k =? code] =>
             destruct (Z.eqb_spec k code) as [<-|?]
         end;
    cbn [str_eqb];
    (split; [vm_compute; discriminate|]);
    (split; [try (intros _; vm_compute; reflexivity);
             cbn [In]; intuition congruence|]);
    (split; [try (vm_compute; discriminate); cbn [In]; intuition congruence
            |try reflexivity; cbn [In]; intuition congruence]).
Qed.

(** X20. Whatever the invocation gives, [handleAnalyze] ends with
    [isAnalyzing] false and exactly one toast more.  The analysis on
    display changes only with the toast of success, which needs an
    invocation without error whose data carry no truthy [error]; every
    failure leaves the analysis as it was. *)
Theorem analyze_always_settles
  (Error_message : json -> json) (TypeError_message : json)
  (st : Analyzer.state) (outcome : Analyzer.invoked + Analyzer.thrown) :
  let final :=
    Analyzer.handleAnalyze Error_message TypeError_message st outcome in
  Analyzer.isAnalyzing final = false
  /\ ((exists text,
         Analyzer.toasts final
         = Analyzer.toasts st ++ [Analyzer.toast_error text]
         /\ Analyzer.analysis final = Analyzer.analysis st)
      \/
      (exists r d,
         outcome = inl r
         /\ Analyzer.error r = None
         /\ Analyzer.business_error (Analyzer.data r) = None
         /\ Analyzer.data r = Some d
         /\ member (str "analysis") d = Normal (Analyzer.analysis final)
         /\ Analyzer.toasts final
            = Analyzer.toasts st
              ++ [Analyzer.toast_success (JString (str "Analysis completed"))])).
Proof.
  cbv zeta. unfold Analyzer.handleAnalyze, Analyzer.failed.
  destruct outcome as [r|t]; [|split; [reflexivity|left; eexists; split; reflexivity]].
  destruct (Analyzer.error r) as [t|] eqn:E; [split; [reflexivity|left; eexists; split; reflexivity]|].
  destruct (Analyzer.business_error (Analyzer.data r)) as [e|] eqn:B;
    [split; [reflexivity|left; eexists; split; reflexivity]|].
  destruct (Analyzer.data r) as [d|] eqn:D; [|split; [reflexivity|left; eexists; split; reflexivity]].
  destruct (member (str "analysis") d) as [a|] eqn:M;
    [|split; [reflexivity|left; eexists; split; reflexivity]].
  split; [reflexivity|right]. exists r, d. cbn. rewrite D. auto 10.
Qed.

(** * The further properties on concrete inputs *)

Lemma unparsed_line_blocks_live_loop_witness :
  let run :=
    run_of [bytes (frame "Hel" ++ not_json_frame);
            bytes (frame "lo" ++ sentinel_frame)] Closed in
  sentinel_seen run = false
  /\ chunks_read run = 2%nat
  /\ events run =
     map onDelta
       (snd (fst (scan (platform := browser) (str (frame "Hel"))))
        ++ flush_all (platform := browser) (str (frame "lo" ++ sentinel_frame)))
     ++ [onDone].
Proof.
  refine (@unparsed_line_blocks_live_loop browser
            (success [bytes (frame "Hel" ++ not_json_frame);
                      bytes (frame "lo" ++ sentinel_frame)] Closed)
            (source [bytes (frame "Hel" ++ not_json_frame);
                     bytes (frame "lo" ++ sentinel_frame)] Closed)
            (str (frame "Hel")) (str "data: not-json")
            (str (frame "lo" ++ sentinel_frame)) (str "data: not-json")
            eq_refl eq_refl _ _ _ _).
  - vm_compute. reflexivity.
  - change (str (frame "Hel"))
      with (str ("data: " ++ payload "Hel") ++ NL :: []).
    apply (extracted_line (platform := browser) _ _
             (Some (JString (str "Hel")))).
    + apply absent_by_test. vm_compute. reflexivity.
    + vm_compute. reflexivity.
    + constructor.
  - apply absent_by_test. vm_compute. reflexivity.
  - vm_compute. reflexivity.
Defined.

Lemma unprefixed_line_is_transparent_witness :
  events (run_of [bytes (": keep-alive" ++ LF ++ frame "Hel" ++ sentinel_frame)]
            Closed)
  = events (run_of [bytes (frame "Hel"); bytes sentinel_frame] Closed).
Proof.
  refine (@unprefixed_line_is_transparent browser
            (success [bytes (": keep-alive" ++ LF ++ frame "Hel" ++ sentinel_frame)]
               Closed)
            (success [bytes (frame "Hel"); bytes sentinel_frame] Closed)
            (source [bytes (": keep-alive" ++ LF ++ frame "Hel" ++ sentinel_frame)]
               Closed)
            (source [bytes (frame "Hel"); bytes sentinel_frame] Closed)
            [] (str ": keep-alive") (str (frame "Hel" ++ sentinel_frame))
            eq_refl eq_refl eq_refl eq_refl eq_refl _ _ _ _ _ _ _).
  - vm_compute. reflexivity.
  - vm_compute. reflexivity.
  - now left.
  - apply absent_by_test. vm_compute. reflexivity.
  - vm_compute. reflexivity.
  - right. vm_compute. reflexivity.
  - right. vm_compute. reflexivity.
Defined.

Lemma crlf_is_transparent_witness :
  events
    (run_of [bytes ("data: " ++ payload "Hel" ++ CRLF);
             bytes ("data: [DONE]" ++ CRLF)] Closed)
  = events (run_of [bytes (frame "Hel" ++ sentinel_frame)] Closed).
Proof.
  refine (@crlf_is_transparent browser
            (success [bytes (frame "Hel" ++ sentinel_frame)] Closed)
            (success [bytes ("data: " ++ payload "Hel" ++ CRLF);
                      bytes ("data: [DONE]" ++ CRLF)] Closed)
            (source [bytes (frame "Hel" ++ sentinel_frame)] Closed)
            (source [bytes ("data: " ++ payload "Hel" ++ CRLF);
                     bytes ("data: [DONE]" ++ CRLF)] Closed)
            eq_refl eq_refl eq_refl eq_refl eq_refl _ _).
  - vm_compute. reflexivity.
  - right. vm_compute. reflexivity.
Defined.

Lemma completed_message_ignores_the_stream_witness :
  let idle :=
    {| Chat.messages := []; Chat.isStreaming := false;
       Chat.currentResponse := []; Chat.toasts := [] |} in
  Chat.handleSendMessage (platform := browser) (fun _ => []) idle idle
    (str "Hi") (str "id-1") (str "id-2")
    (respond [bytes (frame "Hel" ++ frame "lo" ++ sentinel_frame)] Closed)
  = {| Chat.messages :=
         [{| Chat.id := str "id-1"; Chat.role_of := Chat.user;
             Chat.content := str "Hi" |};
          {| Chat.id := str "id-2"; Chat.role_of := Chat.assistant;
             Chat.content := [] |}];
       Chat.isStreaming := false;
       Chat.currentResponse := [];
       Chat.toasts := [] |}.
Proof.
  refine (@completed_message_ignores_the_stream browser (fun _ => [])
            _ _ _ _ _ _ [JString (str "Hel"); JString (str "lo")] _).
  vm_compute. reflexivity.
Defined.

Lemma failed_stream_is_reported_witness :
  let idle :=
    {| Chat.messages := []; Chat.isStreaming := false;
       Chat.currentResponse := []; Chat.toasts := [] |} in
  Chat.handleSendMessage (platform := browser) (fun _ => []) idle idle
    (str "Hi") (str "id-1") (str "id-2")
    (respond [bytes (frame "Hel")] Errored)
  = {| Chat.messages :=
         [{| Chat.id := str "id-1"; Chat.role_of := Chat.user;
             Chat.content := str "Hi" |}];
       Chat.isStreaming := false;
       Chat.currentResponse := [];
       Chat.toasts := [NETWORK_FAILED] |}.
Proof.
  refine (@failed_stream_is_reported browser (fun _ => [])
            _ _ _ _ _ _ [JString (str "Hel")] NETWORK_FAILED _).
  vm_compute. reflexivity.
Defined.

Lemma display_follows_the_deltas_witness :
  let idle :=
    {| Chat.messages := []; Chat.isStreaming := false;
       Chat.currentResponse := []; Chat.toasts := [] |} in
  let sent :=
    {| Chat.id := str "id-1"; Chat.role_of := Chat.user;
       Chat.content := str "Hi" |} in
  fold_left (Chat.callback (fun _ => []) idle (str "id-2"))
    (firstn 2
       (events
          (run_of [bytes (frame "Hel" ++ frame "lo" ++ sentinel_frame)] Closed)))
    (Chat.sending idle sent)
  = {| Chat.messages := [sent];
       Chat.isStreaming := true;
       Chat.currentResponse := str "Hello";
       Chat.toasts := [] |}.
Proof.
  refine (@display_follows_the_deltas browser (fun _ => [])
            _ _ (str "Hi") (str "id-1") _
            (respond [bytes (frame "Hel" ++ frame "lo" ++ sentinel_frame)] Closed)
            [JString (str "Hel"); JString (str "lo")] onDone 2 _ _).
  - vm_compute. reflexivity.
  - cbn. lia.
Defined.

(** ** The edge functions on concrete requests *)

Lemma handler_calls_gateway_when_valid_witness :
  let asks :=
    {| Endpoint.method := str "POST";
       Endpoint.json_of :=
         Endpoint.Resolves (JObject [(str "input", JString (str "Hi"))]) |} in
  snd (Endpoint.handler (fun _ => []) (fun name => name) asks
         (Some (str "k")) (fun _ => Endpoint.Rejects (str "down")))
  = Some
      {| Endpoint.authorization := str "Bearer k";
         Endpoint.call_body :=
           Endpoint.completion_request (fun _ => [])
             (JObject [(str "input", JString (str "Hi"))])
             (JString (str "Hi")) |}.
Proof.
  apply (proj2 (handler_calls_gateway_when_valid _ _ _ _ _ _)).
  split; [discriminate|].
  exists (JObject [(str "input", JString (str "Hi"))]), (JString (str "Hi")),
    (str "k").
  repeat split; discriminate.
Defined.

Lemma request_options_default_when_falsy_witness :
  let requestData :=
    JObject
      [(str "input", JString (str "Hi"));
       (str "options",
        JObject [(str "temperature", JNumber 0 0);
                 (str "maxTokens", JNumber 0 0)])] in
  or_else
    (opt_member (str "temperature")
       (opt_member (str "options") (Some requestData)))
    (JNumber 7 (-1))
  = JNumber 7 (-1)
  /\ or_else
       (opt_member (str "maxTokens")
          (opt_member (str "options") (Some requestData)))
       (JNumber 1000 0)
     = JNumber 1000 0.
Proof.
  destruct (request_options_default_when_falsy (fun _ => [])
              (JObject
                 [(str "input", JString (str "Hi"));
                  (str "options",
                   JObject [(str "temperature", JNumber 0 0);
                            (str "maxTokens", JNumber 0 0)])])
              (JString (str "Hi")))
    as (messages & _ & _ & _ & _ & T & M).
  split; [apply (T 0)|apply (M 0)]; reflexivity.
Defined.

Lemma handler_success_witness :
  let asks :=
    {| Endpoint.method := str "POST";
       Endpoint.json_of :=
         Endpoint.Resolves (JObject [(str "input", JString (str "Hi"))]) |} in
  let answers (_ : Endpoint.Call) :=
    Endpoint.Resolves
      {| Endpoint.up_status := 200;
         Endpoint.up_text := Endpoint.Rejects [];
         Endpoint.up_json :=
           Endpoint.Resolves
             (JObject
                [(str "choices",
                  JArray
                    [JObject
                       [(str "message",
                         JObject
                           [(str "content", JString (str "Hello"))])]])]) |} in
  let run := Endpoint.handler (fun _ => []) (fun name => name) asks
               (Some (str "k")) answers in
  (Endpoint.method asks = str "OPTIONS" /\ run = (Endpoint.preflight, None))
  \/
  (exists call response data content requestData,
      snd run = Some call
      /\ Endpoint.json_of asks = Endpoint.Resolves requestData
      /\ answers call = Endpoint.Resolves response
      /\ Endpoint.up_ok response = true
      /\ Endpoint.up_json response = Endpoint.Resolves data
      /\ Endpoint.message_content data = Normal (Some content)
      /\ truthy content = true
      /\ Endpoint.reply_body (fst run)
         = Some
             (JObject
                [(str "success", JBool true);
                 (str "result", content);
                 (str "model",
                  or_else
                    (opt_member (str "model")
                       (opt_member (str "options") (Some requestData)))
                    Endpoint.DEFAULT_MODEL)])).
Proof.
  cbv zeta. apply handler_success. reflexivity.
Defined.

Lemma handler_passes_on_limits_witness :
  let asks :=
    {| Endpoint.method := str "POST";
       Endpoint.json_of :=
         Endpoint.Resolves (JObject [(str "input", JString (str "Hi"))]) |} in
  let refuses (_ : Endpoint.Call) :=
    Endpoint.Resolves
      {| Endpoint.up_status := 429;
         Endpoint.up_text := Endpoint.Resolves (str "slow down");
         Endpoint.up_json := Endpoint.Rejects [] |} in
  let run := Endpoint.handler (fun _ => []) (fun name => name) asks
               (Some (str "k")) refuses in
  exists call response errorText,
    snd run = Some call
    /\ refuses call = Endpoint.Resolves response
    /\ Endpoint.up_status response = 429
    /\ Endpoint.up_text response = Endpoint.Resolves errorText.
Proof.
  cbv zeta.
  apply (proj1 (handler_passes_on_limits _ _ _ _ _ 429 (or_introl eq_refl))).
  reflexivity.
Defined.

Lemma image_result_is_present_witness :
  exists v,
    Endpoint.analysis_result (platform := browser)
      (fun _ => None) (fun _ => None) (Some (JNumber 42 0)) = Some v
    /\ v = JObject [(str "analysis", JNumber 42 0)].
Proof.
  destruct (image_result_is_present (platform := browser)
              (fun _ => None) (fun _ => None) (Some (JNumber 42 0)))
    as (v & E & W & _).
  exists v. split; [exact E|]. apply W. discriminate.
Defined.

Lemma image_handler_statuses_witness :
  let asks :=
    {| Endpoint.method := str "POST";
       Endpoint.json_of :=
         Endpoint.Resolves
           (JObject [(str "image", JString (str "data:image/png;base64,AA"))]) |} in
  let refuses (_ : Endpoint.Call) :=
    Endpoint.Resolves
      {| Endpoint.up_status := 429;
         Endpoint.up_text := Endpoint.Resolves (str "slow down");
         Endpoint.up_json := Endpoint.Rejects [] |} in
  Endpoint.reply_status
    (fst (Endpoint.image_handler (platform := browser) (fun name => name)
            (fun _ => None) (fun _ => None) asks (Some (str "k")) refuses))
  = 500.
Proof.
  cbv zeta.
  eapply (proj2 (proj2 (image_handler_statuses (platform := browser)
                          _ _ _ _ _ _))); reflexivity.
Defined.

Lemma image_handler_succeeds_without_answer_witness :
  let asks :=
    {| Endpoint.method := str "POST";
       Endpoint.json_of :=
         Endpoint.Resolves
           (JObject [(str "image", JString (str "data:image/png;base64,AA"))]) |} in
  let answers (_ : Endpoint.Call) :=
    Endpoint.Resolves
      {| Endpoint.up_status := 200;
         Endpoint.up_text := Endpoint.Rejects [];
         Endpoint.up_json := Endpoint.Resolves (JObject []) |} in
  exists result,
    Endpoint.analysis_result (platform := browser)
      (fun _ => None) (fun _ => None) None = Some result
    /\ fst (Endpoint.image_handler (platform := browser) (fun name => name)
              (fun _ => None) (fun _ => None) asks (Some (str "k")) answers)
       = {| Endpoint.reply_status := 200;
            Endpoint.reply_body :=
              Some (JObject [(str "success", JBool true);
                             (str "result", result);
                             (str "model", Endpoint.DEFAULT_MODEL)]);
            Endpoint.reply_headers := Endpoint.json_headers |}
    /\ (@None json = None -> result = JObject []).
Proof.
  cbv zeta.
  eapply (image_handler_succeeds_without_answer (platform := browser)
            _ _ _ _ _ _ _ _ (JObject []) None); reflexivity.
Defined.

Lemma error_report_lookup_witness :
  ErrorReport.lookup ErrorReport.errorMap 404
  = Some (ErrorReport.error (ErrorReport.handleAIError None 404 (str "now"))).
Proof.
  apply (proj1 (proj2 (proj2 (error_report_lookup None 404 (str "now"))))).
  cbn. tauto.
Defined.
